(** * dptrp1manager/tree.py: the remote tree and its path resolver

    A shallow embedding of [dptrp1manager/tree.py]: the node classes
    [DPNode], [DPFolderNode], [DPDocumentNode] and the [RemoteTree] engine
    ([rebuild_tree], [_create_path], [_create_update_node],
    [get_node_by_path]).

    Python objects live in a heap of node objects; an object is its class,
    its [parent] link (the [anytree.NodeMixin] property) and its attribute
    dictionary.  Methods are computations in a state-and-exception monad
    over that heap, so that a raised exception leaves the mutations made
    before it in place, as in Python.

    A string is the sequence of its code points, one 8-bit character for
    each: the embedding covers the texts whose code points are below 256.
    The two parsers of the Python runtime that the code calls ([int] and
    [datetime.strptime]) are embedded for these texts as CPython 3.11
    implements them, with the white space of [int] beyond ASCII and its
    bound on the number of digits.

    The library [anytree] is embedded as its releases from 2.9 on (2.13
    at the time of writing) implement it: a node joins the children of
    its parent when its [parent] is assigned; [Resolver.get] splits the
    path at ["/"], checks the first part of an absolute path against the
    root, passes over the parts [""] and ["."], steps to the parent on
    [".."], raising [RootResolverError] at the root, and otherwise takes
    the first child whose path attribute, turned into text by [str],
    equals the part, raising [ChildResolverError] when there is none.  A
    node whose path attribute is [None] is therefore the child that the
    part ["None"] names. *)

From Stdlib Require Import ZArith Ascii String List Lia Bool.
From stdpp Require Import base option list strings gmap relations pretty.

(* ===================================================================== *)
(** ** Python strings *)
(* ===================================================================== *)

Module PyStr.

(** [s.split(sep)] for a one-character separator. *)
Fixpoint split (sep : ascii) (s : string) : list string :=
  match s with
  | EmptyString => [""]
  | String a s' =>
      if Ascii.eqb a sep then "" :: split sep s'
      else match split sep s' with
           | [] => [String a ""]
           | h :: t => String a h :: t
           end
  end.

(** The text before the last separator, when there is one. *)
Fixpoint before_last (sep : ascii) (s : string) : option string :=
  match s with
  | EmptyString => None
  | String a s' =>
      match before_last sep s' with
      | Some h => Some (String a h)
      | None => if Ascii.eqb a sep then Some "" else None
      end
  end.

(** [s.rsplit(sep, 1)[0]]. *)
Definition rsplit1_head (sep : ascii) (s : string) : string :=
  match before_last sep s with
  | Some h => h
  | None => s
  end.

(** ["{}/{}".format(a, b)]. *)
Definition slash (a b : string) : string := a +:+ "/" +:+ b.

(** ["/".join(l)], used to state properties of paths. *)
Fixpoint join (l : list string) : string :=
  match l with
  | [] => ""
  | [x] => x
  | x :: rest => slash x (join rest)
  end.

Definition startswith (c : ascii) (s : string) : bool :=
  match s with
  | String a _ => Ascii.eqb a c
  | EmptyString => false
  end.

Definition is_digit (c : ascii) : bool :=
  let n := nat_of_ascii c in (48 <=? n)%nat && (n <=? 57)%nat.

Definition digit_val (c : ascii) : Z := Z.of_nat (nat_of_ascii c) - 48.

(** The white space that [int] passes over: [Py_ISSPACE] (space, TAB, LF,
    VT, FF, CR) and, of the code points from 128 on, which [int] first
    turns into spaces when [str.isspace] holds, NEL (133) and the no-break
    space (160).  The separators 28 to 31 are below 128 and are taken as
    they are: they are not white space here. *)
Definition is_space (c : ascii) : bool :=
  let n := nat_of_ascii c in
  (n =? 32)%nat || ((9 <=? n)%nat && (n <=? 13)%nat)
  || (n =? 133)%nat || (n =? 160)%nat.

Fixpoint lstrip (s : string) : string :=
  match s with
  | String a s' => if is_space a then lstrip s' else s
  | EmptyString => EmptyString
  end.

Fixpoint all_space (s : string) : bool :=
  match s with
  | String a s' => is_space a && all_space s'
  | EmptyString => true
  end.

(** The digit run of a base-10 literal, after its first digit: digits with
    single underscores between them.  [prev_us] tells that the previous
    character was an underscore.  The result is the value and the text that
    follows the run. *)
Fixpoint scan_digits (s : string) (acc : Z) (prev_us : bool)
  : option (Z * string) :=
  match s with
  | EmptyString => if prev_us then None else Some (acc, EmptyString)
  | String c r =>
      if is_digit c then scan_digits r (10 * acc + digit_val c) false
      else if Ascii.eqb c "_" then
        if prev_us then None else scan_digits r acc true
      else if prev_us then None else Some (acc, s)
  end.

(** The number of digits of the digit run at the start of [s]; underscores
    do not count. *)
Fixpoint count_digits (s : string) : nat :=
  match s with
  | String c r =>
      if is_digit c then S (count_digits r)
      else if Ascii.eqb c "_" then count_digits r
      else 0
  | EmptyString => 0
  end.

(** [sys.get_int_max_str_digits()], which the code leaves at its default. *)
Definition max_str_digits : nat := 4300.

(** The optional sign in front of the digits. *)
Definition split_sign (s : string) : bool * string :=
  match s with
  | String "+" r => (false, r)
  | String "-" r => (true, r)
  | _ => (false, s)
  end.

(** The digits, of which there are at most [max_str_digits], and the white
    space to the end of the text. *)
Definition int_digits (neg : bool) (s : string) : option Z :=
  match s with
  | String c r =>
      if is_digit c then
        match scan_digits r (digit_val c) false with
        | Some (n, rest) =>
            if (count_digits s <=? max_str_digits)%nat && all_space rest
            then Some (if neg then (- n)%Z else n) else None
        | None => None
        end
      else None
  | EmptyString => None
  end.

(** [int(s)] for a string [s]; [None] stands for [ValueError].  Leading and
    trailing white space, one optional sign, then the digit run; a run of
    more than [max_str_digits] digits is refused.  Of the code points
    below 256 the decimal digits are ["0"] to ["9"]. *)
Definition int (s : string) : option Z :=
  let '(neg, digits) := split_sign (lstrip s) in
  int_digits neg digits.

End PyStr.

(* ===================================================================== *)
(** ** [datetime.strptime(s, "%Y-%m-%dT%H:%M:%SZ")] *)
(* ===================================================================== *)

Record datetime := mk_datetime {
  dt_year : Z; dt_month : Z; dt_day : Z;
  dt_hour : Z; dt_minute : Z; dt_second : Z
}.

Module Strptime.
Import PyStr.

(** A matcher consumes a prefix of the text and hands the value it read and
    the rest to its continuation; alternatives are tried in order, as the
    regular expression that [_strptime] builds from the format does.  Of
    the code points below 256 the class [\d] holds ["0"] to ["9"] only. *)
Definition matcher (A : Type) : Type :=
  forall R : Type, (A -> string -> option R) -> string -> option R.

Definition alt {A} (p q : matcher A) : matcher A :=
  fun R k s => match p R k s with Some r => Some r | None => q R k s end.

Definition in_range (lo hi : nat) (c : ascii) : bool :=
  let n := nat_of_ascii c in (lo <=? n)%nat && (n <=? hi)%nat.

(** One character of the class [lo-hi] (character codes). *)
Definition one (lo hi : nat) : matcher Z :=
  fun R k s =>
    match s with
    | String c r => if in_range lo hi c then k (digit_val c) r else None
    | EmptyString => None
    end.

(** Two characters, of the classes [a-b] and [c-d], read as a two-digit
    number. *)
Definition two (a b c d : nat) : matcher Z :=
  fun R k s =>
    match s with
    | String x (String y r) =>
        if in_range a b x && in_range c d y
        then k (10 * digit_val x + digit_val y)%Z r else None
    | _ => None
    end.

(** A space followed by one character of [1-9] (the last alternative of
    [%d]). *)
Definition space_digit : matcher Z :=
  fun R k s =>
    match s with
    | String " " (String y r) =>
        if in_range 49 57 y then k (digit_val y) r else None
    | _ => None
    end.

(** [\d\d\d\d] *)
Definition re_Y : matcher Z :=
  fun R k s =>
    match s with
    | String a (String b (String c (String d r))) =>
        if is_digit a && is_digit b && is_digit c && is_digit d
        then k (1000 * digit_val a + 100 * digit_val b
                + 10 * digit_val c + digit_val d)%Z r
        else None
    | _ => None
    end.

(** [1[0-2]|0[1-9]|[1-9]] *)
Definition re_m : matcher Z :=
  alt (two 49 49 48 50) (alt (two 48 48 49 57) (one 49 57)).

(** [3[0-1]|[1-2]\d|0[1-9]|[1-9]| [1-9]] *)
Definition re_d : matcher Z :=
  alt (two 51 51 48 49) (alt (two 49 50 48 57)
    (alt (two 48 48 49 57) (alt (one 49 57) space_digit))).

(** [2[0-3]|[0-1]\d|\d] *)
Definition re_H : matcher Z :=
  alt (two 50 50 48 51) (alt (two 48 49 48 57) (one 48 57)).

(** [[0-5]\d|\d] *)
Definition re_M : matcher Z := alt (two 48 53 48 57) (one 48 57).

(** [6[0-1]|[0-5]\d|\d] *)
Definition re_S : matcher Z :=
  alt (two 54 54 48 49) (alt (two 48 53 48 57) (one 48 57)).

(** A literal letter of the format; the expression is compiled with
    [re.IGNORECASE]. *)
Definition lit (lower upper : ascii) {R} (k : string -> option R)
  : string -> option R :=
  fun s =>
    match s with
    | String c r => if Ascii.eqb c lower || Ascii.eqb c upper then k r else None
    | EmptyString => None
    end.

Definition is_leap (y : Z) : bool :=
  ((y mod 4 =? 0) && negb (y mod 100 =? 0) || (y mod 400 =? 0))%Z.

Definition days_in_month (y m : Z) : Z :=
  if (m =? 2)%Z then (if is_leap y then 29 else 28)%Z
  else if ((m =? 4) || (m =? 6) || (m =? 9) || (m =? 11))%Z then 30%Z
  else 31%Z.

(** The checks of the [datetime] constructor on the fields read. *)
Definition valid (d : datetime) : bool :=
  ((1 <=? dt_year d) && (dt_day d <=? days_in_month (dt_year d) (dt_month d))
   && (dt_second d <=? 59))%Z.

(** The match of the whole format; the text must be consumed entirely
    ("unconverted data remains" otherwise). *)
Definition parse (s : string) : option datetime :=
  re_Y _ (fun Y => lit "-" "-" (
  re_m _ (fun m => lit "-" "-" (
  re_d _ (fun d => lit "t" "T" (
  re_H _ (fun H => lit ":" ":" (
  re_M _ (fun M => lit ":" ":" (
  re_S _ (fun S => lit "z" "Z" (fun rest =>
    match rest with
    | EmptyString => Some (mk_datetime Y m d H M S)
    | _ => None
    end)))))))))))) s.

(** [None] stands for [ValueError]. *)
Definition strptime (s : string) : option datetime :=
  match parse s with
  | Some d => if valid d then Some d else None
  | None => None
  end.

End Strptime.

(* ===================================================================== *)
(** ** Values, objects and the heap *)
(* ===================================================================== *)

(** The values that the attributes of a node take. *)
Inductive value :=
  | VNone
  | VStr (s : string)
  | VInt (z : Z)
  | VBool (b : bool)
  | VDate (d : datetime).

(** A JSON field of a record is a string or [null]. *)
Definition of_json (o : option string) : value :=
  match o with
  | Some s => VStr s
  | None => VNone
  end.

(** [bool(v)] *)
Definition py_bool (v : value) : bool :=
  match v with
  | VNone => false
  | VStr s => negb (String.eqb s "")
  | VInt z => negb (z =? 0)%Z
  | VBool b => b
  | VDate _ => true
  end.

(** [v == s] for a string [s]. *)
Definition value_eq_str (v : value) (s : string) : bool :=
  match v with
  | VStr s' => String.eqb s' s
  | _ => false
  end.

(** The decimal text of [z], with zeros in front up to [w] characters. *)
Fixpoint zeros (n : nat) : string :=
  match n with
  | 0 => ""
  | S n' => String "0" (zeros n')
  end.

Definition pad (w : nat) (z : Z) : string :=
  let s := pretty z in zeros (w - String.length s) +:+ s.

(** [str(v)]; a date prints as [YYYY-MM-DD HH:MM:SS]. *)
Definition py_str (v : value) : string :=
  match v with
  | VNone => "None"
  | VStr s => s
  | VInt z => pretty z
  | VBool true => "True"
  | VBool false => "False"
  | VDate d =>
      pad 4 (dt_year d) +:+ "-" +:+ pad 2 (dt_month d) +:+ "-"
      +:+ pad 2 (dt_day d) +:+ " " +:+ pad 2 (dt_hour d) +:+ ":"
      +:+ pad 2 (dt_minute d) +:+ ":" +:+ pad 2 (dt_second d)
  end.

Inductive node_class := DPNode | DPFolderNode | DPDocumentNode.

(** A node object: its class, the [parent] property of [anytree.NodeMixin]
    (an address in the heap) and its [__dict__]. *)
Record obj := mk_obj {
  ob_class : node_class;
  ob_parent : option nat;
  ob_dict : gmap string value
}.

(** [anytree.resolver.Resolver(pathattr)] *)
Record Resolver := mk_Resolver { pathattr : string }.

(** The heap of node objects, addressed by allocation order, and the two
    attributes of the [RemoteTree] instance. *)
Record RemoteTree := mk_RemoteTree {
  heap : list obj;
  _tree : option nat;
  _resolver : option Resolver
}.

(** [RemoteTree.__init__] *)
Definition RemoteTree_init : RemoteTree :=
  {| heap := []; _tree := None; _resolver := None |}.

(** The exceptions that the code can raise.  [ChildResolverError] is a
    subclass of [ResolverError]; an [except ChildResolverError] clause does
    not catch its base class.  [RootResolverError], the other subclass,
    which no clause of the code names, is recorded as [ResolverError]. *)
Inductive exn :=
  | AttributeError
  | IndexError
  | KeyError
  | ValueError
  | ResolverError
  | ChildResolverError.

Inductive outcome (A : Type) :=
  | Ok (a : A)
  | Raise (e : exn).
Arguments Ok {A} a.
Arguments Raise {A} e.

(** A method: it runs on a state and ends in a value or an exception, and
    in both cases in a state. *)
Definition M (A : Type) : Type := RemoteTree -> outcome A * RemoteTree.

Definition ret {A} (a : A) : M A := fun st => (Ok a, st).

Definition raise {A} (e : exn) : M A := fun st => (Raise e, st).

Definition bind {A B} (m : M A) (k : A -> M B) : M B :=
  fun st =>
    match m st with
    | (Ok a, st') => k a st'
    | (Raise e, st') => (Raise e, st')
    end.

Notation "'let*' x ':=' m 'in' k" := (bind m (fun x => k))
  (at level 10, x name, m at level 100, k at level 200).
Notation "m1 '>>' m2" := (bind m1 (fun _ => m2))
  (at level 100, m2 at level 200, right associativity).

(** [try: m except ChildResolverError: h] *)
Definition except_ChildResolverError {A} (m : M A) (h : M A) : M A :=
  fun st =>
    match m st with
    | (Raise ChildResolverError, st') => h st'
    | r => r
    end.

Definition lift_option {A} (e : exn) (o : option A) : M A :=
  match o with
  | Some a => ret a
  | None => raise e
  end.

(** *** Heap primitives *)

Definition parent_of (h : list obj) (a : nat) : option nat :=
  h !! a ≫= ob_parent.

(** [getattr(node, name, None)] *)
Definition getattr (h : list obj) (a : nat) (name : string) : value :=
  match h !! a with
  | Some o => default VNone (ob_dict o !! name)
  | None => VNone
  end.

(** [node.children]: the nodes attached to [a], in the order they were
    attached.  A node is attached once, by its constructor, right after it
    is allocated, so this is the order of the addresses. *)
Fixpoint children_from (l : list obj) (i : nat) (a : nat) : list nat :=
  match l with
  | [] => []
  | o :: l' =>
      if decide (ob_parent o = Some a) then i :: children_from l' (S i) a
      else children_from l' (S i) a
  end.

Definition children (h : list obj) (a : nat) : list nat :=
  children_from h 0 a.

(** [node.root]: follow the parent links to the top. *)
Fixpoint root_from (h : list obj) (fuel : nat) (a : nat) : nat :=
  match fuel with
  | 0 => a
  | S fuel' =>
      match parent_of h a with
      | Some p => root_from h fuel' p
      | None => a
      end
  end.

Definition root_of (h : list obj) (a : nat) : nat :=
  root_from h (length h) a.

(** [object.__new__(cls)] *)
Definition new (c : node_class) : M nat :=
  fun st =>
    (Ok (length (heap st)),
     {| heap := heap st ++ [mk_obj c None ∅];
        _tree := _tree st; _resolver := _resolver st |}).

Definition set_parent_obj (p : option nat) (o : obj) : obj :=
  mk_obj (ob_class o) p (ob_dict o).

Definition set_attr_obj (name : string) (v : value) (o : obj) : obj :=
  mk_obj (ob_class o) (ob_parent o) (<[name := v]> (ob_dict o)).

Definition update_heap (f : list obj -> list obj) : M unit :=
  fun st =>
    (Ok tt, {| heap := f (heap st);
               _tree := _tree st; _resolver := _resolver st |}).

(** [node.parent = p] *)
Definition set_parent (a : nat) (p : option nat) : M unit :=
  update_heap (alter (set_parent_obj p) a).

(** [node.name = v] *)
Definition setattr (a : nat) (name : string) (v : value) : M unit :=
  update_heap (alter (set_attr_obj name v) a).

(* ===================================================================== *)
(** ** The node classes *)
(* ===================================================================== *)

(** [DPNode.todatetime] *)
Definition todatetime (datestring : option string) : M value :=
  match datestring with
  | Some s =>
      match Strptime.strptime s with
      | Some d => ret (VDate d)
      | None => raise ValueError
      end
  | None => ret VNone
  end.

(** [DPNode.__init__] *)
Definition DPNode_init (self : nat) (parent : option nat)
    (entry_path entry_name entry_type entry_id : value)
    (created_date : option string) (is_new : value) : M unit :=
  set_parent self parent >>
  setattr self "entry_path" entry_path >>
  setattr self "entry_name" entry_name >>
  setattr self "entry_type" entry_type >>
  setattr self "entry_id" entry_id >>
  let* d := todatetime created_date in
  setattr self "created_date" d >>
  match is_new with
  | VNone => setattr self "is_new" VNone
  | v => setattr self "is_new" (VBool (py_bool v))
  end.

(** [DPFolderNode.__init__] *)
Definition DPFolderNode_init (self : nat) (parent : option nat)
    (entry_path entry_name entry_type entry_id : value)
    (created_date : option string) (is_new : value)
    (document_source parent_folder_id : value) : M unit :=
  DPNode_init self parent entry_path entry_name entry_type entry_id
    created_date is_new >>
  setattr self "document_source" document_source >>
  setattr self "parent_folder_id" parent_folder_id.

(** [int(x) if x is not None else None] *)
Definition int_or_None (x : option string) : M value :=
  match x with
  | Some s =>
      match PyStr.int s with
      | Some z => ret (VInt z)
      | None => raise ValueError
      end
  | None => ret VNone
  end.

(** [DPDocumentNode.__init__] *)
Definition DPDocumentNode_init (self : nat) (parent : option nat)
    (entry_path entry_name entry_type entry_id : value)
    (created_date : option string) (is_new : value)
    (author : value) (current_page : option string)
    (document_type file_revision : value) (file_size : option string)
    (mime_type : value) (modified_date : option string) (title : value)
    (total_page : option string) : M unit :=
  DPNode_init self parent entry_path entry_name entry_type entry_id
    created_date is_new >>
  setattr self "author" author >>
  setattr self "document_type" document_type >>
  setattr self "file_revision" file_revision >>
  setattr self "mime_type" mime_type >>
  let* d := todatetime modified_date in
  setattr self "modified_date" d >>
  setattr self "title" title >>
  let* cp := int_or_None current_page in
  setattr self "current_page" cp >>
  let* fs := int_or_None file_size in
  setattr self "file_size" fs >>
  let* tp := int_or_None total_page in
  setattr self "total_page" tp.

(* ===================================================================== *)
(** ** [anytree.resolver.Resolver] *)
(* ===================================================================== *)

(** [_getattr(node, name)] of [anytree.resolver]:
    [str(getattr(node, name, None))]. *)
Definition _getattr (h : list obj) (a : nat) (name : string) : string :=
  py_str (getattr h a name).

(** [Resolver.__get]: the first child whose path attribute, as a text,
    equals [name]. *)
Definition Resolver__get (r : Resolver) (node : nat) (name : string)
  : M nat :=
  fun st =>
    match List.find
            (fun c => String.eqb (_getattr (heap st) c (pathattr r)) name)
            (children (heap st) node) with
    | Some c => (Ok c, st)
    | None => (Raise ChildResolverError, st)
    end.

(** The loop of [Resolver.get] over the parts of the path.  At the root
    [..] raises [RootResolverError]. *)
Fixpoint Resolver_walk (r : Resolver) (node : nat) (parts : list string)
  : M nat :=
  match parts with
  | [] => ret node
  | part :: rest =>
      if String.eqb part ".." then
        fun st =>
          match parent_of (heap st) node with
          | Some parent => Resolver_walk r parent rest st
          | None => (Raise ResolverError, st)
          end
      else if String.eqb part "" || String.eqb part "." then
        Resolver_walk r node rest
      else
        let* c := Resolver__get r node part in
        Resolver_walk r c rest
  end.

(** [Resolver.__start]: an absolute path starts at the root, whose path
    attribute, as a text, must be the first part. *)
Definition Resolver__start (r : Resolver) (node : nat) (path : string)
  : M (nat * list string) :=
  fun st =>
    let parts := PyStr.split "/" path in
    if PyStr.startswith "/" path then
      let node := root_of (heap st) node in
      let rootpart := _getattr (heap st) node (pathattr r) in
      match tail parts with
      | [] => (Raise IndexError, st)
      | p0 :: parts' =>
          if String.eqb p0 "" then (Raise ResolverError, st)
          else if negb (String.eqb rootpart p0) then (Raise ResolverError, st)
          else (Ok (node, parts'), st)
      end
    else (Ok (node, parts), st).

(** [Resolver.get] *)
Definition Resolver_get (r : Resolver) (node : nat) (path : string)
  : M nat :=
  let* np := Resolver__start r node path in
  Resolver_walk r (fst np) (snd np).

(* ===================================================================== *)
(** ** [RemoteTree] *)
(* ===================================================================== *)

(** A record of the listing is a JSON object whose fields are strings or
    [null]: a [gmap string (option string)]. *)

(** [data[key]] *)
Definition item (data : gmap string (option string)) (key : string)
  : M (option string) :=
  lift_option KeyError (data !! key).

(** [data.get(key, None)] *)
Definition get_or_None (data : gmap string (option string)) (key : string)
  : option string :=
  default None (data !! key).

Definition read_tree : M nat :=
  fun st => lift_option AttributeError (_tree st) st.

Definition read_resolver : M Resolver :=
  fun st => lift_option AttributeError (_resolver st) st.

Definition write_tree (a : nat) : M unit :=
  fun st =>
    (Ok tt, {| heap := heap st; _tree := Some a; _resolver := _resolver st |}).

Definition write_resolver (r : Resolver) : M unit :=
  fun st =>
    (Ok tt, {| heap := heap st; _tree := _tree st; _resolver := Some r |}).

(** [node.root], as a step of a method. *)
Definition read_root (a : nat) : M nat :=
  fun st => (Ok (root_of (heap st) a), st).

(** [RemoteTree.get_node_by_path]: the node found, or [None]. *)
Definition get_node_by_path (path : string) : M (option nat) :=
  except_ChildResolverError
    (let* r := read_resolver in
     let* t := read_tree in
     let* root := read_root t in
     let* res := Resolver_get r root ("/" +:+ path) in
     ret (Some res))
    (ret None).

(** The constructor calls [DPNode(...)], [DPFolderNode(...)] and
    [DPDocumentNode(...)]: allocate, then run [__init__]. *)
Definition DPNode_new (parent : option nat)
    (entry_path entry_name entry_type entry_id : value)
    (created_date : option string) (is_new : value) : M nat :=
  let* self := new DPNode in
  DPNode_init self parent entry_path entry_name entry_type entry_id
    created_date is_new >>
  ret self.

Definition DPFolderNode_new (parent : option nat)
    (entry_path entry_name entry_type entry_id : value)
    (created_date : option string) (is_new : value)
    (document_source parent_folder_id : value) : M nat :=
  let* self := new DPFolderNode in
  DPFolderNode_init self parent entry_path entry_name entry_type entry_id
    created_date is_new document_source parent_folder_id >>
  ret self.

Definition DPDocumentNode_new (parent : option nat)
    (entry_path entry_name entry_type entry_id : value)
    (created_date : option string) (is_new : value)
    (author : value) (current_page : option string)
    (document_type file_revision : value) (file_size : option string)
    (mime_type : value) (modified_date : option string) (title : value)
    (total_page : option string) : M nat :=
  let* self := new DPDocumentNode in
  DPDocumentNode_init self parent entry_path entry_name entry_type entry_id
    created_date is_new author current_page document_type file_revision
    file_size mime_type modified_date title total_page >>
  ret self.

(** [RemoteTree._create_tree_root] *)
Definition _create_tree_root : M nat :=
  DPNode_new None (VStr "Document") (VStr "Document") (VStr "folder")
    (VStr "root") (Some "2017-12-12T13:53:50Z") (VBool false).

(** The loop of [_create_path] over [splpath[1:-1]]. *)
Fixpoint _create_path_loop (lastpath : string) (ds : list string) : M unit :=
  match ds with
  | [] => ret tt
  | d :: ds' =>
      let curpath := PyStr.slash lastpath d in
      let* found := get_node_by_path curpath in
      match found with
      | None =>
          let* parent := get_node_by_path lastpath in
          DPFolderNode_new parent (VStr curpath) VNone VNone VNone
            None VNone VNone VNone >>
          ret tt
      | Some _ => ret tt
      end >>
      _create_path_loop curpath ds'
  end.

(** [RemoteTree._create_path]; the argument is [data["entry_path"]], and
    [None.split] is an [AttributeError]. *)
Definition _create_path (path : option string) : M unit :=
  let* path := lift_option AttributeError path in
  let splpath := PyStr.split "/" path in
  let lastpath := hd "" splpath in
  _create_path_loop lastpath (removelast (tail splpath)).

(** [x == s] for a field [x] of a record. *)
Definition str_is (o : option string) (s : string) : bool :=
  match o with
  | Some s' => String.eqb s' s
  | None => false
  end.

(** The [else] branch of the folder case of [_create_update_node]: the
    node exists and takes the data of the record. *)
Definition update_node (node : nat) (data : gmap string (option string))
  : M unit :=
  let* v := item data "entry_name" in
  setattr node "entry_name" (of_json v) >>
  let* v := item data "entry_type" in
  setattr node "entry_type" (of_json v) >>
  let* v := item data "entry_id" in
  setattr node "entry_id" (of_json v) >>
  let* v := item data "created_date" in
  let* d := todatetime v in
  setattr node "created_date" d >>
  let* v := item data "is_new" in
  setattr node "is_new" (VBool (py_bool (of_json v))) >>
  setattr node "document_source"
    (of_json (get_or_None data "document_source")) >>
  let* v := item data "parent_folder_id" in
  setattr node "parent_folder_id" (of_json v).

(** The call [DPFolderNode(parent=parent, entry_path=data["entry_path"],
    ...)]: the arguments are read in order, then the node is built. *)
Definition create_folder (parent : option nat)
    (data : gmap string (option string)) : M unit :=
  let* a_path := item data "entry_path" in
  let* a_name := item data "entry_name" in
  let* a_type := item data "entry_type" in
  let* a_id := item data "entry_id" in
  let* a_created := item data "created_date" in
  let* a_new := item data "is_new" in
  let a_source := get_or_None data "document_source" in
  let* a_pfid := item data "parent_folder_id" in
  DPFolderNode_new parent (of_json a_path) (of_json a_name)
    (of_json a_type) (of_json a_id) a_created (of_json a_new)
    (of_json a_source) (of_json a_pfid) >>
  ret tt.

(** The call [DPDocumentNode(parent=parent, ...)]. *)
Definition create_document (parent : option nat)
    (data : gmap string (option string)) : M unit :=
  let* a_path := item data "entry_path" in
  let* a_name := item data "entry_name" in
  let* a_type := item data "entry_type" in
  let* a_id := item data "entry_id" in
  let* a_created := item data "created_date" in
  let* a_new := item data "is_new" in
  let* a_author := item data "author" in
  let* a_cur := item data "current_page" in
  let* a_dtype := item data "document_type" in
  let* a_rev := item data "file_revision" in
  let* a_size := item data "file_size" in
  let* a_mime := item data "mime_type" in
  let* a_mod := item data "modified_date" in
  let* a_title := item data "title" in
  let* a_total := item data "total_page" in
  DPDocumentNode_new parent (of_json a_path) (of_json a_name)
    (of_json a_type) (of_json a_id) a_created (of_json a_new)
    (of_json a_author) a_cur (of_json a_dtype) (of_json a_rev) a_size
    (of_json a_mime) a_mod (of_json a_title) a_total >>
  ret tt.

(** [RemoteTree._create_update_node] *)
Definition _create_update_node (data : gmap string (option string))
  : M unit :=
  let* entry_path := item data "entry_path" in
  let* entry_path := lift_option AttributeError entry_path in
  let parentpath := PyStr.rsplit1_head "/" entry_path in
  let* parent := get_node_by_path parentpath in
  let* entry_type := item data "entry_type" in
  if str_is entry_type "folder" then
    let* node := get_node_by_path entry_path in
    match node with
    | None => create_folder parent data
    | Some node => update_node node data
    end
  else if str_is entry_type "document" then create_document parent data
  else ret tt.

(** The body of the loop of [rebuild_tree]. *)
Definition process_record (data : gmap string (option string)) : M unit :=
  let* path := item data "entry_path" in
  _create_path path >>
  _create_update_node data.

Fixpoint rebuild_loop (jsondata : list (gmap string (option string)))
  : M unit :=
  match jsondata with
  | [] => ret tt
  | data :: rest => process_record data >> rebuild_loop rest
  end.

(** [RemoteTree.rebuild_tree] *)
Definition rebuild_tree (jsondata : list (gmap string (option string)))
  : M unit :=
  let* root := _create_tree_root in
  write_tree root >>
  write_resolver (mk_Resolver "entry_name") >>
  rebuild_loop jsondata.

(* ===================================================================== *)
(** ** Notions used in the statements *)
(* ===================================================================== *)

(** The attribute [name] of the node at [a], [None] when it is not set. *)
Definition attr (t : RemoteTree) (a : nat) (name : string) : value :=
  getattr (heap t) a name.

(** The parent links lead from [a] to [root]. *)
Fixpoint reaches (h : list obj) (root : nat) (fuel : nat) (a : nat) : bool :=
  if (a =? root)%nat then true
  else match fuel with
       | 0 => false
       | S fuel' =>
           match parent_of h a with
           | Some p => reaches h root fuel' p
           | None => false
           end
       end.

(** The nodes of the tree: the root [_tree] and its descendants. *)
Definition in_tree (t : RemoteTree) (a : nat) : bool :=
  match _tree t with
  | Some root =>
      (a <? length (heap t))%nat && reaches (heap t) root (length (heap t)) a
  | None => false
  end.

Definition tree_nodes (t : RemoteTree) : list nat :=
  List.filter (in_tree t) (seq 0 (length (heap t))).

(** The parent links of a heap stay inside it. *)
Definition closed (h : list obj) : Prop :=
  forall a p, parent_of h a = Some p -> (p < length h)%nat.

(** Sample records, after the listings quoted at the end of [tree.py]. *)
Definition document_record (path name : string) (created : option string)
    (cur size total : option string) : gmap string (option string) :=
  list_to_map
    [("author", Some "lsr"); ("created_date", created);
     ("current_page", cur); ("document_type", Some "normal");
     ("entry_id", Some "f1d09cac-1832-48b7-b060-4d39cbc0e582");
     ("entry_name", Some name); ("entry_path", Some path);
     ("entry_type", Some "document");
     ("file_revision", Some "05873ef2024a.1.0"); ("file_size", size);
     ("is_new", Some "true"); ("mime_type", Some "application/pdf");
     ("modified_date", Some "2017-12-14T13:55:00Z");
     ("parent_folder_id", Some "c9f9cde4-f12f-4285-a42c-7b38206581ca");
     ("title", Some "Print The Quantum Theory of Magnetism.tif");
     ("total_page", total)].

Definition sample_document (path name : string)
  : gmap string (option string) :=
  document_record path name (Some "2017-12-14T13:55:00Z")
    (Some "1") (Some "19093553") (Some "436").

Definition folder_record (path name : string) (is_new : option string)
  : gmap string (option string) :=
  list_to_map
    [("created_date", Some "2018-10-06T07:38:12Z");
     ("document_source", Some "2ae5e78c-8766-416b-baf6-ba3e1be3ab02");
     ("entry_id", Some "6dd5f5a9-4136-4591-960a-c7f04d129f45");
     ("entry_name", Some name); ("entry_path", Some path);
     ("entry_type", Some "folder"); ("is_new", is_new);
     ("parent_folder_id", Some "9d9eced8-18be-4b82-b9d3-5a9ebddfe8dc")].

(** A character that can occur in the text of an integer: a digit, white
    space, a sign or an underscore. *)
Definition numeric_char (c : ascii) : bool :=
  PyStr.is_digit c || PyStr.is_space c
  || Ascii.eqb c "+" || Ascii.eqb c "-" || Ascii.eqb c "_".

Fixpoint has_digit (s : string) : bool :=
  match s with
  | String c r => PyStr.is_digit c || has_digit r
  | EmptyString => false
  end.

Fixpoint all_numeric (s : string) : bool :=
  match s with
  | String c r => numeric_char c && all_numeric r
  | EmptyString => true
  end.

(** A text that is not a number: it has no digit, or it has a character
    that no integer contains. *)
Definition non_numeric (s : string) : bool :=
  negb (has_digit s) || negb (all_numeric s).

(** The digits of an integer: digits, with single underscores between
    them. *)
Inductive digit_run : string -> Prop :=
  | run_last c : PyStr.is_digit c = true -> digit_run (String c "")
  | run_next c r :
      PyStr.is_digit c = true -> digit_run r -> digit_run (String c r)
  | run_under c r :
      PyStr.is_digit c = true -> digit_run r ->
      digit_run (String c (String "_" r)).

(** The text of an integer: white space, an optional sign, the digits,
    white space. *)
Definition integer_text (s : string) : Prop :=
  exists pre sign run post,
    s = pre +:+ sign +:+ run +:+ post /\
    PyStr.all_space pre = true /\
    (sign = "" \/ sign = "+" \/ sign = "-") /\
    digit_run run /\
    PyStr.all_space post = true.

(** A text of ASCII characters. *)
Fixpoint ascii_text (s : string) : bool :=
  match s with
  | String c r => (nat_of_ascii c <? 128)%nat && ascii_text r
  | EmptyString => true
  end.

(** A field that [todatetime] accepts. *)
Definition date_ok (x : option string) : Prop :=
  forall s, x = Some s -> Strptime.strptime s <> None.

(** A numeric field that [int] accepts. *)
Definition int_ok (x : option string) : Prop :=
  forall s, x = Some s -> PyStr.int s <> None.

(** The value that [todatetime] returns, when it returns. *)
Definition parse_date (x : option string) : option value :=
  match x with
  | Some s => VDate <$> Strptime.strptime s
  | None => Some VNone
  end.

(** The value of [int(x) if x is not None else None], when it has one. *)
Definition parse_int (x : option string) : option value :=
  match x with
  | Some s => VInt <$> PyStr.int s
  | None => Some VNone
  end.

(** The value that [DPNode.__init__] stores in [is_new]. *)
Definition is_new_value (v : value) : value :=
  match v with
  | VNone => VNone
  | v => VBool (py_bool v)
  end.

(** The attributes that [DPNode.__init__] sets before it parses the date. *)
Definition base_obj (parent : option nat)
    (entry_path entry_name entry_type entry_id : value) (o : obj) : obj :=
  set_attr_obj "entry_id" entry_id
    (set_attr_obj "entry_type" entry_type
       (set_attr_obj "entry_name" entry_name
          (set_attr_obj "entry_path" entry_path (set_parent_obj parent o)))).

(** The root node, as [_create_tree_root] builds it. *)
Definition root_obj : obj :=
  set_attr_obj "is_new" (VBool false)
    (set_attr_obj "created_date" (VDate (mk_datetime 2017 12 12 13 53 50))
       (base_obj None (VStr "Document") (VStr "Document") (VStr "folder")
          (VStr "root") (mk_obj DPNode None ∅))).

(** The state of [rebuild_tree] when it enters its loop: a new root behind
    the nodes [h] that were there, and a new resolver. *)
Definition fresh_tree (h : list obj) : RemoteTree :=
  mk_RemoteTree (h ++ [root_obj]) (Some (length h))
    (Some (mk_Resolver "entry_name")).

(** What [get_node_by_path] makes of a call of the resolver: the node
    found, or [None] for a missing child. *)
Definition resolved (m : M nat) : M (option nat) :=
  except_ChildResolverError (let* res := m in ret (Some res)) (ret None).

(** The result of [get_node_by_path], as a function of the state. *)
Definition lookup (t : RemoteTree) (path : string) : outcome (option nat) :=
  fst (get_node_by_path path t).

(** What a method leaves of the instance: [_tree] and [_resolver] are kept
    and no node disappears. *)
Definition extends (st st' : RemoteTree) : Prop :=
  _tree st' = _tree st /\ _resolver st' = _resolver st /\
  (length (heap st) <= length (heap st'))%nat.

Definition preserves {A} (R : RemoteTree -> RemoteTree -> Prop) (m : M A)
  : Prop :=
  forall st, R st (snd (m st)).

(** The parts of a path that [Resolver.get] passes over. *)
Definition skipped (s : string) : bool :=
  String.eqb s "" || String.eqb s ".".

(** A part that [Resolver.get] looks up among the children. *)
Definition proper_name (s : string) : bool :=
  negb (String.eqb s "") && negb (String.eqb s ".")
  && negb (String.eqb s "..").

(** *** The tree as seen from its root *)

(** A node moved [k] addresses up, with its parent. *)
Definition shift_obj (k : nat) (o : obj) : obj :=
  mk_obj (ob_class o) (Nat.add k <$> ob_parent o) (ob_dict o).

(** The state [t], built behind the nodes [G] of earlier builds. *)
Definition relocate (G : list obj) (t : RemoteTree) : RemoteTree :=
  mk_RemoteTree (G ++ (shift_obj (length G) <$> heap t))
    (Nat.add (length G) <$> _tree t) (_resolver t).

Definition unshift_obj (k : nat) (o : obj) : obj :=
  mk_obj (ob_class o) ((fun p => p - k)%nat <$> ob_parent o) (ob_dict o).

(** The nodes allocated from the root on, their parent links counted from
    the root: the tree without the identity of its nodes. *)
Definition tree_view (t : RemoteTree) : list obj :=
  match _tree t with
  | Some root => unshift_obj root <$> drop root (heap t)
  | None => []
  end.

(** The class and the fields of the node at [a]. *)
Definition node_fields (t : RemoteTree) (a : nat)
  : option (node_class * gmap string value) :=
  (fun o => (ob_class o, ob_dict o)) <$> heap t !! a.

(** The fields of the nodes of the tree whose [entry_path] is [path]. *)
Definition fields_at (t : RemoteTree) (path : string)
  : list (option (node_class * gmap string value)) :=
  node_fields t <$>
    List.filter (fun a => value_eq_str (attr t a "entry_path") path)
      (tree_nodes t).

Definition map_outcome {A B} (f : A -> B) (o : outcome A) : outcome B :=
  match o with
  | Ok a => Ok (f a)
  | Raise e => Raise e
  end.

(** The fields of the node that [get_node_by_path] returns. *)
Definition found_fields (t : RemoteTree) (path : string)
  : outcome (option (option (node_class * gmap string value))) :=
  map_outcome (fmap (node_fields t)) (lookup t path).

(** The root is a node of the heap and has no parent. *)
Definition tree_ok (t : RemoteTree) : Prop :=
  forall root, _tree t = Some root ->
    (root < length (heap t))%nat /\ parent_of (heap t) root = None.

(** [mb] does behind the nodes [G] what [m] does without them; [f] moves
    the result. *)
Definition simulates {A} (G : list obj) (f : A -> A) (m mb : M A) : Prop :=
  forall ts, tree_ok ts ->
    mb (relocate G ts) = (map_outcome f (fst (m ts)), relocate G (snd (m ts)))
    /\ tree_ok (snd (m ts)).

(** *** The changes that a record makes to the heap *)

(** The placeholder that [_create_path] builds at [curpath]. *)
Definition placeholder_obj (parent : option nat) (curpath : string) : obj :=
  set_attr_obj "parent_folder_id" VNone
    (set_attr_obj "document_source" VNone
       (set_attr_obj "is_new" VNone
          (set_attr_obj "created_date" VNone
             (base_obj parent (VStr curpath) VNone VNone VNone
                (mk_obj DPFolderNode None ∅))))).

(** The state with one more node. *)
Definition push (o : obj) (st : RemoteTree) : RemoteTree :=
  mk_RemoteTree (heap st ++ [o]) (_tree st) (_resolver st).

(** What the update of a node in place does to it: the class, the parent
    and the path stay, and the name stays or becomes the name of the
    record. *)
Definition attr_update (data : gmap string (option string)) (f : obj -> obj)
  : Prop :=
  forall o,
    ob_class (f o) = ob_class o /\ ob_parent (f o) = ob_parent o /\
    ob_dict (f o) !! "entry_path" = ob_dict o !! "entry_path" /\
    (ob_dict (f o) !! "entry_name" = ob_dict o !! "entry_name" \/
     exists name, data !! "entry_name" = Some name /\
                  ob_dict (f o) !! "entry_name" = Some (of_json name)).

(** The processing of a record is made of placeholders for the parts of
    its path, built by [_create_path], and then of the change that
    [_create_update_node] makes, if it makes one: a node for the record, or
    the update of the node found at its path. *)
Inductive place (data : gmap string (option string)) (st : RemoteTree)
  : RemoteTree -> Prop :=
  | place_placeholder path pre d post parent :
      data !! "entry_path" = Some (Some path) ->
      PyStr.split "/" path = pre ++ d :: post ->
      pre <> [] -> post <> [] ->
      lookup st (PyStr.join (pre ++ [d])) = Ok None ->
      lookup st (PyStr.join pre) = Ok parent ->
      place data st (push (placeholder_obj parent (PyStr.join (pre ++ [d]))) st).

Inductive settle (data : gmap string (option string)) (st : RemoteTree)
  : RemoteTree -> Prop :=
  | settle_create path name ty parent o :
      data !! "entry_path" = Some (Some path) ->
      data !! "entry_name" = Some name ->
      data !! "entry_type" = Some ty ->
      lookup st (PyStr.rsplit1_head "/" path) = Ok parent ->
      (str_is ty "folder" = true /\ lookup st path = Ok None \/
       str_is ty "folder" = false /\ str_is ty "document" = true) ->
      ob_parent o = parent ->
      ob_dict o !! "entry_path" = Some (VStr path) ->
      ob_dict o !! "entry_name" = Some (of_json name) ->
      settle data st (push o st)
  | settle_update path a f :
      data !! "entry_path" = Some (Some path) ->
      lookup st path = Ok (Some a) ->
      attr_update data f ->
      settle data st
        (mk_RemoteTree (alter f a (heap st)) (_tree st) (_resolver st)).

(** [_create_update_node] makes at most one change. *)
Definition settles (data : gmap string (option string))
    (st st' : RemoteTree) : Prop :=
  st' = st \/ settle data st st'.

(** The state after an update in place of the node at [a]. *)
Definition updated (data : gmap string (option string)) (a : nat)
    (st st' : RemoteTree) : Prop :=
  exists f, attr_update data f /\
    st' = mk_RemoteTree (alter f a (heap st)) (_tree st) (_resolver st).

(** Every parent was allocated before its child. *)
Definition ordered (h : list obj) : Prop :=
  forall a p, parent_of h a = Some p -> (p < a)%nat.

(** The states that the loop of [rebuild_tree] goes through. *)
Definition sound (st : RemoteTree) : Prop :=
  ordered (heap st) /\ tree_ok st.

(** *** Paths *)

(** A text without ["/"]. *)
Fixpoint no_slash (s : string) : bool :=
  match s with
  | String c r => negb (Ascii.eqb c "/") && no_slash r
  | EmptyString => true
  end.

(** The first child of [n] whose [entry_name] is [name] for the resolver,
    which reads the text of the attribute. *)
Definition find_child (h : list obj) (n : nat) (name : string) : option nat :=
  List.find (fun c => String.eqb (_getattr h c "entry_name") name)
    (children h n).

(** The part [x] names only nodes whose [entry_name] is the string [x]: no
    node without a name is taken for it. *)
Definition exact (h : list obj) (x : string) : Prop :=
  forall c, (c < length h)%nat ->
    _getattr h c "entry_name" = x -> getattr h c "entry_name" = VStr x.

(** The node reached from [n] through children named by [segs]. *)
Fixpoint descend (h : list obj) (n : nat) (segs : list string) : option nat :=
  match segs with
  | [] => Some n
  | s :: rest =>
      match find_child h n s with
      | Some c => descend h c rest
      | None => None
      end
  end.

(** The [entry_path] of a record, when it has one. *)
Definition record_path (data : gmap string (option string)) : string :=
  match data !! "entry_path" with
  | Some (Some p) => p
  | _ => ""
  end.

(** A record of a well-formed listing: its path is ["Document"] followed by
    at least one part, every part is a name, and its [entry_name] is the
    last part of its path. *)
Definition well_formed (data : gmap string (option string)) : bool :=
  match data !! "entry_path", data !! "entry_name" with
  | Some (Some path), Some (Some name) =>
      match PyStr.split "/" path with
      | first :: seg :: segs =>
          String.eqb first "Document"
          && forallb proper_name (seg :: segs)
          && String.eqb (List.last segs seg) name
      | _ => false
      end
  | _, _ => false
  end.

(** No part of the path of the record is the text ["None"], which for the
    resolver names the nodes that have no name. *)
Definition names_not_None (data : gmap string (option string)) : bool :=
  forallb (fun s => negb (String.eqb s "None"))
    (PyStr.split "/" (record_path data)).

(** The record is processed by the document branch. *)
Definition is_document (data : gmap string (option string)) : bool :=
  match data !! "entry_type" with
  | Some ty => negb (str_is ty "folder") && str_is ty "document"
  | None => false
  end.

(** No document record comes at a path that an earlier record had. *)
Fixpoint documents_fresh (seen : list string)
    (jsondata : list (gmap string (option string))) : bool :=
  match jsondata with
  | [] => true
  | data :: rest =>
      (negb (is_document data)
       || negb (existsb (String.eqb (record_path data)) seen))
      && documents_fresh (record_path data :: seen) rest
  end.

(** What the loop of [rebuild_tree] keeps on every well-formed listing:
    the root stays the node named ["Document"], and an [entry_name] is
    [None] or a string. *)
Record root_inv (root : nat) (st : RemoteTree) : Prop :=
  mk_root_inv {
    ri_sound : sound st;
    ri_resolver : _resolver st = Some (mk_Resolver "entry_name");
    ri_tree : _tree st = Some root;
    ri_root_name : attr st root "entry_name" = VStr "Document";
    ri_names : forall a,
      attr st a "entry_name" = VNone \/
      exists n, attr st a "entry_name" = VStr n
  }.

(** Every node has a name. *)
Definition all_named (st : RemoteTree) : Prop :=
  forall a, (a < length (heap st))%nat ->
    exists n, attr st a "entry_name" = VStr n.

(** The invariant of the loop of [rebuild_tree] on a well-formed listing
    whose lookups take no node without a name for a node named ["None"],
    for a build on an empty heap; [seen] are the paths of the records
    processed so far.  The parts on siblings, on the paths seen and on the
    name ["None"] hold when no document record comes at a path already
    seen and no part of a path is ["None"] ([uniq]). *)
Record path_inv (uniq : Prop) (seen : list string) (root : nat)
    (st : RemoteTree) : Prop :=
  mk_path_inv {
    pi_sound : sound st;
    pi_resolver : _resolver st = Some (mk_Resolver "entry_name");
    pi_tree : _tree st = Some root;
    pi_root_name : attr st root "entry_name" = VStr "Document";
    pi_root_path : attr st root "entry_path" = VStr "Document";
    pi_path : forall a p n,
      parent_of (heap st) a = Some p -> attr st a "entry_name" = VStr n ->
      proper_name n = true /\ no_slash n = true /\
      exists q, attr st p "entry_path" = VStr q /\
                attr st a "entry_path" = VStr (PyStr.slash q n);
    pi_sibling : uniq -> forall a b p n,
      parent_of (heap st) a = Some p -> parent_of (heap st) b = Some p ->
      attr st a "entry_name" = VStr n -> attr st b "entry_name" = VStr n ->
      a = b;
    pi_parent : forall a p,
      parent_of (heap st) a = Some p ->
      p = root \/
      exists n pp, attr st p "entry_name" = VStr n /\
                   parent_of (heap st) p = Some pp;
    pi_seen : uniq -> forall a p n,
      parent_of (heap st) a = Some p -> attr st a "entry_name" = VStr n ->
      exists q, attr st a "entry_path" = VStr q /\ In q seen;
    pi_names : forall a,
      attr st a "entry_name" = VNone \/
      exists n, attr st a "entry_name" = VStr n;
    pi_named : uniq -> forall a p n,
      parent_of (heap st) a = Some p -> attr st a "entry_name" = VStr n ->
      n <> "None"
  }.

(** *** Notions used in the properties of the whole module *)

(** The exceptions that a method can end in are among [S]. *)
Definition raises {A} (S : exn -> Prop) (m : M A) : Prop :=
  forall st e, fst (m st) = Raise e -> S e.

(** The fields that the construction of a folder reads with [data[...]],
    in the order of the call. *)
Definition folder_fields : list string :=
  ["entry_path"; "entry_name"; "entry_type"; "entry_id"; "created_date";
   "is_new"; "parent_folder_id"].

(** The fields that the construction of a document reads. *)
Definition document_fields : list string :=
  ["entry_path"; "entry_name"; "entry_type"; "entry_id"; "created_date";
   "is_new"; "author"; "current_page"; "document_type"; "file_revision";
   "file_size"; "mime_type"; "modified_date"; "title"; "total_page"].

(** The node that [DPFolderNode(...)] builds from a record. *)
Definition folder_obj (parent : option nat)
    (path name ty id : option string) (created : value)
    (is_new source pfid : option string) : obj :=
  mk_obj DPFolderNode parent
    (<["parent_folder_id" := of_json pfid]>
       (<["document_source" := of_json source]>
          (<["is_new" := is_new_value (of_json is_new)]>
             (<["created_date" := created]>
                (<["entry_id" := of_json id]>
                   (<["entry_type" := of_json ty]>
                      (<["entry_name" := of_json name]>
                         (<["entry_path" := of_json path]> ∅)))))))).

(** The node that [DPDocumentNode(...)] builds from a record. *)
Definition document_obj (parent : option nat)
    (path name ty id : option string) (created : value)
    (is_new author dtype rev mime : option string) (modified : value)
    (title : option string) (cur size total : value) : obj :=
  mk_obj DPDocumentNode parent
    (<["total_page" := total]>
       (<["file_size" := size]>
          (<["current_page" := cur]>
             (<["title" := of_json title]>
                (<["modified_date" := modified]>
                   (<["mime_type" := of_json mime]>
                      (<["file_revision" := of_json rev]>
                         (<["document_type" := of_json dtype]>
                            (<["author" := of_json author]>
                               (<["is_new" := is_new_value (of_json is_new)]>
                                  (<["created_date" := created]>
                                     (<["entry_id" := of_json id]>
                                        (<["entry_type" := of_json ty]>
                                           (<["entry_name" := of_json name]>
                                              (<["entry_path" := of_json path]>
                                                 ∅))))))))))))))).

(** What the update in place writes into a node. *)
Definition update_obj (name ty id : option string) (created : value)
    (is_new source pfid : option string) (o : obj) : obj :=
  set_attr_obj "parent_folder_id" (of_json pfid)
    (set_attr_obj "document_source" (of_json source)
       (set_attr_obj "is_new" (VBool (py_bool (of_json is_new)))
          (set_attr_obj "created_date" created
             (set_attr_obj "entry_id" (of_json id)
                (set_attr_obj "entry_type" (of_json ty)
                   (set_attr_obj "entry_name" (of_json name) o)))))).

(** The record is processed by the folder branch. *)
Definition is_folder (data : gmap string (option string)) : bool :=
  match data !! "entry_type" with
  | Some ty => str_is ty "folder"
  | None => false
  end.

(** Every record comes after the folder that holds it: its parent path is
    among [known], which starts as the path of the root and takes the path
    of every folder record passed. *)
Fixpoint folders_first (known : list string)
    (jsondata : list (gmap string (option string))) : bool :=
  match jsondata with
  | [] => true
  | data :: rest =>
      existsb (String.eqb (PyStr.rsplit1_head "/" (record_path data))) known
      && folders_first
           (if is_folder data then record_path data :: known else known) rest
  end.

(** The names and the parents of the nodes that were there stay, and the
    nodes added are named and attached. *)
Definition tidy (st st' : RemoteTree) : Prop :=
  (length (heap st) <= length (heap st'))%nat /\
  (forall a, (a < length (heap st))%nat ->
     attr st' a "entry_name" = attr st a "entry_name" /\
     parent_of (heap st') a = parent_of (heap st) a) /\
  (forall a, (length (heap st) <= a < length (heap st'))%nat ->
     exists n p, attr st' a "entry_name" = VStr n /\
                 parent_of (heap st') a = Some p).

(** The path [q] leads from the root to a node, name by name. *)
Definition reached (st : RemoteTree) (root : nat) (q : string) : Prop :=
  exists segs a,
    q = PyStr.join ("Document" :: segs) /\
    forallb proper_name segs = true /\
    Forall (fun x => no_slash x = true) segs /\
    descend (heap st) root segs = Some a.

(** The record has all the fields [keys]. *)
Definition has_fields (data : gmap string (option string))
    (keys : list string) : bool :=
  forallb (fun k => match data !! k with Some _ => true | None => false end)
    keys.

(** A conversion that gives a value. *)
Definition accepted {A} (o : option A) : bool :=
  match o with
  | Some _ => true
  | None => false
  end.

(** A record that has what its branch of [_create_update_node] reads: a
    folder record its seven fields and a date that [todatetime] accepts, a
    document record its fifteen fields, two such dates and three numbers
    that [int] accepts (or [null]); a record of another type only its
    [entry_type]. *)
Definition valid_record (data : gmap string (option string)) : bool :=
  match data !! "entry_type" with
  | Some ty =>
      if str_is ty "folder" then
        has_fields data folder_fields
        && accepted (parse_date (get_or_None data "created_date"))
      else if str_is ty "document" then
        has_fields data document_fields
        && accepted (parse_date (get_or_None data "created_date"))
        && accepted (parse_date (get_or_None data "modified_date"))
        && accepted (parse_int (get_or_None data "current_page"))
        && accepted (parse_int (get_or_None data "file_size"))
        && accepted (parse_int (get_or_None data "total_page"))
      else true
  | None => false
  end.

(** The fields of a date are those of a calendar date. *)
Definition calendar_date (d : datetime) : Prop :=
  (1 <= dt_year d <= 9999 /\ 1 <= dt_month d <= 12 /\
   1 <= dt_day d <= Strptime.days_in_month (dt_year d) (dt_month d) /\
   0 <= dt_hour d <= 23 /\ 0 <= dt_minute d <= 59 /\
   0 <= dt_second d <= 59)%Z.

(** The values that a matcher hands to its continuation lie between [lo]
    and [hi]. *)
Definition yields (lo hi : Z) (m : Strptime.matcher Z) : Prop :=
  forall R (k : Z -> string -> option R) s r,
    m R k s = Some r ->
    exists v rest, (lo <= v <= hi)%Z /\ k v rest = Some r.

(** No node goes away, and the nodes that were there keep their class,
    their parent and their [entry_path]. *)
Definition keeps (st st' : RemoteTree) : Prop :=
  (length (heap st) <= length (heap st'))%nat /\
  forall a, (a < length (heap st))%nat ->
    ob_class <$> heap st' !! a = ob_class <$> heap st !! a /\
    parent_of (heap st') a = parent_of (heap st) a /\
    attr st' a "entry_path" = attr st a "entry_path".

(* ===================================================================== *)
(** ** The calling state of a fresh instance *)
(* ===================================================================== *)

(** C3 (as amended).  On an instance on which [rebuild_tree] has never run,
    [_tree] and [_resolver] are still [None]: [get_node_by_path] raises
    [AttributeError] for every path and leaves the instance as it was; it
    does not return the not-found outcome. *)
Theorem get_node_by_path_before_rebuild (path : string) :
  get_node_by_path path RemoteTree_init = (Raise AttributeError, RemoteTree_init).
Proof. reflexivity. Qed.

(** C3 as stated fails: the lookup of ["Document"] on a fresh instance is
    not the not-found outcome. *)
Lemma get_node_by_path_before_rebuild_not_None :
  fst (get_node_by_path "Document" RemoteTree_init) <> Ok None.
Proof. vm_compute. discriminate. Qed.

(* ===================================================================== *)
(** ** Running the methods *)
(* ===================================================================== *)

Lemma bind_Ok {A B} (m : M A) (k : A -> M B) st a st' :
  m st = (Ok a, st') -> bind m k st = k a st'.
Proof. unfold bind. intros ->. reflexivity. Qed.

Lemma alter_last {A} (f : A -> A) (h : list A) (o : A) :
  alter f (length h) (h ++ [o]) = h ++ [f o].
Proof. induction h as [|x h IH]; simpl; [reflexivity | f_equal; exact IH]. Qed.

Lemma lookup_last {A} (h : list A) (o : A) : (h ++ [o]) !! length h = Some o.
Proof. induction h as [|x h IH]; simpl; [reflexivity | exact IH]. Qed.

Lemma getattr_last h o name :
  getattr (h ++ [o]) (length h) name = default VNone (ob_dict o !! name).
Proof. unfold getattr. rewrite lookup_last. reflexivity. Qed.

Lemma parent_of_last h o : parent_of (h ++ [o]) (length h) = ob_parent o.
Proof. unfold parent_of. rewrite lookup_last. reflexivity. Qed.

Lemma new_run c st :
  new c st = (Ok (length (heap st)),
              mk_RemoteTree (heap st ++ [mk_obj c None ∅]) (_tree st) (_resolver st)).
Proof. reflexivity. Qed.

Lemma setattr_last h o tr rs name v :
  setattr (length h) name v (mk_RemoteTree (h ++ [o]) tr rs)
  = (Ok tt, mk_RemoteTree (h ++ [set_attr_obj name v o]) tr rs).
Proof. unfold setattr, update_heap. simpl. rewrite alter_last. reflexivity. Qed.

Lemma set_parent_last h o tr rs p :
  set_parent (length h) p (mk_RemoteTree (h ++ [o]) tr rs)
  = (Ok tt, mk_RemoteTree (h ++ [set_parent_obj p o]) tr rs).
Proof. unfold set_parent, update_heap. simpl. rewrite alter_last. reflexivity. Qed.

(** The two parsers do not touch the state. *)
Lemma todatetime_run x st :
  todatetime x st =
  match x with
  | Some s => match Strptime.strptime s with
              | Some d => (Ok (VDate d), st)
              | None => (Raise ValueError, st)
              end
  | None => (Ok VNone, st)
  end.
Proof. destruct x as [s|]; simpl; [destruct (Strptime.strptime s)|]; reflexivity. Qed.

Lemma int_or_None_run x st :
  int_or_None x st =
  match x with
  | Some s => match PyStr.int s with
              | Some z => (Ok (VInt z), st)
              | None => (Raise ValueError, st)
              end
  | None => (Ok VNone, st)
  end.
Proof. destruct x as [s|]; simpl; [destruct (PyStr.int s)|]; reflexivity. Qed.

(** One step of a constructor on the node it has just allocated. *)
Ltac init_step :=
  first
    [ erewrite bind_Ok by (first [apply setattr_last | apply set_parent_last | apply new_run])
    | rewrite setattr_last ].

(* ===================================================================== *)
(** ** The text of an integer *)
(* ===================================================================== *)

Lemma all_space_numeric s : PyStr.all_space s = true -> all_numeric s = true.
Proof.
  induction s as [|c r IH]; simpl; [reflexivity|].
  intros [Hc Hr]%andb_true_iff. unfold numeric_char. rewrite Hc, IH by exact Hr.
  rewrite orb_true_r. reflexivity.
Qed.

Lemma scan_digits_numeric r acc b n rest :
  PyStr.scan_digits r acc b = Some (n, rest) ->
  PyStr.all_space rest = true -> all_numeric r = true.
Proof.
  revert acc b. induction r as [|c r IH]; intros acc b; simpl; [reflexivity|].
  unfold numeric_char.
  destruct (PyStr.is_digit c) eqn:Hd; simpl.
  - intros H Hs. exact (IH _ _ H Hs).
  - destruct (Ascii.eqb c "_") eqn:Hu.
    + destruct b; [discriminate|]. intros H Hs.
      rewrite (IH _ _ H Hs). rewrite !orb_true_r. reflexivity.
    + destruct b; [discriminate|]. intros [= <- <-] Hs.
      simpl in Hs. apply andb_true_iff in Hs as [Hc Hr].
      rewrite Hc. simpl. apply all_space_numeric. exact Hr.
Qed.

Lemma lstrip_numeric s : all_numeric (PyStr.lstrip s) = true -> all_numeric s = true.
Proof.
  induction s as [|c r IH]; simpl; [reflexivity|].
  destruct (PyStr.is_space c) eqn:Hc.
  - intros H. unfold numeric_char. rewrite Hc, IH by exact H.
    rewrite orb_true_r. reflexivity.
  - simpl. tauto.
Qed.

Lemma lstrip_has_digit s : has_digit (PyStr.lstrip s) = true -> has_digit s = true.
Proof.
  induction s as [|c r IH]; simpl; [discriminate|].
  destruct (PyStr.is_space c) eqn:Hc.
  - intros H. rewrite IH by exact H. apply orb_true_r.
  - simpl. tauto.
Qed.

Lemma int_digits_numeric neg s z :
  PyStr.int_digits neg s = Some z -> has_digit s = true /\ all_numeric s = true.
Proof.
  destruct s as [|c r]; [discriminate|]. unfold PyStr.int_digits.
  destruct (PyStr.is_digit c) eqn:Hd; [|discriminate].
  destruct (PyStr.scan_digits r (PyStr.digit_val c) false) as [[n rest]|] eqn:Hs;
    [|discriminate].
  destruct (PyStr.all_space rest) eqn:Hr;
    [|rewrite andb_false_r; discriminate]. intros _.
  simpl. unfold numeric_char. rewrite Hd. simpl. split; [reflexivity|].
  exact (scan_digits_numeric _ _ _ _ _ Hs Hr).
Qed.

Lemma split_sign_numeric s :
  has_digit (snd (PyStr.split_sign s)) = true ->
  all_numeric (snd (PyStr.split_sign s)) = true ->
  has_digit s = true /\ all_numeric s = true.
Proof.
  destruct s as [|c r]; [simpl; tauto|].
  destruct (Ascii.ascii_dec c "+") as [->|Hp];
    [|destruct (Ascii.ascii_dec c "-") as [->|Hm]].
  - simpl. tauto.
  - simpl. tauto.
  - replace (PyStr.split_sign (String c r)) with (false, String c r); [tauto|].
    destruct c as [[] [] [] [] [] [] [] []]; try reflexivity;
      exfalso; first [apply Hp; reflexivity | apply Hm; reflexivity].
Qed.

(** [int] accepts only texts made of numeric characters, with a digit. *)
Lemma int_Some_numeric s z :
  PyStr.int s = Some z -> has_digit s = true /\ all_numeric s = true.
Proof.
  unfold PyStr.int. intros H.
  destruct (PyStr.split_sign (PyStr.lstrip s)) as [neg digits] eqn:Hsg.
  apply int_digits_numeric in H as [H1 H2].
  destruct (split_sign_numeric (PyStr.lstrip s)) as [H3 H4];
    [rewrite Hsg; exact H1 | rewrite Hsg; exact H2 |].
  split; [apply lstrip_has_digit | apply lstrip_numeric]; assumption.
Qed.

(** What follows a digit ([b] false) or an underscore ([b] true) in the
    digits of an integer. *)
Lemma scan_digits_run r :
  forall acc b n rest,
    PyStr.scan_digits r acc b = Some (n, rest) ->
    exists t, r = t +:+ rest /\
      (if b then digit_run t
       else t = "" \/ digit_run t \/ exists t', t = String "_" t' /\ digit_run t').
Proof.
  induction r as [|c r IH]; intros acc b n rest; simpl.
  - destruct b; [discriminate|]. intros [= <- <-]. exists "". auto.
  - destruct (PyStr.is_digit c) eqn:Hd.
    + intros H. destruct (IH _ _ _ _ H) as (t & -> & Ht).
      exists (String c t). split; [reflexivity|].
      assert (Hrun : digit_run (String c t)).
      { destruct Ht as [-> | [Ht | (t' & -> & Ht)]];
          [apply run_last | apply run_next | apply run_under]; assumption. }
      destruct b; auto.
    + destruct (Ascii.eqb_spec c "_") as [->|Hne].
      * destruct b; [discriminate|]. intros H.
        destruct (IH _ _ _ _ H) as (t & -> & Ht).
        exists (String "_" t). split; [reflexivity|]. right. right. eauto.
      * destruct b; [discriminate|]. intros [= <- <-]. exists "". auto.
Qed.

Lemma lstrip_split s :
  exists pre, s = pre +:+ PyStr.lstrip s /\ PyStr.all_space pre = true.
Proof.
  induction s as [|c r (pre & E & Hpre)]; [exists ""; auto|]. simpl.
  destruct (PyStr.is_space c) eqn:Hc.
  - exists (String c pre). split.
    + change (String c r = String c (pre +:+ PyStr.lstrip r)). rewrite <- E. reflexivity.
    + simpl. rewrite Hc, Hpre. reflexivity.
  - exists "". auto.
Qed.

Lemma split_sign_split s :
  exists sign, s = sign +:+ snd (PyStr.split_sign s) /\
               (sign = "" \/ sign = "+" \/ sign = "-").
Proof.
  destruct s as [|c r]; [exists ""; auto|].
  destruct (Ascii.ascii_dec c "+") as [->|Hp];
    [|destruct (Ascii.ascii_dec c "-") as [->|Hm]].
  - exists "+". auto.
  - exists "-". auto.
  - exists "". split; [|auto].
    replace (PyStr.split_sign (String c r)) with (false, String c r); [reflexivity|].
    destruct c as [[] [] [] [] [] [] [] []]; try reflexivity;
      exfalso; first [apply Hp; reflexivity | apply Hm; reflexivity].
Qed.

(** [int] accepts only the texts of integers. *)
Lemma int_Some_text s z : PyStr.int s = Some z -> integer_text s.
Proof.
  unfold PyStr.int. intros H.
  destruct (lstrip_split s) as (pre & Es & Hpre).
  destruct (split_sign_split (PyStr.lstrip s)) as (sign & El & Hsign).
  destruct (PyStr.split_sign (PyStr.lstrip s)) as [neg digits]. simpl in El.
  destruct digits as [|c r]; [discriminate|]. unfold PyStr.int_digits in H.
  destruct (PyStr.is_digit c) eqn:Hd; [|discriminate].
  destruct (PyStr.scan_digits r (PyStr.digit_val c) false) as [[n rest]|] eqn:Hs;
    [|discriminate].
  destruct (PyStr.all_space rest) eqn:Hr;
    [|rewrite andb_false_r in H; discriminate].
  destruct (scan_digits_run _ _ _ _ _ Hs) as (t & -> & Ht).
  exists pre, sign, (String c t), rest.
  split; [rewrite Es at 1; rewrite El; reflexivity|].
  split; [exact Hpre|]. split; [exact Hsign|]. split; [|exact Hr].
  destruct Ht as [-> | [Ht | (t' & -> & Ht)]];
    [apply run_last | apply run_next | apply run_under]; assumption.
Qed.

Lemma int_not_text s : ~ integer_text s -> PyStr.int s = None.
Proof.
  intros H. destruct (PyStr.int s) as [z|] eqn:E; [|reflexivity].
  exfalso. exact (H (int_Some_text s z E)).
Qed.

Lemma int_non_numeric s : non_numeric s = true -> PyStr.int s = None.
Proof.
  unfold non_numeric. intros H.
  destruct (PyStr.int s) as [z|] eqn:Hi; [|reflexivity].
  apply int_Some_numeric in Hi as [H1 H2]. rewrite H1, H2 in H. discriminate.
Qed.

(* ===================================================================== *)
(** ** The constructors, on the node they allocate *)
(* ===================================================================== *)

Lemma todatetime_parse x st :
  todatetime x st =
  match parse_date x with
  | Some v => (Ok v, st)
  | None => (Raise ValueError, st)
  end.
Proof.
  destruct x as [s|]; simpl; [|reflexivity].
  destruct (Strptime.strptime s); reflexivity.
Qed.

Lemma int_or_None_parse x st :
  int_or_None x st =
  match parse_int x with
  | Some v => (Ok v, st)
  | None => (Raise ValueError, st)
  end.
Proof.
  destruct x as [s|]; simpl; [|reflexivity].
  destruct (PyStr.int s); reflexivity.
Qed.

Lemma date_ok_parse x : date_ok x -> exists v, parse_date x = Some v.
Proof.
  intros H. destruct x as [s|]; simpl; [|eauto].
  destruct (Strptime.strptime s) eqn:E; [eauto|]. exfalso. exact (H s eq_refl E).
Qed.

Lemma int_ok_parse x : int_ok x -> exists v, parse_int x = Some v.
Proof.
  intros H. destruct x as [s|]; simpl; [|eauto].
  destruct (PyStr.int s) eqn:E; [eauto|]. exfalso. exact (H s eq_refl E).
Qed.

Lemma DPNode_init_last h o tr rs parent entry_path entry_name entry_type
    entry_id created_date is_new :
  DPNode_init (length h) parent entry_path entry_name entry_type entry_id
    created_date is_new (mk_RemoteTree (h ++ [o]) tr rs)
  = let o1 := base_obj parent entry_path entry_name entry_type entry_id o in
    match parse_date created_date with
    | Some d =>
        (Ok tt, mk_RemoteTree
                  (h ++ [set_attr_obj "is_new" (is_new_value is_new)
                           (set_attr_obj "created_date" d o1)]) tr rs)
    | None => (Raise ValueError, mk_RemoteTree (h ++ [o1]) tr rs)
    end.
Proof.
  unfold DPNode_init. repeat init_step.
  unfold bind at 1. rewrite todatetime_parse.
  destruct (parse_date created_date) as [d|]; [|reflexivity].
  init_step. destruct is_new; apply setattr_last.
Qed.

Lemma DPFolderNode_init_last h o tr rs parent entry_path entry_name entry_type
    entry_id created_date is_new document_source parent_folder_id :
  DPFolderNode_init (length h) parent entry_path entry_name entry_type
    entry_id created_date is_new document_source parent_folder_id
    (mk_RemoteTree (h ++ [o]) tr rs)
  = let o1 := base_obj parent entry_path entry_name entry_type entry_id o in
    match parse_date created_date with
    | Some d =>
        (Ok tt, mk_RemoteTree
                  (h ++ [set_attr_obj "parent_folder_id" parent_folder_id
                           (set_attr_obj "document_source" document_source
                              (set_attr_obj "is_new" (is_new_value is_new)
                                 (set_attr_obj "created_date" d o1)))]) tr rs)
    | None => (Raise ValueError, mk_RemoteTree (h ++ [o1]) tr rs)
    end.
Proof.
  unfold DPFolderNode_init. unfold bind at 1. rewrite DPNode_init_last.
  cbv zeta. destruct (parse_date created_date) as [d|]; [|reflexivity].
  init_step. apply setattr_last.
Qed.

(** The attributes of a document that are set before [modified_date] is
    parsed. *)
Lemma DPDocumentNode_init_last h o tr rs parent entry_path entry_name
    entry_type entry_id created_date is_new author current_page document_type
    file_revision file_size mime_type modified_date title total_page :
  DPDocumentNode_init (length h) parent entry_path entry_name entry_type
    entry_id created_date is_new author current_page document_type
    file_revision file_size mime_type modified_date title total_page
    (mk_RemoteTree (h ++ [o]) tr rs)
  = let o1 := base_obj parent entry_path entry_name entry_type entry_id o in
    match parse_date created_date with
    | None => (Raise ValueError, mk_RemoteTree (h ++ [o1]) tr rs)
    | Some d =>
      let o2 := set_attr_obj "mime_type" mime_type
                  (set_attr_obj "file_revision" file_revision
                     (set_attr_obj "document_type" document_type
                        (set_attr_obj "author" author
                           (set_attr_obj "is_new" (is_new_value is_new)
                              (set_attr_obj "created_date" d o1))))) in
      match parse_date modified_date with
      | None => (Raise ValueError, mk_RemoteTree (h ++ [o2]) tr rs)
      | Some m =>
        let o3 := set_attr_obj "title" title
                    (set_attr_obj "modified_date" m o2) in
        match parse_int current_page with
        | None => (Raise ValueError, mk_RemoteTree (h ++ [o3]) tr rs)
        | Some cp =>
          let o4 := set_attr_obj "current_page" cp o3 in
          match parse_int file_size with
          | None => (Raise ValueError, mk_RemoteTree (h ++ [o4]) tr rs)
          | Some fs =>
            let o5 := set_attr_obj "file_size" fs o4 in
            match parse_int total_page with
            | None => (Raise ValueError, mk_RemoteTree (h ++ [o5]) tr rs)
            | Some tp =>
                (Ok tt, mk_RemoteTree
                          (h ++ [set_attr_obj "total_page" tp o5]) tr rs)
            end
          end
        end
      end
    end.
Proof.
  unfold DPDocumentNode_init. unfold bind at 1. rewrite DPNode_init_last.
  cbv zeta. destruct (parse_date created_date) as [d|]; [|reflexivity].
  repeat init_step.
  unfold bind at 1. rewrite todatetime_parse.
  destruct (parse_date modified_date) as [m|]; [|reflexivity].
  repeat init_step.
  unfold bind at 1. rewrite int_or_None_parse.
  destruct (parse_int current_page) as [cp|]; [|reflexivity].
  init_step.
  unfold bind at 1. rewrite int_or_None_parse.
  destruct (parse_int file_size) as [fs|]; [|reflexivity].
  init_step.
  unfold bind at 1. rewrite int_or_None_parse.
  destruct (parse_int total_page) as [tp|]; [|reflexivity].
  apply setattr_last.
Qed.

Lemma lookup_set_attr_eq name v o : ob_dict (set_attr_obj name v o) !! name = Some v.
Proof. simpl. apply lookup_insert_eq. Qed.

Lemma lookup_set_attr_ne name name' v o :
  name <> name' -> ob_dict (set_attr_obj name v o) !! name' = ob_dict o !! name'.
Proof. intros H. simpl. apply lookup_insert_ne. exact H. Qed.

(** Read an attribute of an object built by a chain of assignments. *)
Ltac read_attr :=
  repeat first
    [ rewrite lookup_set_attr_eq
    | rewrite lookup_set_attr_ne by discriminate ].

Lemma DPDocumentNode_new_run st parent entry_path entry_name entry_type
    entry_id created_date is_new author current_page document_type
    file_revision file_size mime_type modified_date title total_page :
  DPDocumentNode_new parent entry_path entry_name entry_type entry_id
    created_date is_new author current_page document_type file_revision
    file_size mime_type modified_date title total_page st
  = match DPDocumentNode_init (length (heap st)) parent entry_path entry_name
            entry_type entry_id created_date is_new author current_page
            document_type file_revision file_size mime_type modified_date
            title total_page
            (mk_RemoteTree (heap st ++ [mk_obj DPDocumentNode None ∅])
               (_tree st) (_resolver st)) with
    | (Ok _, st') => (Ok (length (heap st)), st')
    | (Raise e, st') => (Raise e, st')
    end.
Proof.
  unfold DPDocumentNode_new. erewrite bind_Ok by apply new_run.
  unfold bind, ret. destruct (DPDocumentNode_init _ _ _ _ _ _ _ _ _ _ _ _ _ _ _ _ _ _) as [[u|e] st'];
    reflexivity.
Qed.

Lemma DPFolderNode_new_run st parent entry_path entry_name entry_type
    entry_id created_date is_new document_source parent_folder_id :
  DPFolderNode_new parent entry_path entry_name entry_type entry_id
    created_date is_new document_source parent_folder_id st
  = match DPFolderNode_init (length (heap st)) parent entry_path entry_name
            entry_type entry_id created_date is_new document_source
            parent_folder_id
            (mk_RemoteTree (heap st ++ [mk_obj DPFolderNode None ∅])
               (_tree st) (_resolver st)) with
    | (Ok _, st') => (Ok (length (heap st)), st')
    | (Raise e, st') => (Raise e, st')
    end.
Proof.
  unfold DPFolderNode_new. erewrite bind_Ok by apply new_run.
  unfold bind, ret. destruct (DPFolderNode_init _ _ _ _ _ _ _ _ _ _ _) as [[u|e] st'];
    reflexivity.
Qed.

Lemma parse_int_not_text s : PyStr.int s = None -> parse_int (Some s) = None.
Proof. intros H. simpl. rewrite H. reflexivity. Qed.

(* ===================================================================== *)
(** ** The numeric fields of a document *)
(* ===================================================================== *)

(** C8.  A document built with [current_page "1"], [file_size "19093553"]
    and [total_page "436"] carries the integers 1, 19093553 and 436; an
    absent value of one of the three fields leaves the field absent
    ([None], not zero); a present ASCII text that is not the text of an
    integer (in particular one without a digit, or with a character that
    no integer has) makes the constructor raise [ValueError].  Beyond
    ASCII [int] also reads the white space and the decimal digits of
    Unicode, of which nothing is said here. *)
Theorem document_numeric_fields
    (st : RemoteTree) (parent : option nat)
    (entry_path entry_name entry_type entry_id : value)
    (created_date : option string)
    (is_new author document_type file_revision mime_type : value)
    (modified_date : option string) (title : value) :
  date_ok created_date -> date_ok modified_date ->
  let self := length (heap st) in
  let build := fun cur size total =>
    DPDocumentNode_new parent entry_path entry_name entry_type entry_id
      created_date is_new author cur document_type file_revision size
      mime_type modified_date title total st in
  (let r := build (Some "1") (Some "19093553") (Some "436") in
   fst r = Ok self /\
   attr (snd r) self "current_page" = VInt 1 /\
   attr (snd r) self "file_size" = VInt 19093553 /\
   attr (snd r) self "total_page" = VInt 436) /\
  (forall cur size total, int_ok cur -> int_ok size -> int_ok total ->
     let r := build cur size total in
     fst r = Ok self /\
     (cur = None -> attr (snd r) self "current_page" = VNone) /\
     (size = None -> attr (snd r) self "file_size" = VNone) /\
     (total = None -> attr (snd r) self "total_page" = VNone)) /\
  (forall cur size total s,
     cur = Some s \/ size = Some s \/ total = Some s ->
     ascii_text s = true ->
     ~ integer_text s \/ non_numeric s = true ->
     fst (build cur size total) = Raise ValueError).
Proof.
  intros Hc Hm self build.
  destruct (date_ok_parse _ Hc) as [dc Edc].
  destruct (date_ok_parse _ Hm) as [dm Edm].
  assert (Hok : forall cur size total vc vs vt,
    parse_int cur = Some vc -> parse_int size = Some vs ->
    parse_int total = Some vt ->
    fst (build cur size total) = Ok self /\
    attr (snd (build cur size total)) self "current_page" = vc /\
    attr (snd (build cur size total)) self "file_size" = vs /\
    attr (snd (build cur size total)) self "total_page" = vt).
  { intros cur size total vc vs vt E1 E2 E3. unfold build.
    rewrite DPDocumentNode_new_run, DPDocumentNode_init_last.
    cbv zeta. rewrite Edc, Edm, E1, E2, E3. simpl fst. simpl snd.
    unfold attr, self. simpl heap.
    rewrite !getattr_last. read_attr. auto. }
  split; [|split].
  - cbv zeta. apply Hok; reflexivity.
  - intros cur size total H1 H2 H3.
    destruct (int_ok_parse _ H1) as [vc E1].
    destruct (int_ok_parse _ H2) as [vs E2].
    destruct (int_ok_parse _ H3) as [vt E3].
    destruct (Hok _ _ _ _ _ _ E1 E2 E3) as (R0 & R1 & R2 & R3).
    cbv zeta. split; [exact R0|].
    repeat split; intros ->; simpl in *; congruence.
  - intros cur size total s Hs _ Hn. unfold build.
    rewrite DPDocumentNode_new_run, DPDocumentNode_init_last.
    cbv zeta. rewrite Edc, Edm.
    assert (En : parse_int (Some s) = None).
    { apply parse_int_not_text.
      destruct Hn as [Hn|Hn]; [apply int_not_text | apply int_non_numeric]; exact Hn. }
    destruct Hs as [-> | [-> | ->]].
    + rewrite En. reflexivity.
    + destruct (parse_int cur); [|reflexivity]. rewrite En. reflexivity.
    + destruct (parse_int cur); [|reflexivity].
      destruct (parse_int size); [|reflexivity]. rewrite En. reflexivity.
Qed.

Lemma date_ok_sample : date_ok (Some "2017-12-14T13:55:00Z").
Proof. intros s [= <-]. vm_compute. discriminate. Defined.

Lemma document_numeric_fields_witness :
  date_ok (Some "2017-12-14T13:55:00Z") /\
  let r := DPDocumentNode_new None (VStr "Document/book.pdf") (VStr "book.pdf")
             (VStr "document") (VStr "f1d09cac") (Some "2017-12-14T13:55:00Z")
             (VStr "true") (VStr "lsr") (Some "1") (VStr "normal")
             (VStr "05873ef2024a.1.0") (Some "19093553")
             (VStr "application/pdf") (Some "2017-12-14T13:55:00Z")
             (VStr "Print") (Some "436") RemoteTree_init in
  fst r = Ok 0 /\
  attr (snd r) 0 "current_page" = VInt 1 /\
  attr (snd r) 0 "file_size" = VInt 19093553 /\
  attr (snd r) 0 "total_page" = VInt 436.
Proof.
  split; [exact date_ok_sample|].
  exact (proj1 (document_numeric_fields RemoteTree_init None
    (VStr "Document/book.pdf") (VStr "book.pdf") (VStr "document")
    (VStr "f1d09cac") (Some "2017-12-14T13:55:00Z") (VStr "true") (VStr "lsr")
    (VStr "normal") (VStr "05873ef2024a.1.0") (VStr "application/pdf")
    (Some "2017-12-14T13:55:00Z") (VStr "Print")
    date_ok_sample date_ok_sample)).
Defined.

(* ===================================================================== *)
(** ** Lookups do not change the state *)
(* ===================================================================== *)

Lemma Resolver__get_state r n name st : snd (Resolver__get r n name st) = st.
Proof. unfold Resolver__get. destruct (List.find _ _); reflexivity. Qed.

Lemma Resolver_walk_state r parts :
  forall node st, snd (Resolver_walk r node parts st) = st.
Proof.
  induction parts as [|part rest IH]; intros node st; simpl; [reflexivity|].
  destruct (String.eqb part "..").
  { destruct (parent_of (heap st) node); [apply IH | reflexivity]. }
  destruct (String.eqb part "" || String.eqb part "."); [apply IH|].
  unfold bind. pose proof (Resolver__get_state r node part st) as Hg.
  destruct (Resolver__get r node part st) as [[c|e] st']; simpl in Hg; subst st'.
  - apply IH.
  - reflexivity.
Qed.

Lemma Resolver__start_state r n path st : snd (Resolver__start r n path st) = st.
Proof.
  unfold Resolver__start. destruct (PyStr.startswith "/" path); [|reflexivity].
  destruct (tail _) as [|p0 parts']; [reflexivity|].
  destruct (String.eqb p0 ""); [reflexivity|].
  destruct (negb _); reflexivity.
Qed.

Lemma Resolver_get_state r n path st : snd (Resolver_get r n path st) = st.
Proof.
  unfold Resolver_get, bind.
  pose proof (Resolver__start_state r n path st) as Hs.
  destruct (Resolver__start r n path st) as [[np|e] st']; simpl in Hs; subst st'.
  - apply Resolver_walk_state.
  - reflexivity.
Qed.

Lemma get_node_by_path_state path st : snd (get_node_by_path path st) = st.
Proof.
  unfold get_node_by_path, except_ChildResolverError, bind, read_resolver,
    read_tree, read_root.
  destruct (_resolver st) as [r|]; simpl; [|reflexivity].
  destruct (_tree st) as [t|]; simpl; [|reflexivity].
  pose proof (Resolver_get_state r (root_of (heap st) t) ("/" +:+ path) st) as Hg.
  destruct (Resolver_get r _ _ st) as [[o|[]] st']; simpl in Hg; subst st';
    reflexivity.
Qed.

Lemma get_node_by_path_lookup path st :
  get_node_by_path path st = (lookup st path, st).
Proof.
  unfold lookup. rewrite <- (get_node_by_path_state path st) at 3.
  destruct (get_node_by_path path st); reflexivity.
Qed.

(* ===================================================================== *)
(** ** What every method keeps *)
(* ===================================================================== *)

Section Preserves.
Variable R : RemoteTree -> RemoteTree -> Prop.
Hypothesis R_refl : forall st, R st st.
Hypothesis R_trans : forall a b c, R a b -> R b c -> R a c.

Lemma preserves_ret {A} (a : A) : preserves R (ret a).
Proof. intros st. apply R_refl. Qed.

Lemma preserves_raise {A} e : preserves R (@raise A e).
Proof. intros st. apply R_refl. Qed.

Lemma preserves_bind {A B} (m : M A) (k : A -> M B) :
  preserves R m -> (forall a, preserves R (k a)) -> preserves R (bind m k).
Proof.
  intros Hm Hk st. unfold bind. specialize (Hm st).
  destruct (m st) as [[a|e] st']; simpl in *.
  - eapply R_trans; [exact Hm | apply Hk].
  - exact Hm.
Qed.

Lemma preserves_lift_option {A} e (o : option A) : preserves R (lift_option e o).
Proof. destruct o; [apply preserves_ret | apply preserves_raise]. Qed.

Lemma preserves_item data key : preserves R (item data key).
Proof. apply preserves_lift_option. Qed.

Lemma preserves_todatetime x : preserves R (todatetime x).
Proof. intros st. rewrite todatetime_run. destruct x as [s|]; [destruct (Strptime.strptime s)|]; apply R_refl. Qed.

Lemma preserves_int_or_None x : preserves R (int_or_None x).
Proof. intros st. rewrite int_or_None_run. destruct x as [s|]; [destruct (PyStr.int s)|]; apply R_refl. Qed.

Lemma preserves_get_node_by_path path : preserves R (get_node_by_path path).
Proof. intros st. rewrite get_node_by_path_state. apply R_refl. Qed.

Hypothesis R_new : forall c, preserves R (new c).
Hypothesis R_update : forall (f : obj -> obj) a, preserves R (update_heap (alter f a)).

Ltac frame :=
  repeat first
    [ apply preserves_ret | apply preserves_raise | apply preserves_item
    | apply preserves_lift_option
    | apply preserves_todatetime | apply preserves_int_or_None
    | apply preserves_get_node_by_path | apply R_new | apply R_update
    | match goal with
      | |- preserves _ (bind _ _) => apply preserves_bind; [|intros]
      | |- preserves _ (match ?x with _ => _ end) => destruct x
      end ].

Lemma preserves_DPNode_init self parent p n ty id created is_new :
  preserves R (DPNode_init self parent p n ty id created is_new).
Proof. unfold DPNode_init. frame. Qed.

Lemma preserves_DPFolderNode_new parent p n ty id created is_new src pfid :
  preserves R (DPFolderNode_new parent p n ty id created is_new src pfid).
Proof.
  unfold DPFolderNode_new, DPFolderNode_init. frame.
  apply preserves_DPNode_init.
Qed.

Lemma preserves_DPDocumentNode_new parent p n ty id created is_new
    author cur dtype rev size mime modified title total :
  preserves R (DPDocumentNode_new parent p n ty id created is_new
                 author cur dtype rev size mime modified title total).
Proof.
  unfold DPDocumentNode_new, DPDocumentNode_init. frame.
  apply preserves_DPNode_init.
Qed.

Lemma preserves__create_path_loop ds :
  forall lastpath, preserves R (_create_path_loop lastpath ds).
Proof.
  induction ds as [|d ds IH]; intros lastpath; simpl; frame.
  - apply preserves_DPFolderNode_new.
  - apply IH.
Qed.

Lemma preserves__create_path path : preserves R (_create_path path).
Proof. unfold _create_path. frame. apply preserves__create_path_loop. Qed.

Lemma preserves_update_node node data : preserves R (update_node node data).
Proof. unfold update_node. frame. Qed.

Lemma preserves_create_folder parent data : preserves R (create_folder parent data).
Proof. unfold create_folder. frame. apply preserves_DPFolderNode_new. Qed.

Lemma preserves_create_document parent data :
  preserves R (create_document parent data).
Proof. unfold create_document. frame. apply preserves_DPDocumentNode_new. Qed.

Lemma preserves__create_update_node data : preserves R (_create_update_node data).
Proof.
  unfold _create_update_node. frame.
  - apply preserves_update_node.
  - apply preserves_create_folder.
  - apply preserves_create_document.
Qed.

Lemma preserves_process_record data : preserves R (process_record data).
Proof.
  unfold process_record. frame.
  - apply preserves__create_path.
  - apply preserves__create_update_node.
Qed.

Lemma preserves_rebuild_loop jsondata : preserves R (rebuild_loop jsondata).
Proof.
  induction jsondata as [|data rest IH]; simpl; frame.
  - apply preserves_process_record.
  - exact IH.
Qed.
End Preserves.

Lemma extends_refl st : extends st st.
Proof. unfold extends. auto. Qed.

Lemma extends_trans a b c : extends a b -> extends b c -> extends a c.
Proof. unfold extends. intros (-> & -> & ?) (-> & -> & ?). repeat split; lia. Qed.

Lemma extends_new c : preserves extends (new c).
Proof.
  intros st. unfold extends. simpl. rewrite length_app. simpl.
  repeat split; lia.
Qed.

Lemma extends_update (f : obj -> obj) a : preserves extends (update_heap (alter f a)).
Proof.
  intros st. unfold extends. simpl. rewrite length_alter. repeat split; lia.
Qed.

Lemma process_record_extends data st : extends st (snd (process_record data st)).
Proof.
  apply (preserves_process_record extends extends_refl extends_trans
           extends_new extends_update).
Qed.

Lemma rebuild_loop_extends jsondata st : extends st (snd (rebuild_loop jsondata st)).
Proof.
  apply (preserves_rebuild_loop extends extends_refl extends_trans
           extends_new extends_update).
Qed.

(* ===================================================================== *)
(** ** The prologue and the loop of [rebuild_tree] *)
(* ===================================================================== *)

Lemma _create_tree_root_run st :
  _create_tree_root st
  = (Ok (length (heap st)),
     mk_RemoteTree (heap st ++ [root_obj]) (_tree st) (_resolver st)).
Proof.
  unfold _create_tree_root, DPNode_new. erewrite bind_Ok by apply new_run.
  unfold bind at 1. rewrite DPNode_init_last. reflexivity.
Qed.

Lemma rebuild_tree_start jsondata t :
  rebuild_tree jsondata t = rebuild_loop jsondata (fresh_tree (heap t)).
Proof.
  unfold rebuild_tree. erewrite bind_Ok by apply _create_tree_root_run.
  reflexivity.
Qed.

Lemma rebuild_loop_app l1 l2 st :
  rebuild_loop (l1 ++ l2) st
  = match rebuild_loop l1 st with
    | (Ok _, st') => rebuild_loop l2 st'
    | (Raise e, st') => (Raise e, st')
    end.
Proof.
  revert st. induction l1 as [|d l1 IH]; intros st; simpl; [reflexivity|].
  unfold bind. destruct (process_record d st) as [[u|e] st']; [apply IH | reflexivity].
Qed.

(* ===================================================================== *)
(** ** Children, and the nodes of earlier builds *)
(* ===================================================================== *)

Lemma children_from_app l1 l2 i a :
  children_from (l1 ++ l2) i a
  = children_from l1 i a ++ children_from l2 (i + length l1) a.
Proof.
  revert i. induction l1 as [|o l1 IH]; intros i; simpl.
  - rewrite Nat.add_0_r. reflexivity.
  - rewrite IH. replace (S i + length l1)%nat with (i + S (length l1))%nat by lia.
    destruct (decide (ob_parent o = Some a)); reflexivity.
Qed.

Lemma children_from_none l i a :
  (forall j o, l !! j = Some o -> ob_parent o <> Some a) ->
  children_from l i a = [].
Proof.
  revert i. induction l as [|o l IH]; intros i H; simpl; [reflexivity|].
  destruct (decide (ob_parent o = Some a)) as [E|_].
  - exfalso. exact (H 0%nat o eq_refl E).
  - apply IH. intros j o' Hj. exact (H (S j) o' Hj).
Qed.

Lemma closed_parent G j o p :
  closed G -> G !! j = Some o -> ob_parent o = Some p -> (p < length G)%nat.
Proof.
  intros HG Hj Hp. apply (HG j). unfold parent_of. rewrite Hj. exact Hp.
Qed.

(** No node of a closed heap is a child of a later address. *)
Lemma children_from_closed G i a :
  closed G -> (length G <= a)%nat -> children_from G i a = [].
Proof.
  intros HG Ha. apply children_from_none. intros j o Hj Hp.
  pose proof (closed_parent G j o a HG Hj Hp). lia.
Qed.

Lemma parent_of_app_l G L a :
  (a < length G)%nat -> parent_of (G ++ L) a = parent_of G a.
Proof. intros Ha. unfold parent_of. rewrite lookup_app_l by exact Ha. reflexivity. Qed.

Lemma reaches_closed G L fuel a :
  closed G -> (a < length G)%nat -> reaches (G ++ L) (length G) fuel a = false.
Proof.
  intros HG. revert a. induction fuel as [|fuel IH]; intros a Ha; simpl.
  - destruct (Nat.eqb_spec a (length G)); [lia | reflexivity].
  - destruct (Nat.eqb_spec a (length G)); [lia|].
    rewrite parent_of_app_l by exact Ha.
    destruct (parent_of G a) as [p|] eqn:Hp; [|reflexivity].
    apply IH. exact (HG a p Hp).
Qed.

Lemma reaches_closed_ge G L root fuel a :
  closed G -> (a < length G)%nat -> (length G <= root)%nat ->
  reaches (G ++ L) root fuel a = false.
Proof.
  intros HG. revert a. induction fuel as [|fuel IH]; intros a Ha Hr; simpl.
  - destruct (Nat.eqb_spec a root); [lia | reflexivity].
  - destruct (Nat.eqb_spec a root); [lia|].
    rewrite parent_of_app_l by exact Ha.
    destruct (parent_of G a) as [p|] eqn:Hp; [|reflexivity].
    apply IH; [exact (HG a p Hp) | exact Hr].
Qed.

Lemma root_of_no_parent h a : parent_of h a = None -> root_of h a = a.
Proof.
  intros H. unfold root_of. destruct (length h); simpl; [reflexivity|].
  rewrite H. reflexivity.
Qed.

Lemma filter_seq_none (f : nat -> bool) start len :
  (forall a, (start <= a < start + len)%nat -> f a = false) ->
  List.filter f (seq start len) = [].
Proof.
  revert start. induction len as [|len IH]; intros start H; simpl; [reflexivity|].
  rewrite H by lia. apply IH. intros a Ha. apply H. lia.
Qed.

(* ===================================================================== *)
(** ** Lookups in a tree that has only its root *)
(* ===================================================================== *)

Lemma split_nonempty sep s : PyStr.split sep s <> [].
Proof.
  destruct s as [|a s]; simpl; [discriminate|].
  destruct (Ascii.eqb a sep); [discriminate|].
  destruct (PyStr.split sep s); discriminate.
Qed.

Lemma Resolver_walk_skipped r node pre rest st :
  forallb skipped pre = true ->
  Resolver_walk r node (pre ++ rest) st = Resolver_walk r node rest st.
Proof.
  induction pre as [|s pre IH]; simpl; [reflexivity|].
  intros [Hs Hpre]%andb_true_iff.
  assert (String.eqb s ".." = false) as ->.
  { unfold skipped in Hs. apply orb_true_iff in Hs as [->%String.eqb_eq | ->%String.eqb_eq];
      reflexivity. }
  unfold skipped in Hs. rewrite Hs. apply IH. exact Hpre.
Qed.

Lemma proper_name_walk s :
  proper_name s = true ->
  String.eqb s ".." = false /\ (String.eqb s "" || String.eqb s ".") = false.
Proof.
  unfold proper_name. intros [[H1 H2]%andb_true_iff H3]%andb_true_iff.
  apply negb_true_iff in H1, H2, H3. rewrite H1, H2, H3. auto.
Qed.

Lemma get_node_by_path_run path st r t :
  _resolver st = Some r -> _tree st = Some t ->
  get_node_by_path path st
  = resolved (Resolver_get r (root_of (heap st) t) ("/" +:+ path)) st.
Proof.
  intros Hr Ht.
  unfold get_node_by_path, resolved, except_ChildResolverError, bind,
    read_resolver, read_tree, read_root.
  rewrite Hr. cbn [lift_option ret]. rewrite Ht. reflexivity.
Qed.

(** The outcome of a resolver call that ends where it started. *)
Lemma resolved_run (m : M nat) st :
  snd (m st) = st ->
  resolved m st
  = (match fst (m st) with
     | Ok a => Ok (Some a)
     | Raise ChildResolverError => Ok None
     | Raise e => Raise e
     end, st).
Proof.
  unfold resolved, except_ChildResolverError, bind.
  destruct (m st) as [[a|[]] st']; simpl; intros ->; reflexivity.
Qed.

Lemma resolved_raise e st :
  e <> ChildResolverError -> resolved (raise e) st = (Raise e, st).
Proof. destruct e; try reflexivity. contradiction. Qed.

(** An absolute path is resolved from the root, whose name is its first
    part. *)
Lemma Resolver_get_absolute r t path st first rest name :
  parent_of (heap st) t = None ->
  getattr (heap st) t (pathattr r) = VStr name ->
  PyStr.split "/" path = first :: rest ->
  Resolver_get r t ("/" +:+ path) st
  = if String.eqb first "" then (Raise ResolverError, st)
    else if String.eqb name first then Resolver_walk r t rest st
    else (Raise ResolverError, st).
Proof.
  intros Hp Hn Hsplit.
  unfold Resolver_get, bind, Resolver__start, _getattr.
  change (PyStr.startswith "/" ("/" +:+ path)) with true. cbv iota.
  change (PyStr.split "/" ("/" +:+ path)) with ("" :: PyStr.split "/" path).
  rewrite Hsplit. simpl tail.
  rewrite (root_of_no_parent _ _ Hp), Hn. simpl py_str.
  destruct (String.eqb first ""); [reflexivity|].
  destruct (String.eqb name first); reflexivity.
Qed.

(** The lookup of a path in the state that [rebuild_tree] starts from. *)
Lemma lookup_start G path first rest :
  PyStr.split "/" path = first :: rest ->
  get_node_by_path path (fresh_tree G)
  = if String.eqb first "Document" then
      resolved (Resolver_walk (mk_Resolver "entry_name") (length G) rest)
        (fresh_tree G)
    else (Raise ResolverError, fresh_tree G).
Proof.
  intros Hsplit.
  assert (Hp : parent_of (heap (fresh_tree G)) (length G) = None).
  { simpl. apply parent_of_last. }
  rewrite (get_node_by_path_run path _ (mk_Resolver "entry_name") (length G))
    by reflexivity.
  unfold resolved, except_ChildResolverError, bind.
  rewrite (root_of_no_parent _ _ Hp).
  rewrite (Resolver_get_absolute _ _ _ _ first rest "Document" Hp); [| |exact Hsplit].
  - rewrite (String.eqb_sym "Document" first).
    destruct (String.eqb_spec first "") as [->|Hne]; [reflexivity|].
    destruct (String.eqb first "Document"); reflexivity.
  - simpl. rewrite getattr_last. unfold root_obj, base_obj. read_attr. reflexivity.
Qed.

Lemma children_start G : closed G -> children (G ++ [root_obj]) (length G) = [].
Proof.
  intros HG. unfold children. rewrite children_from_app.
  rewrite children_from_closed by (auto; lia). reflexivity.
Qed.

Lemma walk_root_only G rest :
  closed G ->
  resolved (Resolver_walk (mk_Resolver "entry_name") (length G) rest)
    (fresh_tree G)
  = (match rest with
     | [] => Ok (Some (length G))
     | s :: post =>
         if proper_name s then Ok None
         else fst (resolved
                     (Resolver_walk (mk_Resolver "entry_name") (length G) rest)
                     (fresh_tree G))
     end, fresh_tree G).
Proof.
  intros HG. destruct rest as [|s post].
  - reflexivity.
  - destruct (proper_name s) eqn:Hs.
    + apply proper_name_walk in Hs as [H1 H2].
      unfold resolved, except_ChildResolverError, bind.
      simpl Resolver_walk. rewrite H1, H2.
      unfold bind, Resolver__get. simpl heap. rewrite (children_start G HG).
      reflexivity.
    + rewrite resolved_run by apply Resolver_walk_state. reflexivity.
Qed.

Lemma tree_nodes_start G :
  closed G -> tree_nodes (fresh_tree G) = [length G].
Proof.
  intros HG. unfold tree_nodes. simpl heap. rewrite length_app. simpl length.
  rewrite List.seq_app, List.filter_app. simpl seq.
  rewrite filter_seq_none.
  - simpl. unfold in_tree. simpl. rewrite length_app. simpl.
    replace (length G <? length G + 1)%nat with true
      by (symmetry; apply Nat.ltb_lt; lia).
    replace (length G + 1)%nat with (S (length G)) by lia.
    simpl. rewrite Nat.eqb_refl. reflexivity.
  - intros a Ha. unfold in_tree. simpl _tree. simpl heap. cbv iota beta.
    rewrite reaches_closed by (auto; lia). apply andb_false_r.
Qed.

(* ===================================================================== *)
(** ** The rebuild of an empty listing *)
(* ===================================================================== *)

(** C10 (as amended).  [rebuild_tree] of an empty listing returns and
    leaves a tree of exactly one node, the root, with [entry_id] ["root"],
    [entry_path] and [entry_name] ["Document"], [entry_type] ["folder"] and
    [is_new] false.  On that tree the lookup of ["Document"] is the root.
    For the other paths: a path whose first part is not ["Document"]
    raises [ResolverError]; a path ["Document/..."] whose further parts are
    all empty or ["."] is the root again; a path ["Document/..."] whose
    first further part that is not empty or ["."] is a name is not
    found. *)
Theorem rebuild_empty (t : RemoteTree) :
  closed (heap t) ->
  let root := length (heap t) in
  let t' := snd (rebuild_tree [] t) in
  fst (rebuild_tree [] t) = Ok tt /\
  tree_nodes t' = [root] /\
  attr t' root "entry_id" = VStr "root" /\
  attr t' root "entry_path" = VStr "Document" /\
  attr t' root "entry_name" = VStr "Document" /\
  attr t' root "entry_type" = VStr "folder" /\
  attr t' root "is_new" = VBool false /\
  lookup t' "Document" = Ok (Some root) /\
  (forall path first rest,
     PyStr.split "/" path = first :: rest ->
     (first <> "Document" -> lookup t' path = Raise ResolverError) /\
     (first = "Document" -> forallb skipped rest = true ->
      lookup t' path = Ok (Some root)) /\
     (first = "Document" ->
      forall pre s post, rest = pre ++ s :: post ->
        forallb skipped pre = true -> proper_name s = true ->
        lookup t' path = Ok None)).
Proof.
  intros HG root t'.
  assert (Et : rebuild_tree [] t = (Ok tt, fresh_tree (heap t))).
  { rewrite rebuild_tree_start. reflexivity. }
  unfold t'. rewrite Et. simpl fst. simpl snd.
  assert (Hattr : forall name,
    attr (fresh_tree (heap t)) root name = default VNone (ob_dict root_obj !! name)).
  { intros name. unfold attr, root. simpl heap. apply getattr_last. }
  assert (Hwalk : forall path pre rest,
    PyStr.split "/" path = "Document" :: pre ++ rest ->
    forallb skipped pre = true ->
    lookup (fresh_tree (heap t)) path
    = fst (resolved (Resolver_walk (mk_Resolver "entry_name") root rest)
             (fresh_tree (heap t)))).
  { intros path pre rest Hsplit Hpre. unfold lookup.
    rewrite (lookup_start _ _ _ _ Hsplit). simpl String.eqb. cbv iota.
    unfold resolved, except_ChildResolverError, bind.
    rewrite Resolver_walk_skipped by exact Hpre. reflexivity. }
  split; [reflexivity|].
  split; [apply tree_nodes_start; exact HG|].
  repeat (split; [rewrite Hattr; unfold root_obj, base_obj; read_attr; reflexivity|]).
  split.
  { rewrite (Hwalk "Document" [] []); reflexivity. }
  intros path first rest Hsplit. split; [|split].
  - intros Hne. unfold lookup. rewrite (lookup_start _ _ _ _ Hsplit).
    destruct (String.eqb_spec first "Document"); [contradiction | reflexivity].
  - intros -> Hrest. rewrite (Hwalk path rest []).
    + reflexivity.
    + rewrite app_nil_r. exact Hsplit.
    + exact Hrest.
  - intros -> pre s post -> Hpre Hs.
    rewrite (Hwalk path pre (s :: post) Hsplit Hpre).
    rewrite (walk_root_only _ _ HG). rewrite Hs. reflexivity.
Qed.

Lemma closed_nil : closed [].
Proof. intros a p H. discriminate H. Defined.

Lemma rebuild_empty_witness :
  closed (heap RemoteTree_init) /\
  tree_nodes (snd (rebuild_tree [] RemoteTree_init)) = [0%nat] /\
  lookup (snd (rebuild_tree [] RemoteTree_init)) "Document" = Ok (Some 0%nat).
Proof.
  split; [exact closed_nil|].
  pose proof (rebuild_empty RemoteTree_init closed_nil) as H.
  cbv zeta in H. destruct H as (_ & H1 & _ & _ & _ & _ & _ & H2 & _).
  split; [exact H1 | exact H2].
Defined.

(** C10 as stated fails: on the tree of an empty listing the lookup of
    ["Reader"] is not the not-found outcome (it raises [ResolverError]),
    and the lookup of ["Document/."] is the root. *)
Lemma rebuild_empty_other_paths :
  lookup (snd (rebuild_tree [] RemoteTree_init)) "Reader" = Raise ResolverError /\
  lookup (snd (rebuild_tree [] RemoteTree_init)) "Document/." = Ok (Some 0%nat).
Proof. split; vm_compute; reflexivity. Qed.

(* ===================================================================== *)
(** ** Placeholders *)
(* ===================================================================== *)

(** C1 (the code on a listing with missing folders).  For the single
    record [Document/A/B/C/doc.pdf], [rebuild_tree] returns.  The
    placeholder of [Document/A] is attached to the root with every field
    [None], also [entry_name]; the resolver looks nodes up by [entry_name],
    so the lookup of ["Document/A"] is not found.  The placeholders of
    [Document/A/B] and [Document/A/B/C] and the document are then built
    with parent [None]: they are not nodes of the tree. *)
Theorem placeholders_are_not_resolvable :
  let jsondata := [sample_document "Document/A/B/C/doc.pdf" "doc.pdf"] in
  let t := snd (rebuild_tree jsondata RemoteTree_init) in
  fst (rebuild_tree jsondata RemoteTree_init) = Ok tt /\
  length (heap t) = 5%nat /\
  (attr t 1 "entry_path" = VStr "Document/A" /\
   attr t 1 "entry_name" = VNone /\ attr t 1 "entry_type" = VNone /\
   attr t 1 "entry_id" = VNone /\ attr t 1 "created_date" = VNone /\
   attr t 1 "is_new" = VNone /\ attr t 1 "document_source" = VNone /\
   attr t 1 "parent_folder_id" = VNone /\
   parent_of (heap t) 1 = Some 0%nat /\ in_tree t 1 = true /\
   lookup t "Document/A" = Ok None) /\
  (attr t 2 "entry_path" = VStr "Document/A/B" /\
   parent_of (heap t) 2 = None /\ in_tree t 2 = false /\
   lookup t "Document/A/B" = Ok None) /\
  (attr t 3 "entry_path" = VStr "Document/A/B/C" /\
   parent_of (heap t) 3 = None /\ in_tree t 3 = false) /\
  (attr t 4 "entry_path" = VStr "Document/A/B/C/doc.pdf" /\
   parent_of (heap t) 4 = None /\ in_tree t 4 = false /\
   lookup t "Document/A/B/C/doc.pdf" = Ok None) /\
  tree_nodes t = [0%nat; 1%nat].
Proof. vm_compute. repeat split. Qed.

(** C4 (the code on a folder record that comes after its placeholder).
    The record [Document/A/doc.pdf] makes the placeholder of [Document/A]
    (node 1); the folder record of [Document/A] then does not find it, and
    a second node (node 3) is built at the same path: the placeholder
    keeps its empty fields, and the tree has two nodes with [entry_path]
    ["Document/A"]. *)
Theorem folder_record_after_placeholder :
  let first := [sample_document "Document/A/doc.pdf" "doc.pdf"] in
  let jsondata := first ++ [folder_record "Document/A" "A" (Some "false")] in
  let t1 := snd (rebuild_tree first RemoteTree_init) in
  let t2 := snd (rebuild_tree jsondata RemoteTree_init) in
  fst (rebuild_tree jsondata RemoteTree_init) = Ok tt /\
  length (heap t1) = 3%nat /\ length (heap t2) = 4%nat /\
  attr t1 1 "entry_path" = VStr "Document/A" /\ in_tree t1 1 = true /\
  attr t2 1 "entry_path" = VStr "Document/A" /\ in_tree t2 1 = true /\
  attr t2 1 "entry_name" = VNone /\ attr t2 1 "entry_id" = VNone /\
  attr t2 3 "entry_path" = VStr "Document/A" /\ in_tree t2 3 = true /\
  attr t2 3 "entry_name" = VStr "A" /\
  lookup t1 "Document/A" = Ok None /\
  lookup t2 "Document/A" = Ok (Some 3%nat).
Proof. vm_compute. repeat split. Qed.

(* ===================================================================== *)
(** ** The flag [is_new] *)
(* ===================================================================== *)

(** C9 (the code on the texts of the flag).  [bool] of a text is true for
    every text that is not empty: a node built from [is_new "false"]
    carries [True], as one built from ["true"] does, and one built from
    [null] carries [None].  A node updated in place carries [True] for
    ["false"] and [False] for [null]. *)
Theorem is_new_of_text :
  let build x :=
    snd (rebuild_tree [folder_record "Document/paper" "paper" x] RemoteTree_init) in
  let update x :=
    snd (rebuild_tree [folder_record "Document/paper" "paper" (Some "true");
                       folder_record "Document/paper" "paper" x]
           RemoteTree_init) in
  attr (build (Some "true")) 1 "is_new" = VBool true /\
  attr (build (Some "false")) 1 "is_new" = VBool true /\
  attr (build None) 1 "is_new" = VNone /\
  length (heap (update None)) = 2%nat /\
  attr (update (Some "true")) 1 "is_new" = VBool true /\
  attr (update (Some "false")) 1 "is_new" = VBool true /\
  attr (update None) 1 "is_new" = VBool false.
Proof. vm_compute. repeat split. Qed.

(* ===================================================================== *)
(** ** A rebuild that fails *)
(* ===================================================================== *)

(** The state that a failing record leaves is the state of the call. *)
Lemma rebuild_loop_fails pre bad post st e st1 st2 :
  rebuild_loop pre st = (Ok tt, st1) ->
  process_record bad st1 = (Raise e, st2) ->
  rebuild_loop (pre ++ bad :: post) st = (Raise e, st2).
Proof.
  intros H1 H2. rewrite rebuild_loop_app, H1. simpl.
  unfold bind. rewrite H2. reflexivity.
Qed.

(** C5 (as amended).  [rebuild_tree] is not all-or-nothing.  It replaces
    the root at once and applies the records in order; when a record
    fails, the call ends with that exception and the tree that lookups see
    is the new one as built so far: the new root, the nodes of the records
    before the failing one, and what the failing record attached before it
    raised.  The previous tree is no longer referenced. *)
Theorem rebuild_failure_publishes_partial_tree
    (pre post : list (gmap string (option string)))
    (bad : gmap string (option string)) (t t1 t2 : RemoteTree) (e : exn) :
  rebuild_tree pre t = (Ok tt, t1) ->
  process_record bad t1 = (Raise e, t2) ->
  rebuild_tree (pre ++ bad :: post) t = (Raise e, t2) /\
  _tree t2 = Some (length (heap t)) /\
  _tree t1 = Some (length (heap t)) /\
  (length (heap t1) <= length (heap t2))%nat.
Proof.
  intros H1 H2. rewrite rebuild_tree_start in *.
  split; [exact (rebuild_loop_fails _ _ _ _ _ _ _ H1 H2)|].
  pose proof (rebuild_loop_extends pre (fresh_tree (heap t))) as (E1 & _ & _).
  pose proof (process_record_extends bad t1) as (E2 & _ & L2).
  rewrite H1 in E1. rewrite H2 in E2, L2. simpl in E1, E2, L2.
  rewrite E2, E1. auto.
Qed.

Lemma rebuild_failure_publishes_partial_tree_witness :
  let t := snd (rebuild_tree [folder_record "Document/A" "A" (Some "false")]
                  RemoteTree_init) in
  let pre := [folder_record "Document/B" "B" (Some "false")] in
  let bad := document_record "Document/bad.pdf" "bad.pdf"
               (Some "2017-13-45T00:00:00Z") (Some "1") (Some "2") (Some "3") in
  let t1 := snd (rebuild_tree pre t) in
  let t2 := snd (process_record bad t1) in
  rebuild_tree pre t = (Ok tt, t1) /\
  process_record bad t1 = (Raise ValueError, t2) /\
  rebuild_tree (pre ++ bad :: []) t = (Raise ValueError, t2) /\
  _tree t2 = Some (length (heap t)).
Proof.
  intros t pre bad t1 t2.
  assert (H1 : rebuild_tree pre t = (Ok tt, t1)) by (vm_compute; reflexivity).
  assert (H2 : process_record bad t1 = (Raise ValueError, t2))
    by (vm_compute; reflexivity).
  pose proof (rebuild_failure_publishes_partial_tree pre [] bad t t1 t2
                ValueError H1 H2) as (H3 & H4 & _).
  exact (conj H1 (conj H2 (conj H3 H4))).
Defined.

(** C5 as stated fails.  A tree built from the folder [Document/A] is
    rebuilt from the folder [Document/B] and a document whose date is
    malformed: the call raises [ValueError]; afterwards [Document/A] is no
    longer found, [Document/B] is found, and the failing document is found
    too, with the fields that were set before the date was parsed. *)
Lemma rebuild_is_not_all_or_nothing :
  let t := snd (rebuild_tree [folder_record "Document/A" "A" (Some "false")]
                  RemoteTree_init) in
  let r := rebuild_tree
             [folder_record "Document/B" "B" (Some "false");
              document_record "Document/bad.pdf" "bad.pdf"
                (Some "2017-13-45T00:00:00Z") (Some "1") (Some "2") (Some "3")]
             t in
  fst r = Raise ValueError /\
  lookup t "Document/A" = Ok (Some 1%nat) /\
  lookup t "Document/B" = Ok None /\
  lookup (snd r) "Document/A" = Ok None /\
  lookup (snd r) "Document/B" = Ok (Some 3%nat) /\
  lookup (snd r) "Document/bad.pdf" = Ok (Some 4%nat) /\
  attr (snd r) 4 "entry_id" = VStr "f1d09cac-1832-48b7-b060-4d39cbc0e582" /\
  attr (snd r) 4 "created_date" = VNone /\
  attr (snd r) 4 "file_size" = VNone.
Proof. vm_compute. repeat split. Qed.

(* ===================================================================== *)
(** ** Two nodes at one path *)
(* ===================================================================== *)

(** C2 as stated fails: two document records with the same [entry_path]
    give two nodes of the tree at that path. *)
Lemma two_documents_at_one_path :
  let t := snd (rebuild_tree [sample_document "Document/a.pdf" "a.pdf";
                              sample_document "Document/a.pdf" "a.pdf"]
                  RemoteTree_init) in
  in_tree t 1 = true /\ in_tree t 2 = true /\
  attr t 1 "entry_path" = VStr "Document/a.pdf" /\
  attr t 2 "entry_path" = VStr "Document/a.pdf".
Proof. vm_compute. repeat split. Qed.

(** C6 as stated fails: the code stores the [entry_path] and the
    [entry_name] of a record as they come; for a record whose name is not
    the last part of its path the node's path is not its parent's path
    joined with its name. *)
Lemma path_is_not_parent_and_name :
  let t := snd (rebuild_tree [sample_document "Document/a.pdf" "b.pdf"]
                  RemoteTree_init) in
  in_tree t 1 = true /\ parent_of (heap t) 1 = Some 0%nat /\
  attr t 0 "entry_path" = VStr "Document" /\
  attr t 1 "entry_name" = VStr "b.pdf" /\
  attr t 1 "entry_path" = VStr "Document/a.pdf" /\
  attr t 1 "entry_path" <> VStr (PyStr.slash "Document" "b.pdf").
Proof. vm_compute. repeat split. discriminate. Qed.

(** A placeholder answers to the part ["None"].  After the document
    [Document/A/x.pdf], whose folder is missing, the lookup of
    ["Document/None"] returns the placeholder of [Document/A]; the
    document [Document/None/y.pdf] is hung under it, so that its path is
    not the path of its parent joined with its name, on a listing whose
    records are all well formed. *)
Lemma placeholder_answers_to_None :
  let jsondata := [sample_document "Document/A/x.pdf" "x.pdf";
                   sample_document "Document/None/y.pdf" "y.pdf"] in
  let t := snd (rebuild_tree jsondata RemoteTree_init) in
  forallb well_formed jsondata = true /\
  lookup t "Document/None" = Ok (Some 1%nat) /\
  attr t 1 "entry_name" = VNone /\
  attr t 1 "entry_path" = VStr "Document/A" /\
  in_tree t 3 = true /\ parent_of (heap t) 3 = Some 1%nat /\
  attr t 3 "entry_name" = VStr "y.pdf" /\
  attr t 3 "entry_path" = VStr "Document/None/y.pdf".
Proof. vm_compute. repeat split. Qed.

(** The folder record [Document/None] then gives that placeholder the name
    ["None"] and leaves it its path, and the folder record [Document/A]
    makes a second node at [Document/A]: two named nodes of the tree at
    one path, on a well-formed listing without repeated documents. *)
Lemma placeholder_renamed_None :
  let jsondata := [sample_document "Document/A/x.pdf" "x.pdf";
                   folder_record "Document/None" "None" (Some "false");
                   folder_record "Document/A" "A" (Some "false")] in
  let t := snd (rebuild_tree jsondata RemoteTree_init) in
  forallb well_formed jsondata = true /\
  documents_fresh [] jsondata = true /\
  in_tree t 1 = true /\ in_tree t 3 = true /\
  attr t 1 "entry_name" = VStr "None" /\ attr t 3 "entry_name" = VStr "A" /\
  attr t 1 "entry_path" = VStr "Document/A" /\
  attr t 3 "entry_path" = VStr "Document/A".
Proof. vm_compute. repeat split. Qed.

(* ===================================================================== *)
(** ** A build behind the nodes of earlier builds *)
(* ===================================================================== *)

Section Relocate.
Variable G : list obj.
Hypothesis HG : closed G.

Lemma lookup_relocate (L : list obj) a :
  (G ++ (shift_obj (length G) <$> L)) !! (length G + a)%nat
  = shift_obj (length G) <$> L !! a.
Proof.
  rewrite lookup_app_r by lia.
  replace (length G + a - length G)%nat with a by lia.
  apply list_lookup_fmap.
Qed.

Lemma parent_of_relocate (L : list obj) a :
  parent_of (G ++ (shift_obj (length G) <$> L)) (length G + a)
  = Nat.add (length G) <$> parent_of L a.
Proof.
  unfold parent_of. rewrite lookup_relocate.
  destruct (L !! a) as [o|]; reflexivity.
Qed.

Lemma getattr_relocate (L : list obj) a name :
  getattr (G ++ (shift_obj (length G) <$> L)) (length G + a) name
  = getattr L a name.
Proof.
  unfold getattr. rewrite lookup_relocate.
  destruct (L !! a) as [o|]; reflexivity.
Qed.

Lemma children_from_shift (L : list obj) i a :
  children_from (shift_obj (length G) <$> L) (length G + i) (length G + a)
  = Nat.add (length G) <$> children_from L i a.
Proof.
  revert i. induction L as [|o L IH]; intros i; [reflexivity|].
  simpl. replace (S (length G + i)) with (length G + S i)%nat by lia.
  rewrite IH.
  destruct (decide (Nat.add (length G) <$> ob_parent o = Some (length G + a)%nat))
    as [E|E]; destruct (decide (ob_parent o = Some a)) as [E'|E'];
    try reflexivity; exfalso.
  - destruct (ob_parent o) as [p|]; [|discriminate].
    simpl in E. apply E'. f_equal. injection E. lia.
  - apply E. rewrite E'. reflexivity.
Qed.

Lemma children_relocate (L : list obj) a :
  children (G ++ (shift_obj (length G) <$> L)) (length G + a)
  = Nat.add (length G) <$> children L a.
Proof.
  unfold children. rewrite children_from_app.
  rewrite children_from_closed by (auto; lia).
  simpl. rewrite <- (children_from_shift L 0 a).
  rewrite Nat.add_0_r. reflexivity.
Qed.

Lemma find_shift (f f' : nat -> bool) k (l : list nat) :
  (forall c, f' (k + c)%nat = f c) ->
  List.find f' (Nat.add k <$> l) = Nat.add k <$> List.find f l.
Proof.
  intros Hf. induction l as [|c l IH]; [reflexivity|].
  simpl. rewrite Hf. destruct (f c); [reflexivity | exact IH].
Qed.

Lemma Resolver__get_relocate r n name ts :
  Resolver__get r (length G + n) name (relocate G ts)
  = (map_outcome (Nat.add (length G)) (fst (Resolver__get r n name ts)),
     relocate G ts).
Proof.
  unfold Resolver__get. simpl heap. rewrite children_relocate.
  rewrite (find_shift
             (fun c => String.eqb (_getattr (heap ts) c (pathattr r)) name)).
  - destruct (List.find _ _); reflexivity.
  - intros c. unfold _getattr. rewrite getattr_relocate. reflexivity.
Qed.

Lemma Resolver_walk_relocate r parts :
  forall node ts,
    Resolver_walk r (length G + node) parts (relocate G ts)
    = (map_outcome (Nat.add (length G)) (fst (Resolver_walk r node parts ts)),
       relocate G ts).
Proof.
  induction parts as [|part rest IH]; intros node ts; [reflexivity|].
  simpl Resolver_walk.
  destruct (String.eqb part "..").
  { simpl heap. rewrite parent_of_relocate.
    destruct (parent_of (heap ts) node) as [p|]; [apply IH | reflexivity]. }
  destruct (String.eqb part "" || String.eqb part "."); [apply IH|].
  unfold bind. rewrite Resolver__get_relocate.
  pose proof (Resolver__get_state r node part ts) as Hst.
  destruct (Resolver__get r node part ts) as [[c|e] st']; simpl in Hst; subst st'.
  - apply IH.
  - reflexivity.
Qed.

Lemma root_of_relocate ts t :
  parent_of (heap ts) t = None ->
  root_of (heap (relocate G ts)) (length G + t) = (length G + t)%nat
  /\ root_of (heap ts) t = t.
Proof.
  intros Hp. split; apply root_of_no_parent; [|exact Hp].
  simpl heap. rewrite parent_of_relocate, Hp. reflexivity.
Qed.

Lemma Resolver_get_relocate r t path ts :
  parent_of (heap ts) t = None ->
  Resolver_get r (length G + t) path (relocate G ts)
  = (map_outcome (Nat.add (length G)) (fst (Resolver_get r t path ts)),
     relocate G ts).
Proof.
  intros Hp. destruct (root_of_relocate ts t Hp) as [Hb Hs].
  unfold Resolver_get, bind, Resolver__start, _getattr.
  rewrite Hb, Hs. simpl heap at 1. rewrite getattr_relocate.
  destruct (PyStr.startswith "/" path).
  - destruct (tail (PyStr.split "/" path)) as [|p0 parts']; [reflexivity|].
    destruct (String.eqb p0 ""); [reflexivity|].
    destruct (negb _); [reflexivity|].
    apply (Resolver_walk_relocate r parts' t).
  - apply (Resolver_walk_relocate r _ t).
Qed.

Lemma get_node_by_path_relocate path :
  simulates G (fmap (Nat.add (length G)))
    (get_node_by_path path) (get_node_by_path path).
Proof.
  intros ts Hok. rewrite (get_node_by_path_state path ts). split; [|exact Hok].
  unfold get_node_by_path, except_ChildResolverError, bind, read_resolver,
    read_tree, read_root.
  simpl _resolver. destruct (_resolver ts) as [r|]; [|reflexivity].
  cbn [lift_option ret]. simpl _tree.
  destruct (_tree ts) as [t|] eqn:Et; [|reflexivity].
  cbn [lift_option ret fmap option_fmap option_map].
  destruct (Hok t Et) as [_ Hp].
  destruct (root_of_relocate ts t Hp) as [Hb Hs]. rewrite Hb, Hs.
  rewrite (Resolver_get_relocate r t _ ts Hp).
  pose proof (Resolver_get_state r t ("/" +:+ path) ts) as Hst.
  destruct (Resolver_get r t ("/" +:+ path) ts) as [[o|[]] st']; simpl in Hst;
    subst st'; reflexivity.
Qed.

Lemma sim_ret {A} (f : A -> A) (a : A) : simulates G f (ret a) (ret (f a)).
Proof. intros ts Hok. split; [reflexivity | exact Hok]. Qed.

Lemma sim_raise {A} (f : A -> A) e : simulates G f (raise e) (raise e).
Proof. intros ts Hok. split; [reflexivity | exact Hok]. Qed.

Lemma sim_bind {A B} (f : A -> A) (g : B -> B) (m mb : M A) (c cb : A -> M B) :
  simulates G f m mb ->
  (forall a, simulates G g (c a) (cb (f a))) ->
  simulates G g (bind m c) (bind mb cb).
Proof.
  intros Hm Hc ts Hok. unfold bind.
  destruct (Hm ts Hok) as [E Hok']. rewrite E.
  destruct (m ts) as [[a|e] ts']; simpl in *.
  - apply Hc. exact Hok'.
  - split; [reflexivity | exact Hok'].
Qed.

Lemma sim_lift_option {A} e (o : option A) :
  simulates G id (lift_option e o) (lift_option e o).
Proof. destruct o; [apply (sim_ret id) | apply sim_raise]. Qed.

Lemma sim_item data key : simulates G id (item data key) (item data key).
Proof. apply sim_lift_option. Qed.

Lemma sim_todatetime x : simulates G id (todatetime x) (todatetime x).
Proof.
  intros ts Hok. rewrite !todatetime_run.
  destruct x as [s|]; [destruct (Strptime.strptime s)|]; split; auto.
Qed.

Lemma parent_of_alter_attr (L : list obj) a name v b :
  parent_of (alter (set_attr_obj name v) a L) b = parent_of L b.
Proof.
  unfold parent_of. destruct (decide (a = b)) as [->|Hne].
  - rewrite list_lookup_alter_eq. destruct (L !! b); reflexivity.
  - rewrite list_lookup_alter_ne by exact Hne. reflexivity.
Qed.

Lemma tree_ok_setattr a name v ts :
  tree_ok ts -> tree_ok (snd (setattr a name v ts)).
Proof.
  intros Hok root Hr. simpl in *. destruct (Hok root Hr) as [H1 H2].
  rewrite length_alter, parent_of_alter_attr. auto.
Qed.

Lemma sim_setattr a name v :
  simulates G id (setattr a name v) (setattr (length G + a) name v).
Proof.
  intros ts Hok. split; [|apply tree_ok_setattr; exact Hok].
  unfold setattr, update_heap, relocate. simpl. rewrite alter_app_r.
  rewrite (list_fmap_alter (shift_obj (length G)) (set_attr_obj name v)
             (set_attr_obj name v)); [reflexivity|].
  apply Forall_forall. reflexivity.
Qed.

Lemma relocate_append L o tr rs :
  relocate G (mk_RemoteTree (L ++ [o]) tr rs)
  = mk_RemoteTree ((G ++ (shift_obj (length G) <$> L)) ++ [shift_obj (length G) o])
      (Nat.add (length G) <$> tr) rs.
Proof. unfold relocate. simpl. rewrite fmap_app, app_assoc. reflexivity. Qed.

Lemma length_relocate (L : list obj) :
  length (G ++ (shift_obj (length G) <$> L)) = (length G + length L)%nat.
Proof. rewrite length_app, length_fmap. reflexivity. Qed.

Lemma tree_ok_append ts o :
  tree_ok ts -> tree_ok (mk_RemoteTree (heap ts ++ [o]) (_tree ts) (_resolver ts)).
Proof.
  intros Hok root Hr. simpl in *. destruct (Hok root Hr) as [H1 H2].
  rewrite length_app, parent_of_app_l by exact H1. split; [lia | exact H2].
Qed.

Lemma sim_DPFolderNode_new parent p n ty id created is_new src pfid :
  simulates G (Nat.add (length G))
    (DPFolderNode_new parent p n ty id created is_new src pfid)
    (DPFolderNode_new (Nat.add (length G) <$> parent) p n ty id created
       is_new src pfid).
Proof.
  intros ts Hok. rewrite !DPFolderNode_new_run.
  rewrite !DPFolderNode_init_last. cbv zeta.
  destruct (parse_date created) as [d|]; simpl fst; simpl snd;
    (split; [rewrite relocate_append; unfold relocate; cbn [heap _tree _resolver];
             rewrite ?length_relocate; reflexivity
            | apply tree_ok_append; exact Hok]).
Qed.

Lemma sim_DPDocumentNode_new parent p n ty id created is_new author cur
    dtype rev size mime modified title total :
  simulates G (Nat.add (length G))
    (DPDocumentNode_new parent p n ty id created is_new author cur dtype rev
       size mime modified title total)
    (DPDocumentNode_new (Nat.add (length G) <$> parent) p n ty id created
       is_new author cur dtype rev size mime modified title total).
Proof.
  intros ts Hok. rewrite !DPDocumentNode_new_run.
  rewrite !DPDocumentNode_init_last. cbv zeta.
  destruct (parse_date created) as [d|];
    [destruct (parse_date modified) as [dm|];
     [destruct (parse_int cur) as [vc|];
      [destruct (parse_int size) as [vs|];
       [destruct (parse_int total) as [vt|]|]|]|]|];
    simpl fst; simpl snd;
    (split; [rewrite relocate_append; unfold relocate; cbn [heap _tree _resolver];
             rewrite ?length_relocate; reflexivity
            | apply tree_ok_append; exact Hok]).
Qed.

Ltac sim :=
  repeat first
    [ progress unfold id
    | apply (sim_ret (fun x => x)) | apply sim_raise | apply sim_item
    | apply sim_lift_option | apply sim_todatetime | apply sim_setattr
    | match goal with
      | |- simulates _ _ (bind _ _) (bind _ _) => eapply sim_bind; [|intros]
      | |- simulates _ _ (get_node_by_path _) _ => apply get_node_by_path_relocate
      | |- simulates _ _ (DPFolderNode_new _ _ _ _ _ _ _ _ _) _ =>
          apply sim_DPFolderNode_new
      | |- simulates _ _ (DPDocumentNode_new _ _ _ _ _ _ _ _ _ _ _ _ _ _ _ _) _ =>
          apply sim_DPDocumentNode_new
      | |- simulates _ _ (match ?x with _ => _ end) _ =>
          destruct x; cbn [fmap option_fmap option_map id]
      end ].

Lemma sim__create_path_loop ds :
  forall lastpath,
    simulates G id (_create_path_loop lastpath ds) (_create_path_loop lastpath ds).
Proof.
  induction ds as [|d ds IH]; intros lastpath; simpl; sim. apply IH.
Qed.

Lemma sim__create_path path : simulates G id (_create_path path) (_create_path path).
Proof. unfold _create_path. sim. apply sim__create_path_loop. Qed.

Lemma sim_update_node node data :
  simulates G id (update_node node data) (update_node (length G + node) data).
Proof. unfold update_node. sim. Qed.

Lemma sim_create_folder parent data :
  simulates G id (create_folder parent data)
    (create_folder (Nat.add (length G) <$> parent) data).
Proof. unfold create_folder. sim. Qed.

Lemma sim_create_document parent data :
  simulates G id (create_document parent data)
    (create_document (Nat.add (length G) <$> parent) data).
Proof. unfold create_document. sim. Qed.

Lemma sim__create_update_node data :
  simulates G id (_create_update_node data) (_create_update_node data).
Proof.
  unfold _create_update_node. sim.
  - apply sim_update_node.
  - apply sim_create_folder.
  - apply sim_create_document.
Qed.

Lemma sim_process_record data :
  simulates G id (process_record data) (process_record data).
Proof.
  unfold process_record. sim.
  - apply sim__create_path.
  - apply sim__create_update_node.
Qed.

Lemma sim_rebuild_loop jsondata :
  simulates G id (rebuild_loop jsondata) (rebuild_loop jsondata).
Proof.
  induction jsondata as [|data rest IH]; simpl; sim.
  - apply sim_process_record.
  - exact IH.
Qed.

End Relocate.

(* ===================================================================== *)
(** ** The processing of a record, change by change *)
(* ===================================================================== *)

Lemma snd_bind_cases {A B} (m : M A) (k : A -> M B) st (Q : RemoteTree -> Prop) :
  (forall a st', m st = (Ok a, st') -> Q (snd (k a st'))) ->
  (forall e st', m st = (Raise e, st') -> Q st') ->
  Q (snd (bind m k st)).
Proof.
  intros H1 H2. unfold bind. destruct (m st) as [[a|e] st'] eqn:E.
  - apply (H1 a st' eq_refl).
  - apply (H2 e st' eq_refl).
Qed.

Lemma snd_bind_lift_option {A B} e (o : option A) (k : A -> M B) st
    (Q : RemoteTree -> Prop) :
  (forall a, o = Some a -> Q (snd (k a st))) -> Q st ->
  Q (snd (bind (lift_option e o) k st)).
Proof.
  intros H1 H2. destruct o as [a|]; simpl.
  - apply H1. reflexivity.
  - exact H2.
Qed.

Lemma snd_bind_item {B} data key (k : option string -> M B) st
    (Q : RemoteTree -> Prop) :
  (forall v, data !! key = Some v -> Q (snd (k v st))) -> Q st ->
  Q (snd (bind (item data key) k st)).
Proof. apply snd_bind_lift_option. Qed.

Lemma snd_bind_lookup {B} path (k : option nat -> M B) st
    (Q : RemoteTree -> Prop) :
  (forall o, lookup st path = Ok o -> Q (snd (k o st))) -> Q st ->
  Q (snd (bind (get_node_by_path path) k st)).
Proof.
  intros H1 H2. unfold bind. rewrite get_node_by_path_lookup.
  destruct (lookup st path) as [o|e] eqn:E.
  - apply H1. reflexivity.
  - exact H2.
Qed.

Lemma snd_bind_trans {A B} (R : RemoteTree -> RemoteTree -> Prop)
    (R_trans : forall a b c, R a b -> R b c -> R a c)
    (m : M A) (k : A -> M B) st :
  R st (snd (m st)) -> (forall a st1, R st1 (snd (k a st1))) ->
  R st (snd (bind m k st)).
Proof.
  intros Hm Hk. unfold bind. destruct (m st) as [[a|e] st1]; simpl in *.
  - eapply R_trans; [exact Hm | apply Hk].
  - exact Hm.
Qed.

Lemma snd_then_ret {A} (m : M A) st : snd ((m >> ret tt) st) = snd (m st).
Proof. unfold bind. destruct (m st) as [[a|e] st']; reflexivity. Qed.

Lemma DPFolderNode_new_push parent p n ty id created is_new src pfid st :
  exists o,
    snd (DPFolderNode_new parent p n ty id created is_new src pfid st) = push o st
    /\ ob_class o = DPFolderNode /\ ob_parent o = parent
    /\ ob_dict o !! "entry_path" = Some p
    /\ ob_dict o !! "entry_name" = Some n.
Proof.
  rewrite DPFolderNode_new_run, DPFolderNode_init_last. cbv zeta.
  destruct (parse_date created) as [d|]; eexists; (split; [reflexivity|]);
    unfold base_obj; read_attr; auto.
Qed.

Lemma DPDocumentNode_new_push parent p n ty id created is_new author cur
    dtype rev size mime modified title total st :
  exists o,
    snd (DPDocumentNode_new parent p n ty id created is_new author cur dtype
           rev size mime modified title total st) = push o st
    /\ ob_class o = DPDocumentNode /\ ob_parent o = parent
    /\ ob_dict o !! "entry_path" = Some p
    /\ ob_dict o !! "entry_name" = Some n.
Proof.
  rewrite DPDocumentNode_new_run, DPDocumentNode_init_last. cbv zeta.
  destruct (parse_date created) as [d|];
    [destruct (parse_date modified) as [dm|];
     [destruct (parse_int cur) as [vc|];
      [destruct (parse_int size) as [vs|];
       [destruct (parse_int total) as [vt|]|]|]|]|];
    eexists; (split; [reflexivity|]); unfold base_obj; read_attr; auto.
Qed.

Lemma placeholder_new parent curpath st :
  DPFolderNode_new parent (VStr curpath) VNone VNone VNone None VNone VNone
    VNone st
  = (Ok (length (heap st)), push (placeholder_obj parent curpath) st).
Proof. rewrite DPFolderNode_new_run, DPFolderNode_init_last. reflexivity. Qed.

Lemma append_assoc_s (a b c : string) : (a +:+ b) +:+ c = a +:+ (b +:+ c).
Proof.
  induction a as [|x a IH]; [reflexivity|].
  change (String x ((a +:+ b) +:+ c) = String x (a +:+ (b +:+ c))).
  rewrite IH. reflexivity.
Qed.

Lemma join_snoc pre d :
  pre <> [] -> PyStr.join (pre ++ [d]) = PyStr.slash (PyStr.join pre) d.
Proof.
  induction pre as [|x pre IH]; [congruence|]. intros _.
  destruct pre as [|y pre]; [reflexivity|].
  change (PyStr.join ((x :: y :: pre) ++ [d]))
    with (PyStr.slash x (PyStr.join ((y :: pre) ++ [d]))).
  rewrite IH by discriminate.
  change (PyStr.join (x :: y :: pre)) with (PyStr.slash x (PyStr.join (y :: pre))).
  unfold PyStr.slash. rewrite !append_assoc_s. reflexivity.
Qed.

Section Steps.
Variable data : gmap string (option string).
Variable path : string.
Hypothesis Hpath : data !! "entry_path" = Some (Some path).

Lemma steps_refl st : rtc (place data) st st.
Proof. apply rtc_refl. Qed.

Lemma steps_trans a b c :
  rtc (place data) a b -> rtc (place data) b c -> rtc (place data) a c.
Proof. apply rtc_trans. Qed.

Lemma _create_path_loop_steps ds :
  forall pre post,
    PyStr.split "/" path = pre ++ ds ++ post -> pre <> [] -> post <> [] ->
    preserves (rtc (place data)) (_create_path_loop (PyStr.join pre) ds).
Proof.
  induction ds as [|d ds IH]; intros pre post Hsplit Hpre Hpost.
  - apply preserves_ret. exact steps_refl.
  - simpl _create_path_loop. rewrite <- (join_snoc pre d Hpre).
    intros st. apply snd_bind_lookup; [|apply rtc_refl].
    intros found Hfound.
    assert (Hnext : forall st1,
      rtc (place data) st1
        (snd (_create_path_loop (PyStr.join (pre ++ [d])) ds st1))).
    { apply (IH (pre ++ [d]) post).
      - rewrite <- app_assoc. exact Hsplit.
      - destruct pre; discriminate.
      - exact Hpost. }
    apply (snd_bind_trans _ steps_trans); [|intros _; exact Hnext].
    destruct found as [a|]; [apply rtc_refl|].
    apply snd_bind_lookup; [|apply rtc_refl].
    intros parent Hparent. rewrite snd_then_ret, placeholder_new.
    apply rtc_once.
    apply (place_placeholder data st path pre d (ds ++ post) parent);
      auto. destruct ds; simpl; [exact Hpost | discriminate].
Qed.

Lemma _create_path_steps :
  preserves (rtc (place data)) (_create_path (Some path)).
Proof.
  unfold _create_path. intros st. simpl lift_option.
  unfold bind at 1. unfold ret at 1.
  destruct (PyStr.split "/" path) as [|s0 rest] eqn:Hsplit.
  { apply rtc_refl. }
  simpl hd. simpl tail.
  destruct rest as [|x rest]; [apply rtc_refl|].
  destruct (exists_last (l := x :: rest)) as (ds & l & E); [discriminate|].
  rewrite E in *. rewrite removelast_last.
  apply (_create_path_loop_steps ds [s0] [l]).
  - exact Hsplit.
  - discriminate.
  - discriminate.
Qed.

Lemma create_folder_steps ty parent st :
  data !! "entry_type" = Some ty -> str_is ty "folder" = true ->
  lookup st (PyStr.rsplit1_head "/" path) = Ok parent ->
  lookup st path = Ok None ->
  settles data st (snd (create_folder parent data st)).
Proof.
  intros Hty Hfolder Hparent Hnode. unfold create_folder.
  apply snd_bind_item; [intros a_path Ea | left; reflexivity].
  apply snd_bind_item; [intros a_name En | left; reflexivity].
  apply snd_bind_item; [intros a_type Et | left; reflexivity].
  apply snd_bind_item; [intros a_id _ | left; reflexivity].
  apply snd_bind_item; [intros a_created _ | left; reflexivity].
  apply snd_bind_item; [intros a_new _ | left; reflexivity].
  apply snd_bind_item; [intros a_pfid _ | left; reflexivity].
  rewrite snd_then_ret.
  destruct (DPFolderNode_new_push parent (of_json a_path) (of_json a_name)
              (of_json a_type) (of_json a_id) a_created (of_json a_new)
              (of_json (get_or_None data "document_source")) (of_json a_pfid) st)
    as (o & -> & _ & Hp & Hpa & Hna).
  right.
  apply (settle_create data st path a_name ty parent o); auto.
  rewrite Hpa. rewrite Hpath in Ea. injection Ea as <-. reflexivity.
Qed.

Lemma create_document_steps ty parent st :
  data !! "entry_type" = Some ty ->
  str_is ty "folder" = false -> str_is ty "document" = true ->
  lookup st (PyStr.rsplit1_head "/" path) = Ok parent ->
  settles data st (snd (create_document parent data st)).
Proof.
  intros Hty Hfolder Hdoc Hparent. unfold create_document.
  apply snd_bind_item; [intros a_path Ea | left; reflexivity].
  apply snd_bind_item; [intros a_name En | left; reflexivity].
  apply snd_bind_item; [intros a_type Et | left; reflexivity].
  apply snd_bind_item; [intros a_id _ | left; reflexivity].
  apply snd_bind_item; [intros a_created _ | left; reflexivity].
  apply snd_bind_item; [intros a_new _ | left; reflexivity].
  apply snd_bind_item; [intros a_author _ | left; reflexivity].
  apply snd_bind_item; [intros a_cur _ | left; reflexivity].
  apply snd_bind_item; [intros a_dtype _ | left; reflexivity].
  apply snd_bind_item; [intros a_rev _ | left; reflexivity].
  apply snd_bind_item; [intros a_size _ | left; reflexivity].
  apply snd_bind_item; [intros a_mime _ | left; reflexivity].
  apply snd_bind_item; [intros a_mod _ | left; reflexivity].
  apply snd_bind_item; [intros a_title _ | left; reflexivity].
  apply snd_bind_item; [intros a_total _ | left; reflexivity].
  rewrite snd_then_ret.
  destruct (DPDocumentNode_new_push parent (of_json a_path) (of_json a_name)
              (of_json a_type) (of_json a_id) a_created (of_json a_new)
              (of_json a_author) a_cur (of_json a_dtype) (of_json a_rev) a_size
              (of_json a_mime) a_mod (of_json a_title) a_total st)
    as (o & -> & _ & Hp & Hpa & Hna).
  right.
  apply (settle_create data st path a_name ty parent o); auto.
  rewrite Hpa. rewrite Hpath in Ea. injection Ea as <-. reflexivity.
Qed.

Lemma alter_alter {A} (f g : A -> A) i (l : list A) :
  alter g i (alter f i l) = alter (fun x => g (f x)) i l.
Proof.
  revert i. induction l as [|x l IH]; intros [|i]; simpl; try reflexivity.
  f_equal. apply IH.
Qed.

Lemma updated_refl a st : updated data a st st.
Proof.
  exists (fun o => o). split.
  - intros o. auto.
  - rewrite list_alter_id by reflexivity. destruct st; reflexivity.
Qed.

Lemma updated_trans a st1 st2 st3 :
  updated data a st1 st2 -> updated data a st2 st3 -> updated data a st1 st3.
Proof.
  intros (f & Hf & ->) (g & Hg & ->). exists (fun o => g (f o)). split.
  - intros o. destruct (Hf o) as (F1 & F2 & F3 & F4).
    destruct (Hg (f o)) as (G1 & G2 & G3 & G4).
    repeat split; try congruence.
    destruct G4 as [G4|G4]; [|right; exact G4].
    destruct F4 as [F4|F4]; [left; congruence|].
    right. destruct F4 as (name & E1 & E2). exists name. split; congruence.
  - simpl. rewrite alter_alter. reflexivity.
Qed.

Lemma updated_setattr a name v st :
  name <> "entry_path" ->
  (name = "entry_name" ->
   exists x, data !! "entry_name" = Some x /\ v = of_json x) ->
  updated data a st (snd (setattr a name v st)).
Proof.
  intros H1 H2. exists (set_attr_obj name v). split; [|reflexivity].
  intros o. repeat split.
  - apply lookup_set_attr_ne. exact H1.
  - destruct (decide (name = "entry_name")) as [->|Hne].
    + right. destruct (H2 eq_refl) as (x & Ex & ->). exists x.
      split; [exact Ex | apply lookup_set_attr_eq].
    + left. apply lookup_set_attr_ne. exact Hne.
Qed.

Lemma update_node_updated a st :
  updated data a st (snd (update_node a data st)).
Proof.
  unfold update_node. revert st.
  assert (Hset : forall name v (k : unit -> M unit),
    name <> "entry_path" ->
    (name = "entry_name" ->
     exists x, data !! "entry_name" = Some x /\ v = of_json x) ->
    (forall st1, updated data a st1 (snd (k tt st1))) ->
    forall st, updated data a st (snd (bind (setattr a name v) k st))).
  { intros name v k H1 H2 Hk st.
    apply (snd_bind_trans _ (updated_trans a)).
    - apply updated_setattr; assumption.
    - intros []. exact Hk. }
  intros st. apply snd_bind_item; [intros v1 E1 | apply updated_refl].
  revert st. apply Hset; [discriminate | eauto |].
  intros st. apply snd_bind_item; [intros v2 _ | apply updated_refl].
  revert st. apply Hset; [discriminate | discriminate |].
  intros st. apply snd_bind_item; [intros v3 _ | apply updated_refl].
  revert st. apply Hset; [discriminate | discriminate |].
  intros st. apply snd_bind_item; [intros v4 _ | apply updated_refl].
  apply snd_bind_cases.
  2:{ intros e st' H. rewrite todatetime_run in H.
      destruct v4 as [x|]; [destruct (Strptime.strptime x)|];
        injection H as _ <-; apply updated_refl. }
  intros dv st' H.
  assert (st' = st) as ->.
  { rewrite todatetime_run in H.
    destruct v4 as [x|]; [destruct (Strptime.strptime x)|];
      injection H as _ <-; reflexivity. }
  clear H. revert st. apply Hset; [discriminate | discriminate |].
  intros st. apply snd_bind_item; [intros v5 _ | apply updated_refl].
  revert st. apply Hset; [discriminate | discriminate |].
  apply Hset; [discriminate | discriminate |].
  intros st. apply snd_bind_item; [intros v6 _ | apply updated_refl].
  apply updated_setattr; discriminate.
Qed.

Lemma _create_update_node_steps st :
  settles data st (snd (_create_update_node data st)).
Proof.
  unfold _create_update_node.
  apply snd_bind_item; [intros v Ev | left; reflexivity].
  apply snd_bind_lift_option; [intros p Ep | left; reflexivity].
  assert (p = path) as -> by congruence.
  apply snd_bind_lookup; [intros parent Hparent | left; reflexivity].
  apply snd_bind_item; [intros ty Ety | left; reflexivity].
  destruct (str_is ty "folder") eqn:Hfolder.
  - apply snd_bind_lookup; [intros node Hnode | left; reflexivity].
    destruct node as [a|].
    + destruct (update_node_updated a st) as (f & Hf & ->).
      right. apply (settle_update data st path a f); assumption.
    + apply (create_folder_steps ty); assumption.
  - destruct (str_is ty "document") eqn:Hdoc.
    + apply (create_document_steps ty); assumption.
    + left. reflexivity.
Qed.

End Steps.

Lemma process_record_steps data st :
  exists st1,
    rtc (place data) st st1 /\ settles data st1 (snd (process_record data st)).
Proof.
  unfold process_record.
  apply snd_bind_item; [intros v Ev | exists st; split; [apply rtc_refl | left; reflexivity]].
  destruct v as [path|].
  - pose proof (_create_path_steps data path Ev st) as H1.
    unfold bind. destruct (_create_path (Some path) st) as [[u|e] st1]; simpl in H1.
    + exists st1. split; [exact H1|]. apply (_create_update_node_steps data path Ev).
    + exists st1. split; [exact H1 | left; reflexivity].
  - exists st. split; [apply rtc_refl | left; reflexivity].
Qed.

(* ===================================================================== *)
(** ** The heap stays in order *)
(* ===================================================================== *)

Lemma parent_of_valid h a p : parent_of h a = Some p -> (a < length h)%nat.
Proof.
  unfold parent_of. intros H. apply lookup_lt_is_Some.
  destruct (h !! a); [eauto | discriminate].
Qed.

Lemma ordered_closed h : ordered h -> closed h.
Proof.
  intros Ho a p H. pose proof (Ho a p H). pose proof (parent_of_valid h a p H). lia.
Qed.

Lemma children_from_bounds l i a c :
  In c (children_from l i a) -> (i <= c < i + length l)%nat.
Proof.
  revert i. induction l as [|o l IH]; intros i; simpl; [tauto|].
  destruct (decide (ob_parent o = Some a)); simpl.
  - intros [<- | H]; [lia|]. apply IH in H. lia.
  - intros H. apply IH in H. lia.
Qed.

Lemma children_from_parent l i a c :
  In c (children_from l i a) ->
  exists o, l !! (c - i)%nat = Some o /\ ob_parent o = Some a.
Proof.
  revert i. induction l as [|o l IH]; intros i; simpl; [tauto|].
  assert (Hrec : In c (children_from l (S i) a) ->
                 exists o0, (o :: l) !! (c - i)%nat = Some o0 /\ ob_parent o0 = Some a).
  { intros H. pose proof (children_from_bounds _ _ _ _ H) as Hb.
    destruct (IH _ H) as (o' & E1 & E2). exists o'. split; [|exact E2].
    replace (c - i)%nat with (S (c - S i)) by lia. exact E1. }
  destruct (decide (ob_parent o = Some a)) as [E|E]; simpl.
  - intros [<- | H]; [|exact (Hrec H)].
    exists o. rewrite Nat.sub_diag. auto.
  - exact Hrec.
Qed.

Lemma children_parent h a c : In c (children h a) -> parent_of h c = Some a.
Proof.
  intros H. destruct (children_from_parent _ _ _ _ H) as (o & E1 & E2).
  unfold parent_of. rewrite Nat.sub_0_r in E1. rewrite E1. exact E2.
Qed.

Lemma Resolver__get_child r n name st c st' :
  Resolver__get r n name st = (Ok c, st') ->
  parent_of (heap st) c = Some n /\
  _getattr (heap st) c (pathattr r) = name.
Proof.
  unfold Resolver__get.
  destruct (List.find _ _) as [c'|] eqn:E; [|discriminate].
  intros [= <- <-]. apply find_some in E as [E1 E2].
  split; [apply children_parent; exact E1 | apply String.eqb_eq; exact E2].
Qed.

Lemma Resolver_walk_valid r parts st :
  closed (heap st) ->
  forall node a,
    (node < length (heap st))%nat ->
    fst (Resolver_walk r node parts st) = Ok a ->
    (a < length (heap st))%nat.
Proof.
  intros Hc. induction parts as [|part rest IH]; intros node a Hn.
  - simpl. intros [= <-]. exact Hn.
  - simpl. destruct (String.eqb part "..").
    { destruct (parent_of (heap st) node) as [p|] eqn:Hp; [|discriminate].
      apply IH. exact (Hc node p Hp). }
    destruct (String.eqb part "" || String.eqb part "."); [apply IH; exact Hn|].
    unfold bind. pose proof (Resolver__get_state r node part st) as Hst.
    destruct (Resolver__get r node part st) as [[c|e] st'] eqn:E; simpl in Hst;
      subst st'; [|discriminate].
    apply IH. apply Resolver__get_child in E as [E _].
    exact (parent_of_valid _ _ _ E).
Qed.

Lemma lookup_valid st path a :
  sound st -> lookup st path = Ok (Some a) -> (a < length (heap st))%nat.
Proof.
  intros [Ho Hok]. unfold lookup.
  destruct (_resolver st) as [r|] eqn:Er.
  2:{ unfold get_node_by_path, except_ChildResolverError, bind, read_resolver.
      rewrite Er. discriminate. }
  destruct (_tree st) as [t|] eqn:Et.
  2:{ unfold get_node_by_path, except_ChildResolverError, bind, read_resolver,
        read_tree. rewrite Er. cbn [lift_option ret]. rewrite Et. discriminate. }
  rewrite (get_node_by_path_run path st r t Er Et).
  destruct (Hok t Et) as [Hlt Hp]. rewrite (root_of_no_parent _ _ Hp).
  rewrite resolved_run by apply Resolver_get_state. cbn [fst].
  unfold Resolver_get, bind, Resolver__start.
  rewrite (root_of_no_parent _ _ Hp).
  change (PyStr.startswith "/" ("/" +:+ path)) with true. cbv iota.
  destruct (tail _) as [|p0 parts']; [discriminate|].
  destruct (String.eqb p0 ""); [discriminate|].
  destruct (negb _); [discriminate|]. simpl fst. simpl snd.
  pose proof (Resolver_walk_valid r parts' st (ordered_closed _ Ho) t a Hlt) as Hw.
  destruct (Resolver_walk r t parts' st) as [[o|[]] st']; simpl in *;
    try discriminate.
  intros [= ->]. apply Hw. reflexivity.
Qed.

Lemma parent_of_push h o a :
  parent_of (h ++ [o]) a
  = if decide (a = length h) then ob_parent o else parent_of h a.
Proof.
  destruct (decide (a = length h)) as [->|Hne].
  - apply parent_of_last.
  - destruct (decide (a < length h)%nat) as [Hlt|Hge].
    + apply parent_of_app_l. exact Hlt.
    + unfold parent_of. rewrite !lookup_ge_None_2; [reflexivity | lia |].
      rewrite length_app. simpl. lia.
Qed.

Lemma sound_push st o :
  sound st ->
  (forall p, ob_parent o = Some p -> (p < length (heap st))%nat) ->
  sound (push o st).
Proof.
  intros [Ho Hok] Hp. split.
  - intros a p. simpl. rewrite parent_of_push.
    destruct (decide (a = length (heap st))) as [->|_]; [apply Hp | apply Ho].
  - apply tree_ok_append. exact Hok.
Qed.

Lemma parent_of_alter_same h f a b :
  (forall o, ob_parent (f o) = ob_parent o) ->
  parent_of (alter f a h) b = parent_of h b.
Proof.
  intros Hf. unfold parent_of. destruct (decide (a = b)) as [->|Hne].
  - rewrite list_lookup_alter_eq. destruct (h !! b); simpl; [apply Hf | reflexivity].
  - rewrite list_lookup_alter_ne by exact Hne. reflexivity.
Qed.

Lemma place_sound data st st' : sound st -> place data st st' -> sound st'.
Proof.
  intros Hs Hstep.
  destruct Hstep as [path pre d post parent _ _ _ _ _ Hparent].
  apply sound_push; [exact Hs|]. intros p Hp. simpl in Hp. subst parent.
  exact (lookup_valid _ _ _ Hs Hparent).
Qed.

Lemma settle_sound data st st' : sound st -> settle data st st' -> sound st'.
Proof.
  intros Hs Hstep. destruct Hstep as
    [path name ty parent o _ _ _ Hparent _ Hp _ _
    |path a f _ _ Hf].
  - apply sound_push; [exact Hs|]. intros p Hp'.
    rewrite <- Hp, Hp' in Hparent. exact (lookup_valid _ _ _ Hs Hparent).
  - destruct Hs as [Ho Hok].
    assert (Hpar : forall b, parent_of (alter f a (heap st)) b = parent_of (heap st) b).
    { intros b. apply parent_of_alter_same. intros o. apply (Hf o). }
    split.
    + intros b p. simpl. rewrite Hpar. apply Ho.
    + intros root Hr. simpl in *. rewrite length_alter, Hpar. apply Hok. exact Hr.
Qed.

Lemma places_sound data st st' : sound st -> rtc (place data) st st' -> sound st'.
Proof. intros Hs H. induction H; eauto using place_sound. Qed.

Lemma process_record_sound data st :
  sound st -> sound (snd (process_record data st)).
Proof.
  intros Hs. destruct (process_record_steps data st) as (st1 & H1 & [-> | H2]).
  - exact (places_sound data _ _ Hs H1).
  - exact (settle_sound data _ _ (places_sound data _ _ Hs H1) H2).
Qed.

Lemma rebuild_loop_sound jsondata :
  forall st, sound st -> sound (snd (rebuild_loop jsondata st)).
Proof.
  induction jsondata as [|data rest IH]; intros st Hs; [exact Hs|].
  simpl. unfold bind.
  pose proof (process_record_sound data st Hs) as H1.
  destruct (process_record data st) as [[u|e] st1]; simpl in *; auto.
Qed.

Lemma sound_fresh_tree : sound (fresh_tree []).
Proof.
  split.
  - intros a p H. destruct a as [|a]; [discriminate H|].
    unfold parent_of in H. simpl in H. discriminate H.
  - intros root [= <-]. simpl. split; [lia | reflexivity].
Qed.

(* ===================================================================== *)
(** ** A rebuild does not depend on the tree that was there *)
(* ===================================================================== *)

Lemma map_outcome_id {A} (o : outcome A) : map_outcome (fun x => x) o = o.
Proof. destruct o; reflexivity. Qed.

Lemma fresh_tree_relocate G : fresh_tree G = relocate G (fresh_tree []).
Proof. unfold fresh_tree, relocate. simpl. rewrite Nat.add_0_r. reflexivity. Qed.

(** The tree that [rebuild_tree] builds behind the nodes of [t] is the
    tree that it builds on an empty heap, moved. *)
Lemma rebuild_tree_relocate jsondata t :
  closed (heap t) ->
  rebuild_tree jsondata t
  = (fst (rebuild_loop jsondata (fresh_tree [])),
     relocate (heap t) (snd (rebuild_loop jsondata (fresh_tree [])))).
Proof.
  intros Hc. rewrite rebuild_tree_start, fresh_tree_relocate.
  destruct (sim_rebuild_loop (heap t) Hc jsondata (fresh_tree [])
              (proj2 sound_fresh_tree)) as [E _].
  rewrite E. unfold id. rewrite map_outcome_id. reflexivity.
Qed.

Lemma closed_relocate G L :
  closed G -> ordered L -> closed (G ++ (shift_obj (length G) <$> L)).
Proof.
  intros HG HL a p. rewrite length_app, length_fmap.
  destruct (decide (a < length G)%nat) as [Hlt|Hge].
  - rewrite parent_of_app_l by exact Hlt. intros H. pose proof (HG a p H). lia.
  - replace a with (length G + (a - length G))%nat by lia.
    rewrite parent_of_relocate.
    destruct (parent_of L (a - length G)) as [q|] eqn:E; [|discriminate].
    intros [= <-]. pose proof (HL _ _ E). pose proof (parent_of_valid _ _ _ E). lia.
Qed.

(** Every state of an instance has a closed heap: [RemoteTree.__init__]
    makes one, and [rebuild_tree] keeps it closed. *)
Lemma rebuild_tree_closed jsondata t :
  closed (heap t) -> closed (heap (snd (rebuild_tree jsondata t))).
Proof.
  intros Hc. rewrite (rebuild_tree_relocate jsondata t Hc). simpl.
  apply closed_relocate; [exact Hc|].
  apply (rebuild_loop_sound jsondata _ sound_fresh_tree).
Qed.

Lemma tree_view_relocate G ts root :
  _tree ts = Some root ->
  tree_view (relocate G ts) = tree_view ts.
Proof.
  intros Hr. unfold tree_view. simpl. rewrite Hr. simpl.
  rewrite drop_app_ge by lia.
  replace (length G + root - length G)%nat with root by lia.
  rewrite <- fmap_drop, <- !list_fmap_compose.
  apply list_fmap_ext. intros i o _. simpl.
  destruct o as [c [p|] d]; unfold unshift_obj, shift_obj; simpl; [|reflexivity].
  do 2 f_equal. lia.
Qed.

Lemma reaches_relocate G L root fuel a :
  reaches (G ++ (shift_obj (length G) <$> L)) (length G + root) fuel
    (length G + a)
  = reaches L root fuel a.
Proof.
  revert a. induction fuel as [|fuel IH]; intros a; simpl.
  - destruct (Nat.eqb_spec (length G + a) (length G + root));
      destruct (Nat.eqb_spec a root); try reflexivity; lia.
  - destruct (Nat.eqb_spec (length G + a) (length G + root));
      destruct (Nat.eqb_spec a root); try reflexivity; try lia.
    rewrite parent_of_relocate.
    destruct (parent_of L a) as [p|]; [apply IH | reflexivity].
Qed.

Lemma reaches_fuel L root :
  ordered L ->
  forall fuel fuel' a,
    (a < fuel)%nat -> (a < fuel')%nat ->
    reaches L root fuel a = reaches L root fuel' a.
Proof.
  intros Ho. induction fuel as [|fuel IH]; intros fuel' a H1 H2; [lia|].
  destruct fuel' as [|fuel']; [lia|]. simpl.
  destruct (a =? root)%nat; [reflexivity|].
  destruct (parent_of L a) as [p|] eqn:E; [|reflexivity].
  pose proof (Ho a p E). apply IH; lia.
Qed.

Lemma in_tree_relocate G ts a :
  ordered (heap ts) ->
  in_tree (relocate G ts) (length G + a) = in_tree ts a.
Proof.
  intros Ho. unfold in_tree. simpl.
  destruct (_tree ts) as [root|]; [|reflexivity]. simpl.
  rewrite length_app, length_fmap.
  destruct (Nat.ltb_spec a (length (heap ts))) as [Hlt|Hge].
  - replace (length G + a <? length G + length (heap ts))%nat with true
      by (symmetry; apply Nat.ltb_lt; lia).
    simpl. rewrite reaches_relocate. apply reaches_fuel; [exact Ho | lia | lia].
  - replace (length G + a <? length G + length (heap ts))%nat with false
      by (symmetry; apply Nat.ltb_ge; lia).
    reflexivity.
Qed.

Lemma in_tree_old G ts a :
  closed G -> is_Some (_tree ts) -> (a < length G)%nat ->
  in_tree (relocate G ts) a = false.
Proof.
  intros HG [root Hr] Ha. unfold in_tree. simpl. rewrite Hr. simpl.
  rewrite reaches_closed_ge by (auto; lia). apply andb_false_r.
Qed.

Lemma filter_fmap_nat (f : nat -> bool) (g : nat -> nat) (l : list nat) :
  List.filter f (g <$> l) = g <$> List.filter (fun a => f (g a)) l.
Proof.
  induction l as [|x l IH]; [reflexivity|].
  csimpl. rewrite IH. destruct (f (g x)); reflexivity.
Qed.

Lemma tree_nodes_relocate G ts :
  closed G -> ordered (heap ts) -> is_Some (_tree ts) ->
  tree_nodes (relocate G ts) = Nat.add (length G) <$> tree_nodes ts.
Proof.
  intros HG Ho Hr. unfold tree_nodes.
  change (heap (relocate G ts)) with (G ++ (shift_obj (length G) <$> heap ts)).
  rewrite length_app, length_fmap, List.seq_app, List.filter_app.
  rewrite filter_seq_none by (intros a Ha; apply in_tree_old; auto; lia).
  simpl. rewrite <- (Nat.add_0_r (length G)) at 1.
  rewrite <- fmap_add_seq, filter_fmap_nat. f_equal.
  apply List.filter_ext. intros a. apply in_tree_relocate. exact Ho.
Qed.

Lemma attr_relocate G ts a name :
  attr (relocate G ts) (length G + a) name = attr ts a name.
Proof. unfold attr. simpl. apply getattr_relocate. Qed.

Lemma node_fields_relocate G ts a :
  node_fields (relocate G ts) (length G + a) = node_fields ts a.
Proof.
  unfold node_fields. simpl. rewrite lookup_relocate.
  destruct (heap ts !! a); reflexivity.
Qed.

Lemma fields_at_relocate G ts path :
  closed G -> ordered (heap ts) -> is_Some (_tree ts) ->
  fields_at (relocate G ts) path = fields_at ts path.
Proof.
  intros HG Ho Hr. unfold fields_at.
  rewrite tree_nodes_relocate by assumption.
  rewrite filter_fmap_nat, <- list_fmap_compose.
  rewrite (List.filter_ext _
             (fun a => value_eq_str (attr ts a "entry_path") path))
    by (intros a; rewrite attr_relocate; reflexivity).
  apply list_fmap_ext. intros i a _. simpl. apply node_fields_relocate.
Qed.

Lemma found_fields_relocate G ts path :
  closed G -> tree_ok ts ->
  found_fields (relocate G ts) path = found_fields ts path.
Proof.
  intros HG Hok. unfold found_fields, lookup.
  destruct (get_node_by_path_relocate G HG path ts Hok) as [E _]. rewrite E.
  simpl fst. destruct (fst (get_node_by_path path ts)) as [[a|]|e];
    simpl; try reflexivity.
  rewrite node_fields_relocate. reflexivity.
Qed.

Lemma rebuild_loop_tree jsondata G :
  _tree (snd (rebuild_loop jsondata (fresh_tree G))) = Some (length G).
Proof. destruct (rebuild_loop_extends jsondata (fresh_tree G)) as (E & _). exact E. Qed.

(** C7.  Two calls of [rebuild_tree] in succession with the same records
    end the same way (both return, or both raise the same exception) and
    leave the same tree up to the identity of the nodes: the same nodes in
    the same order with the same fields and the same parent links counted
    from the root, hence the same fields at every [entry_path] and the same
    fields behind every lookup. *)
Theorem rebuild_twice (jsondata : list (gmap string (option string)))
    (t : RemoteTree) :
  closed (heap t) ->
  let r1 := rebuild_tree jsondata t in
  let r2 := rebuild_tree jsondata (snd r1) in
  fst r2 = fst r1 /\
  tree_view (snd r2) = tree_view (snd r1) /\
  (forall path, fields_at (snd r2) path = fields_at (snd r1) path) /\
  (forall path, found_fields (snd r2) path = found_fields (snd r1) path).
Proof.
  intros Hc r1 r2. unfold r2, r1. clear r1 r2.
  pose proof (rebuild_loop_sound jsondata _ sound_fresh_tree) as [Ho Hok].
  pose proof (rebuild_loop_tree jsondata []) as Ht.
  rewrite (rebuild_tree_relocate jsondata t Hc). simpl snd. simpl fst.
  set (ts := snd (rebuild_loop jsondata (fresh_tree []))) in *.
  assert (Hc' : closed (heap (relocate (heap t) ts))).
  { apply closed_relocate; assumption. }
  rewrite (rebuild_tree_relocate jsondata _ Hc'). simpl snd. simpl fst.
  fold ts.
  split; [reflexivity|]. split; [|split].
  - rewrite !(tree_view_relocate _ ts _ Ht). reflexivity.
  - intros path. rewrite !fields_at_relocate; eauto.
  - intros path. rewrite !found_fields_relocate; auto.
Qed.

Lemma rebuild_twice_witness :
  closed (heap RemoteTree_init) /\
  let jsondata := [folder_record "Document/Reader" "Reader" (Some "false");
                   sample_document "Document/Reader/book.pdf" "book.pdf"] in
  let r1 := rebuild_tree jsondata RemoteTree_init in
  let r2 := rebuild_tree jsondata (snd r1) in
  fst r2 = fst r1 /\ tree_view (snd r2) = tree_view (snd r1).
Proof.
  split; [exact closed_nil|].
  intros jsondata r1 r2.
  destruct (rebuild_twice jsondata RemoteTree_init closed_nil) as (H1 & H2 & _).
  exact (conj H1 H2).
Defined.

(* ===================================================================== *)
(** ** Splitting and joining paths *)
(* ===================================================================== *)

Lemma slash_cons a q n : PyStr.slash (String a q) n = String a (PyStr.slash q n).
Proof. reflexivity. Qed.

Lemma join_cons_char a h t :
  PyStr.join (String a h :: t) = String a (PyStr.join (h :: t)).
Proof. destruct t; reflexivity. Qed.

(** [split] and [join] are inverse on every text. *)
Lemma join_split s : PyStr.join (PyStr.split "/" s) = s.
Proof.
  induction s as [|a s IH]; [reflexivity|]. simpl.
  destruct (Ascii.eqb_spec a "/") as [->|Hne].
  - pose proof (split_nonempty "/" s) as Hn.
    destruct (PyStr.split "/" s) as [|h t]; [congruence|].
    change (PyStr.join ("" :: h :: t)) with (String "/" (PyStr.join (h :: t))).
    rewrite IH. reflexivity.
  - pose proof (split_nonempty "/" s) as Hn.
    destruct (PyStr.split "/" s) as [|h t]; [congruence|].
    rewrite join_cons_char, IH. reflexivity.
Qed.

Lemma split_no_slash s : Forall (fun x => no_slash x = true) (PyStr.split "/" s).
Proof.
  induction s as [|a s IH]; simpl.
  - constructor; [reflexivity | constructor].
  - destruct (Ascii.eqb a "/") eqn:E.
    + constructor; [reflexivity | exact IH].
    + destruct (PyStr.split "/" s) as [|h t]; [constructor; [simpl; rewrite E|]; auto|].
      inversion IH as [|? ? Hh Ht]; subst. constructor; [|exact Ht].
      simpl. rewrite E. exact Hh.
Qed.

Lemma split_single x : no_slash x = true -> PyStr.split "/" x = [x].
Proof.
  induction x as [|a x IH]; [reflexivity|]. simpl.
  intros [Ha Hx]%andb_true_iff. apply negb_true_iff in Ha. rewrite Ha.
  rewrite IH by exact Hx. reflexivity.
Qed.

Lemma split_slash x s :
  no_slash x = true -> PyStr.split "/" (PyStr.slash x s) = x :: PyStr.split "/" s.
Proof.
  induction x as [|a x IH]; [reflexivity|].
  intros [Ha Hx]%andb_true_iff. apply negb_true_iff in Ha.
  rewrite slash_cons. simpl. rewrite Ha, IH by exact Hx. reflexivity.
Qed.

Lemma split_join l :
  l <> [] -> Forall (fun x => no_slash x = true) l ->
  PyStr.split "/" (PyStr.join l) = l.
Proof.
  induction l as [|x l IH]; [congruence|]. intros _ Hall.
  inversion Hall as [|? ? Hx Hl]; subst.
  destruct l as [|y l]; [apply split_single; exact Hx|].
  change (PyStr.join (x :: y :: l)) with (PyStr.slash x (PyStr.join (y :: l))).
  rewrite split_slash by exact Hx. rewrite IH; [reflexivity | discriminate | exact Hl].
Qed.

Lemma before_last_no_slash n : no_slash n = true -> PyStr.before_last "/" n = None.
Proof.
  induction n as [|a n IH]; [reflexivity|]. simpl.
  intros [Ha Hn]%andb_true_iff. apply negb_true_iff in Ha.
  rewrite IH by exact Hn. rewrite Ha. reflexivity.
Qed.

Lemma before_last_slash q n :
  no_slash n = true -> PyStr.before_last "/" (PyStr.slash q n) = Some q.
Proof.
  intros Hn. induction q as [|a q IH].
  - change (PyStr.slash "" n) with (String "/" n). simpl.
    rewrite before_last_no_slash by exact Hn. reflexivity.
  - rewrite slash_cons. simpl. rewrite IH. reflexivity.
Qed.

Lemma rsplit1_head_slash q n :
  no_slash n = true -> PyStr.rsplit1_head "/" (PyStr.slash q n) = q.
Proof. intros Hn. unfold PyStr.rsplit1_head. rewrite before_last_slash by exact Hn. reflexivity. Qed.

Lemma append_inj_l (a b c : string) : a +:+ b = a +:+ c -> b = c.
Proof.
  induction a as [|x a IH]; [exact (fun H => H)|].
  change (String x (a +:+ b) = String x (a +:+ c) -> b = c).
  intros [= H]. exact (IH H).
Qed.

Lemma slash_inj q1 n1 q2 n2 :
  no_slash n1 = true -> no_slash n2 = true ->
  PyStr.slash q1 n1 = PyStr.slash q2 n2 -> q1 = q2 /\ n1 = n2.
Proof.
  intros H1 H2 E.
  assert (q1 = q2) as ->.
  { rewrite <- (rsplit1_head_slash q1 n1 H1), E. apply rsplit1_head_slash. exact H2. }
  split; [reflexivity|]. unfold PyStr.slash in E.
  apply append_inj_l in E. apply (append_inj_l "/") in E. exact E.
Qed.

Lemma no_slash_slash q n : no_slash (PyStr.slash q n) = false.
Proof.
  induction q as [|a q IH]; [reflexivity|].
  rewrite slash_cons. simpl. rewrite IH. apply andb_false_r.
Qed.

(* ===================================================================== *)
(** ** Lookups along names *)
(* ===================================================================== *)

(** A part that is not ["None"] names only nodes that carry it as their
    name, when every name is [None] or a string. *)
Lemma exact_plain h x :
  (forall a, getattr h a "entry_name" = VNone \/
             exists n, getattr h a "entry_name" = VStr n) ->
  x <> "None" -> exact h x.
Proof.
  intros Hn Hx c _. unfold _getattr.
  destruct (Hn c) as [E | [n E]]; rewrite E; simpl.
  - intros <-. exfalso. apply Hx. reflexivity.
  - intros ->. reflexivity.
Qed.

(** So does every part, when every node has a name. *)
Lemma exact_named st x : all_named st -> exact (heap st) x.
Proof.
  intros Hn c Hc. unfold _getattr. destruct (Hn c Hc) as [n E].
  unfold attr in E. rewrite E. simpl. intros ->. reflexivity.
Qed.

Lemma children_from_complete l i a j o :
  l !! j = Some o -> ob_parent o = Some a -> In (i + j)%nat (children_from l i a).
Proof.
  revert i j. induction l as [|o' l IH]; intros i j Hj Hp; [discriminate|].
  simpl. destruct j as [|j]; simpl in Hj.
  - injection Hj as ->. rewrite decide_True by exact Hp.
    left. lia.
  - replace (i + S j)%nat with (S i + j)%nat by lia.
    destruct (decide (ob_parent o' = Some a)); [right|]; apply IH; assumption.
Qed.

Lemma children_complete h c n : parent_of h c = Some n -> In c (children h n).
Proof.
  unfold parent_of. intros H. destruct (h !! c) as [o|] eqn:E; [|discriminate].
  exact (children_from_complete h 0 n c o E H).
Qed.

Lemma find_child_parent h n x c :
  find_child h n x = Some c ->
  parent_of h c = Some n /\ _getattr h c "entry_name" = x.
Proof.
  unfold find_child. intros [H1 H2]%find_some.
  split; [apply children_parent; exact H1 | apply String.eqb_eq; exact H2].
Qed.

Lemma find_child_Some h n x c :
  find_child h n x = Some c -> exact h x ->
  parent_of h c = Some n /\ getattr h c "entry_name" = VStr x.
Proof.
  intros [Hp Hn]%find_child_parent Hx. split; [exact Hp|].
  apply Hx; [exact (parent_of_valid _ _ _ Hp) | exact Hn].
Qed.

Lemma find_child_None h n x c :
  find_child h n x = None -> parent_of h c = Some n ->
  getattr h c "entry_name" <> VStr x.
Proof.
  unfold find_child. intros Hf Hp E.
  pose proof (find_none _ _ Hf c (children_complete _ _ _ Hp)) as H.
  simpl in H. unfold _getattr in H. rewrite E in H. simpl in H.
  rewrite String.eqb_refl in H. discriminate.
Qed.

Lemma descend_app h n l1 l2 :
  descend h n (l1 ++ l2) = descend h n l1 ≫= fun m => descend h m l2.
Proof.
  revert n. induction l1 as [|s l1 IH]; intros n; [reflexivity|].
  simpl. destruct (find_child h n s) as [c|]; [apply IH | reflexivity].
Qed.

Lemma descend_snoc h n l x :
  descend h n (l ++ [x]) = descend h n l ≫= fun p => find_child h p x.
Proof.
  rewrite descend_app. destruct (descend h n l) as [p|]; [|reflexivity].
  simpl. destruct (find_child h p x); reflexivity.
Qed.

(** On names, the walk of the resolver is [descend]. *)
Lemma Resolver_walk_descend segs :
  forallb proper_name segs = true ->
  forall n st,
    Resolver_walk (mk_Resolver "entry_name") n segs st
    = (match descend (heap st) n segs with
       | Some a => Ok a
       | None => Raise ChildResolverError
       end, st).
Proof.
  induction segs as [|s segs IH]; intros Hall n st; [reflexivity|].
  simpl in Hall. apply andb_true_iff in Hall as [Hs Hall].
  apply proper_name_walk in Hs as [H1 H2].
  simpl Resolver_walk. rewrite H1, H2.
  unfold bind, Resolver__get. simpl pathattr.
  change (List.find _ (children (heap st) n)) with (find_child (heap st) n s).
  simpl descend. destruct (find_child (heap st) n s) as [c|]; [|reflexivity].
  apply IH. exact Hall.
Qed.

Lemma lookup_descend st root segs :
  _resolver st = Some (mk_Resolver "entry_name") ->
  _tree st = Some root ->
  parent_of (heap st) root = None ->
  attr st root "entry_name" = VStr "Document" ->
  forallb proper_name segs = true ->
  Forall (fun x => no_slash x = true) segs ->
  lookup st (PyStr.join ("Document" :: segs)) = Ok (descend (heap st) root segs).
Proof.
  intros Hr Ht Hp Hn Hprop Hns. unfold lookup.
  rewrite (get_node_by_path_run _ st _ root Hr Ht).
  rewrite (root_of_no_parent _ _ Hp).
  unfold resolved, except_ChildResolverError, bind.
  rewrite (Resolver_get_absolute (mk_Resolver "entry_name") root _ st
             "Document" segs "Document" Hp Hn).
  - simpl String.eqb. cbv iota. rewrite Resolver_walk_descend by exact Hprop.
    destruct (descend (heap st) root segs); reflexivity.
  - apply split_join; [discriminate|]. constructor; [reflexivity | exact Hns].
Qed.

(* ===================================================================== *)
(** ** The invariant of a well-formed listing *)
(* ===================================================================== *)

Lemma getattr_push h o b name :
  getattr (h ++ [o]) b name
  = if decide (b = length h) then default VNone (ob_dict o !! name)
    else getattr h b name.
Proof.
  destruct (decide (b = length h)) as [->|Hne]; [apply getattr_last|].
  unfold getattr. destruct (decide (b < length h)%nat) as [Hlt|Hge].
  - rewrite lookup_app_l by exact Hlt. reflexivity.
  - rewrite !lookup_ge_None_2; [reflexivity | lia |].
    rewrite length_app. simpl. lia.
Qed.

Lemma getattr_old h o b name :
  (b < length h)%nat -> getattr (h ++ [o]) b name = getattr h b name.
Proof.
  intros Hlt. rewrite getattr_push. apply decide_False. lia.
Qed.

Lemma parent_of_old h o b :
  (b < length h)%nat -> parent_of (h ++ [o]) b = parent_of h b.
Proof. apply parent_of_app_l. Qed.

Lemma sound_parent_lt st a p :
  sound st -> parent_of (heap st) a = Some p ->
  (p < a)%nat /\ (a < length (heap st))%nat.
Proof.
  intros [Ho _] H. split; [exact (Ho a p H) | exact (parent_of_valid _ _ _ H)].
Qed.

(** The node reached along names has the path that was followed. *)
Lemma descend_path uniq seen root st segs :
  path_inv uniq seen root st ->
  Forall (exact (heap st)) segs ->
  forall a, descend (heap st) root segs = Some a ->
  attr st a "entry_path" = VStr (PyStr.join ("Document" :: segs)).
Proof.
  intros Hi. induction segs as [|x l IH] using rev_ind; intros Hx a.
  - simpl. intros [= <-]. apply (pi_root_path _ _ _ _ Hi).
  - apply Forall_app in Hx as [Hl Hx]. apply Forall_cons in Hx as [Hx _].
    rewrite descend_snoc.
    destruct (descend (heap st) root l) as [p|]; [|discriminate].
    intros H. change (find_child (heap st) p x = Some a) in H.
    apply find_child_Some in H as [Hp Hn]; [|exact Hx].
    destruct (pi_path _ _ _ _ Hi a p x Hp Hn) as (_ & _ & q & Hq & Ha).
    rewrite (IH Hl p eq_refl) in Hq. injection Hq as Hq. subst q.
    rewrite Ha. change ("Document" :: l ++ [x]) with (("Document" :: l) ++ [x]).
    rewrite join_snoc by discriminate. reflexivity.
Qed.

(** It is the root, or a named node with a parent. *)
Lemma descend_parent h root segs p :
  Forall (exact h) segs ->
  descend h root segs = Some p ->
  p = root \/
  exists n pp, getattr h p "entry_name" = VStr n /\ parent_of h p = Some pp.
Proof.
  destruct segs as [|x l _] using rev_ind.
  - simpl. intros _ [= <-]. left. reflexivity.
  - intros Hx. apply Forall_app in Hx as [_ Hx]. apply Forall_cons in Hx as [Hx _].
    rewrite descend_snoc.
    destruct (descend h root l) as [pp|]; [|discriminate].
    intros H. change (find_child h pp x = Some p) in H.
    apply find_child_Some in H as [Hp Hn]; [|exact Hx]. right. eauto.
Qed.

(** A change that keeps parents, names and paths keeps the invariant. *)
Lemma path_inv_same uniq seen root st st' :
  path_inv uniq seen root st ->
  sound st' ->
  _tree st' = _tree st -> _resolver st' = _resolver st ->
  (forall b, parent_of (heap st') b = parent_of (heap st) b) ->
  (forall b, attr st' b "entry_name" = attr st b "entry_name") ->
  (forall b, attr st' b "entry_path" = attr st b "entry_path") ->
  path_inv uniq seen root st'.
Proof.
  intros Hi Hs Ht Hr Hp Hn Hpa. destruct Hi.
  constructor.
  - exact Hs.
  - rewrite Hr. assumption.
  - rewrite Ht. assumption.
  - rewrite Hn. assumption.
  - rewrite Hpa. assumption.
  - intros a p n. rewrite Hp, Hn, !Hpa. apply pi_path0.
  - intros Hu a b p n. rewrite !Hp, !Hn. apply pi_sibling0. exact Hu.
  - intros a p. rewrite Hp. intros H.
    destruct (pi_parent0 a p H) as [E | (n & pp & E1 & E2)]; [left; exact E|].
    right. exists n, pp. rewrite Hn, Hp. auto.
  - intros Hu a p n. rewrite Hp, Hn, Hpa. apply pi_seen0. exact Hu.
  - intros a. rewrite Hn. apply pi_names0.
  - intros Hu a p n. rewrite Hp, Hn. apply pi_named0. exact Hu.
Qed.

(** One more node keeps the invariant when the node, if it has a parent
    and a name, is placed under the node of its parent path and is the
    only child of that name. *)
Lemma path_inv_push uniq seen seen' root st o :
  path_inv uniq seen root st ->
  (forall q, In q seen -> In q seen') ->
  (forall p, ob_parent o = Some p ->
     (p < length (heap st))%nat /\
     (p = root \/
      exists n pp, attr st p "entry_name" = VStr n /\
                   parent_of (heap st) p = Some pp)) ->
  (forall p n, ob_parent o = Some p ->
     default VNone (ob_dict o !! "entry_name") = VStr n ->
     proper_name n = true /\ no_slash n = true /\
     (exists q, attr st p "entry_path" = VStr q /\
                default VNone (ob_dict o !! "entry_path") = VStr (PyStr.slash q n)
                /\ (uniq -> In (PyStr.slash q n) seen')) /\
     (uniq -> forall b, parent_of (heap st) b = Some p ->
                attr st b "entry_name" <> VStr n) /\
     (uniq -> n <> "None")) ->
  (default VNone (ob_dict o !! "entry_name") = VNone \/
   exists n, default VNone (ob_dict o !! "entry_name") = VStr n) ->
  path_inv uniq seen' root (push o st).
Proof.
  intros Hi Hseen Hpar Hname Hty. destruct Hi.
  assert (Hroot : (root < length (heap st))%nat).
  { destruct pi_sound0 as [_ Hok]. apply (Hok root pi_tree0). }
  assert (Hs' : sound (push o st)).
  { apply sound_push; [assumption|]. intros p Hp. apply (Hpar p Hp). }
  assert (Hattr : forall b name, (b < length (heap st))%nat ->
            attr (push o st) b name = attr st b name).
  { intros b name Hb. unfold attr. simpl. apply getattr_old. exact Hb. }
  assert (Hcase : forall a p, parent_of (heap (push o st)) a = Some p ->
            (a = length (heap st) /\ ob_parent o = Some p) \/
            ((a < length (heap st))%nat /\ parent_of (heap st) a = Some p)).
  { intros a p. simpl. rewrite parent_of_push.
    destruct (decide (a = length (heap st))) as [->|Hne]; [left; auto|].
    intros H. right. split; [exact (parent_of_valid _ _ _ H) | exact H]. }
  assert (Hnew : forall name,
            attr (push o st) (length (heap st)) name
            = default VNone (ob_dict o !! name)).
  { intros name. unfold attr. simpl. apply getattr_last. }
  assert (Hplt : forall a p, parent_of (heap st) a = Some p ->
            (p < length (heap st))%nat).
  { intros a p H. destruct (sound_parent_lt st a p pi_sound0 H). lia. }
  constructor.
  - exact Hs'.
  - assumption.
  - assumption.
  - rewrite Hattr by exact Hroot. assumption.
  - rewrite Hattr by exact Hroot. assumption.
  - intros a p n Hp Hn. destruct (Hcase a p Hp) as [[-> Ho] | [Ha Hp']].
    + rewrite Hnew in Hn.
      destruct (Hname p n Ho Hn) as (H1 & H2 & (q & Hq & Hpa & _) & _ & _).
      split; [exact H1|]. split; [exact H2|]. exists q.
      rewrite Hattr by (apply (Hpar p Ho)). rewrite Hnew. auto.
    + rewrite Hattr in Hn by exact Ha.
      destruct (pi_path0 a p n Hp' Hn) as (H1 & H2 & q & Hq & Hpa).
      split; [exact H1|]. split; [exact H2|]. exists q.
      rewrite !Hattr by eauto. auto.
  - intros Hu a b p n Hpa Hpb Hna Hnb.
    destruct (Hcase a p Hpa) as [[-> Hoa] | [Ha Hpa']];
      destruct (Hcase b p Hpb) as [[-> Hob] | [Hb Hpb']].
    + reflexivity.
    + exfalso. rewrite Hnew in Hna. rewrite Hattr in Hnb by exact Hb.
      destruct (Hname p n Hoa Hna) as (_ & _ & _ & Huniq & _).
      exact (Huniq Hu b Hpb' Hnb).
    + exfalso. rewrite Hnew in Hnb. rewrite Hattr in Hna by exact Ha.
      destruct (Hname p n Hob Hnb) as (_ & _ & _ & Huniq & _).
      exact (Huniq Hu a Hpa' Hna).
    + rewrite Hattr in Hna, Hnb by assumption.
      exact (pi_sibling0 Hu a b p n Hpa' Hpb' Hna Hnb).
  - intros a p Hp.
    assert (Hold : p = root \/
              exists n pp, attr st p "entry_name" = VStr n /\
                           parent_of (heap st) p = Some pp).
    { destruct (Hcase a p Hp) as [[-> Ho] | [Ha Hp']];
        [apply (Hpar p Ho) | exact (pi_parent0 a p Hp')]. }
    assert (Hlt : (p < length (heap st))%nat).
    { destruct (Hcase a p Hp) as [[-> Ho] | [Ha Hp']];
        [apply (Hpar p Ho) | exact (Hplt a p Hp')]. }
    destruct Hold as [E | (n & pp & E1 & E2)]; [left; exact E|].
    right. exists n, pp. rewrite Hattr by exact Hlt. simpl.
    rewrite parent_of_old by exact Hlt. auto.
  - intros Hu a p n Hp Hn. destruct (Hcase a p Hp) as [[-> Ho] | [Ha Hp']].
    + rewrite Hnew in Hn. destruct (Hname p n Ho Hn) as (_ & _ & (q & _ & Hpa & Hin) & _).
      exists (PyStr.slash q n). rewrite Hnew. auto.
    + rewrite Hattr in Hn by exact Ha.
      destruct (pi_seen0 Hu a p n Hp' Hn) as (q & Hq & Hin).
      exists q. rewrite Hattr by exact Ha. auto.
  - intros a. unfold attr. simpl. rewrite getattr_push.
    destruct (decide (a = length (heap st))); [exact Hty | apply pi_names0].
  - intros Hu a p n Hp Hn. destruct (Hcase a p Hp) as [[-> Ho] | [Ha Hp']].
    + rewrite Hnew in Hn. destruct (Hname p n Ho Hn) as (_ & _ & _ & _ & Hnn).
      exact (Hnn Hu).
    + rewrite Hattr in Hn by exact Ha. exact (pi_named0 Hu a p n Hp' Hn).
Qed.

Lemma path_inv_weaken uniq seen seen' root st :
  path_inv uniq seen root st -> (forall q, In q seen -> In q seen') ->
  path_inv uniq seen' root st.
Proof.
  intros Hi Hseen. destruct Hi. constructor; try assumption.
  intros Hu a p n Hp Hn. destruct (pi_seen0 Hu a p n Hp Hn) as (q & Hq & Hin).
  exists q. auto.
Qed.

Lemma path_inv_root uniq seen root st :
  path_inv uniq seen root st -> root_inv root st.
Proof. intros []. constructor; assumption. Qed.

(** While the root is the node named ["Document"], the lookup of a path
    made of ["Document"] and names is the descent along the names. *)
Lemma root_lookup root st segs :
  root_inv root st ->
  forallb proper_name segs = true ->
  Forall (fun x => no_slash x = true) segs ->
  lookup st (PyStr.join ("Document" :: segs)) = Ok (descend (heap st) root segs).
Proof.
  intros Hi. apply lookup_descend.
  - apply (ri_resolver _ _ Hi).
  - apply (ri_tree _ _ Hi).
  - destruct (ri_sound _ _ Hi) as [_ Hok]. apply (Hok root (ri_tree _ _ Hi)).
  - apply (ri_root_name _ _ Hi).
Qed.

Lemma inv_lookup uniq seen root st segs :
  path_inv uniq seen root st ->
  forallb proper_name segs = true ->
  Forall (fun x => no_slash x = true) segs ->
  lookup st (PyStr.join ("Document" :: segs)) = Ok (descend (heap st) root segs).
Proof. intros Hi. apply root_lookup. exact (path_inv_root _ _ _ _ Hi). Qed.

Lemma last_cons {A} (l : list A) : forall a d, List.last (a :: l) d = List.last l a.
Proof.
  induction l as [|b l IH]; intros a d; [reflexivity|].
  change (List.last (a :: b :: l) d) with (List.last (b :: l) d).
  rewrite (IH b d), (IH b a). reflexivity.
Qed.

(** The parts of the path of a well-formed record. *)
Lemma well_formed_parts data :
  well_formed data = true ->
  exists path segs name,
    data !! "entry_path" = Some (Some path) /\
    data !! "entry_name" = Some (Some name) /\
    PyStr.split "/" path = "Document" :: segs ++ [name] /\
    forallb proper_name (segs ++ [name]) = true /\
    Forall (fun x => no_slash x = true) (segs ++ [name]) /\
    path = PyStr.slash (PyStr.join ("Document" :: segs)) name.
Proof.
  unfold well_formed.
  destruct (data !! "entry_path") as [[path|]|]; try discriminate.
  destruct (data !! "entry_name") as [[name|]|]; try discriminate.
  destruct (PyStr.split "/" path) as [|first [|seg segs']] eqn:Hsplit;
    try discriminate.
  intros [[H1 H2]%andb_true_iff H3]%andb_true_iff.
  apply String.eqb_eq in H1, H3. subst first.
  assert (Hparts : exists l, seg :: segs' = l ++ [name]).
  { exists (removelast (seg :: segs')).
    rewrite <- H3, <- (last_cons segs' seg ""). apply app_removelast_last. discriminate. }
  destruct Hparts as [l Hparts]. rewrite Hparts in *. clear Hparts H3.
  exists path, l, name.
  split; [reflexivity|]. split; [reflexivity|].
  split; [exact Hsplit|]. split; [exact H2|].
  pose proof (split_no_slash path) as Hns. rewrite Hsplit in Hns.
  apply Forall_cons in Hns as [_ Hns']. split; [exact Hns'|].
  rewrite <- (join_split path) at 1. rewrite Hsplit.
  change ("Document" :: l ++ [name]) with (("Document" :: l) ++ [name]).
  apply join_snoc. discriminate.
Qed.

Lemma forallb_app_l {A} (f : A -> bool) l1 l2 :
  forallb f (l1 ++ l2) = true -> forallb f l1 = true.
Proof. rewrite forallb_app. intros [H _]%andb_true_iff. exact H. Qed.

Lemma getattr_alter h f a b name :
  getattr (alter f a h) b name
  = match h !! b with
    | Some o => default VNone
                  (ob_dict (if decide (a = b) then f o else o) !! name)
    | None => VNone
    end.
Proof.
  unfold getattr. destruct (decide (a = b)) as [->|Hne].
  - rewrite list_lookup_alter_eq. destruct (h !! b); reflexivity.
  - rewrite list_lookup_alter_ne by exact Hne. reflexivity.
Qed.

(** *** The root and the names, on every well-formed listing *)

Lemma root_inv_push root st o :
  root_inv root st ->
  (forall p, ob_parent o = Some p -> (p < length (heap st))%nat) ->
  (default VNone (ob_dict o !! "entry_name") = VNone \/
   exists n, default VNone (ob_dict o !! "entry_name") = VStr n) ->
  root_inv root (push o st).
Proof.
  intros Hi Hp Hn. destruct Hi.
  assert (Hroot : (root < length (heap st))%nat).
  { destruct ri_sound0 as [_ Hok]. apply (Hok root ri_tree0). }
  constructor.
  - apply sound_push; assumption.
  - assumption.
  - assumption.
  - unfold attr. simpl. rewrite getattr_old by exact Hroot. assumption.
  - intros a. unfold attr. simpl. rewrite getattr_push.
    destruct (decide (a = length (heap st))); [exact Hn | apply ri_names0].
Qed.

Lemma place_root_inv root data st st' :
  root_inv root st -> place data st st' -> root_inv root st'.
Proof.
  intros Hi Hstep.
  destruct Hstep as [path pre d post parent Epath Hsplit Hpre Hpost Hcur Hparent].
  apply root_inv_push; [exact Hi | |].
  - intros p Hp. simpl in Hp. rewrite Hp in Hparent.
    exact (lookup_valid st _ p (ri_sound _ _ Hi) Hparent).
  - left. unfold placeholder_obj, base_obj. read_attr. reflexivity.
Qed.

(** The node that the lookup of the path of a well-formed record finds is
    not the root. *)
Lemma found_below_root root data st path a :
  root_inv root st -> well_formed data = true ->
  data !! "entry_path" = Some (Some path) ->
  lookup st path = Ok (Some a) -> a <> root.
Proof.
  intros Hi Hwf Epath0 Hfound.
  destruct (well_formed_parts data Hwf)
    as (path' & segs & name & Epath & Ename & Hsplit & Hprop & Hns & Hslash).
  assert (path = path') as -> by congruence.
  assert (Hfull : path' = PyStr.join ("Document" :: segs ++ [name])).
  { rewrite Hslash. change ("Document" :: segs ++ [name])
      with (("Document" :: segs) ++ [name]).
    symmetry. apply join_snoc. discriminate. }
  rewrite Hfull, (root_lookup _ _ _ Hi Hprop Hns) in Hfound.
  injection Hfound as Hfound. rewrite descend_snoc in Hfound.
  destruct (descend (heap st) root segs) as [p|]; [|discriminate].
  change (find_child (heap st) p name = Some a) in Hfound.
  apply find_child_parent in Hfound as [Hap _].
  destruct (ri_sound _ _ Hi) as [_ Hok].
  destruct (Hok root (ri_tree _ _ Hi)) as [_ Hnone].
  intros ->. congruence.
Qed.

Lemma settle_root_inv root data st st' :
  root_inv root st -> well_formed data = true ->
  settle data st st' -> root_inv root st'.
Proof.
  intros Hi Hwf Hstep.
  destruct Hstep as
    [path name ty parent o Epath Ename Ety Hparent Hkind Hop Hopath Honame
    |path a f Epath Hfound Hf].
  - apply root_inv_push; [exact Hi | |].
    + intros p Hp. rewrite Hop in Hp. rewrite Hp in Hparent.
      exact (lookup_valid st _ p (ri_sound _ _ Hi) Hparent).
    + rewrite Honame. simpl.
      destruct name as [x|]; [right; exists x; reflexivity | left; reflexivity].
  - pose proof (found_below_root root data st path a Hi Hwf Epath Hfound) as Hne.
    destruct Hi. constructor.
    + apply (settle_sound data st); [assumption|].
      apply (settle_update data st path a f); assumption.
    + assumption.
    + assumption.
    + unfold attr in *. simpl. rewrite getattr_alter. unfold getattr in *.
      destruct (heap st !! root) as [o|]; [|discriminate].
      rewrite decide_False by exact Hne. assumption.
    + intros b. specialize (ri_names0 b). unfold attr in *. simpl.
      rewrite getattr_alter. unfold getattr in ri_names0.
      destruct (heap st !! b) as [o|]; [|left; reflexivity].
      destruct (decide (a = b)); [|exact ri_names0].
      destruct (Hf o) as (_ & _ & _ & [E | (nm & E1 & E2)]).
      * rewrite E. exact ri_names0.
      * rewrite E2. simpl.
        destruct nm as [x|]; [right; exists x; reflexivity | left; reflexivity].
Qed.

Lemma places_root_inv root data st st' :
  root_inv root st -> rtc (place data) st st' -> root_inv root st'.
Proof.
  intros Hi H. induction H as [|st st1 st2 H1 _ IH]; [exact Hi|].
  apply IH. exact (place_root_inv _ _ _ _ Hi H1).
Qed.

Lemma process_record_root_inv root data st :
  root_inv root st -> well_formed data = true ->
  root_inv root (snd (process_record data st)).
Proof.
  intros Hi Hwf.
  destruct (process_record_steps data st) as (st1 & H1 & H2).
  pose proof (places_root_inv _ _ _ _ Hi H1) as Hi1.
  destruct H2 as [-> | H2]; [exact Hi1|].
  exact (settle_root_inv _ _ _ _ Hi1 Hwf H2).
Qed.

Lemma rebuild_loop_root_inv root jsondata :
  forall st,
    root_inv root st -> forallb well_formed jsondata = true ->
    root_inv root (snd (rebuild_loop jsondata st)).
Proof.
  induction jsondata as [|data rest IH]; intros st Hi Hwf; [exact Hi|].
  simpl in Hwf. apply andb_true_iff in Hwf as [Hwf1 Hwf2].
  pose proof (process_record_root_inv root data st Hi Hwf1) as Hi1.
  simpl. unfold bind.
  destruct (process_record data st) as [[u|e] st1]; simpl in Hi1.
  - exact (IH _ Hi1 Hwf2).
  - exact Hi1.
Qed.

Lemma root_inv_fresh_tree : root_inv 0 (fresh_tree []).
Proof.
  constructor.
  - exact sound_fresh_tree.
  - reflexivity.
  - reflexivity.
  - reflexivity.
  - intros [|a]; [right; exists "Document"; reflexivity | left; reflexivity].
Qed.

(** The tree built on an empty heap from a well-formed listing. *)
Lemma built_root_inv jsondata :
  forallb well_formed jsondata = true ->
  root_inv 0 (snd (rebuild_loop jsondata (fresh_tree []))).
Proof.
  intros Hwf.
  exact (rebuild_loop_root_inv 0 jsondata _ root_inv_fresh_tree Hwf).
Qed.

(** *** Paths and siblings, when no node is taken for another *)

Lemma names_not_None_parts data :
  names_not_None data = true ->
  Forall (fun x => x <> "None") (PyStr.split "/" (record_path data)).
Proof.
  unfold names_not_None. intros H. apply List.Forall_forall. intros x Hx.
  rewrite forallb_forall in H. specialize (H x Hx).
  apply negb_true_iff in H. apply String.eqb_neq in H. exact H.
Qed.

(** The parts of a record without a part ["None"] name no node without a
    name. *)
Lemma plain_guard st data :
  (forall a, attr st a "entry_name" = VNone \/
             exists n, attr st a "entry_name" = VStr n) ->
  names_not_None data = true ->
  Forall (exact (heap st)) (PyStr.split "/" (record_path data)).
Proof.
  intros Hn Hp. pose proof (names_not_None_parts data Hp) as H.
  apply List.Forall_forall. intros x Hx.
  rewrite List.Forall_forall in H. apply exact_plain; [exact Hn | exact (H x Hx)].
Qed.

(** Where every node has a name, no part does. *)
Lemma named_guard st (l : list string) :
  all_named st -> Forall (exact (heap st)) l.
Proof.
  intros Hn. apply List.Forall_forall. intros x _. apply exact_named. exact Hn.
Qed.

Lemma guard_parts (P : string -> Prop) data path segs name :
  data !! "entry_path" = Some (Some path) ->
  PyStr.split "/" path = "Document" :: segs ++ [name] ->
  Forall P (PyStr.split "/" (record_path data)) ->
  Forall P segs /\ P name.
Proof.
  intros Epath Hsplit. unfold record_path. rewrite Epath, Hsplit. intros H.
  apply Forall_cons in H as [_ H]. apply Forall_app in H as [H1 H2].
  apply Forall_cons in H2 as [H2 _]. auto.
Qed.

(** A placeholder keeps the invariant. *)
Lemma place_path_inv uniq seen root data st st' :
  path_inv uniq seen root st -> well_formed data = true ->
  Forall (exact (heap st)) (PyStr.split "/" (record_path data)) ->
  place data st st' -> path_inv uniq seen root st'.
Proof.
  intros Hi Hwf Hg Hstep.
  destruct (well_formed_parts data Hwf)
    as (path & segs & name & Epath & Ename & Hsplit & Hprop & Hns & Hslash).
  destruct (guard_parts _ data path segs name Epath Hsplit Hg) as [Hgs Hgn].
  assert (Hgall : Forall (exact (heap st)) (segs ++ [name])).
  { apply Forall_app. split; [exact Hgs | constructor; [exact Hgn | constructor]]. }
  destruct Hstep as [path0 pre d post parent Epath0 Hsplit0 Hpre Hpost Hcur Hparent].
  assert (path0 = path) as -> by congruence.
  rewrite Hsplit in Hsplit0.
  destruct pre as [|x pre']; [congruence|].
  injection Hsplit0 as <- Hrest.
  rewrite Hrest in Hprop, Hns, Hgall.
  apply forallb_app_l in Hprop. apply Forall_app in Hns as [Hns _].
  apply Forall_app in Hgall as [Hgpre _].
  rewrite (inv_lookup _ _ _ _ _ Hi Hprop Hns) in Hparent. injection Hparent as <-.
  apply (path_inv_push uniq seen seen root st _ Hi); [auto | | |].
  - intros p Hp. simpl in Hp. split.
    + apply (lookup_valid st (PyStr.join ("Document" :: pre')) p (pi_sound _ _ _ _ Hi)).
      rewrite (inv_lookup _ _ _ _ _ Hi Hprop Hns), Hp. reflexivity.
    + exact (descend_parent _ _ _ _ Hgpre Hp).
  - intros p n _ Hn. unfold placeholder_obj, base_obj in Hn.
    revert Hn. read_attr. discriminate.
  - left. unfold placeholder_obj, base_obj. read_attr. reflexivity.
Qed.

(** The node of a record, or its update, keeps the invariant; the path of
    the record is then among the paths seen. *)
Lemma settle_path_inv uniq seen root data st st' :
  path_inv uniq seen root st -> well_formed data = true ->
  Forall (exact (heap st)) (PyStr.split "/" (record_path data)) ->
  (uniq -> names_not_None data = true) ->
  (uniq -> is_document data = true -> ~ In (record_path data) seen) ->
  settle data st st' -> path_inv uniq (record_path data :: seen) root st'.
Proof.
  intros Hi Hwf Hg Hplain Hfresh Hstep.
  destruct (well_formed_parts data Hwf)
    as (path & segs & name & Epath & Ename & Hsplit & Hprop & Hns & Hslash).
  destruct (guard_parts _ data path segs name Epath Hsplit Hg) as [Hgs Hgn].
  assert (Hgall : Forall (exact (heap st)) (segs ++ [name])).
  { apply Forall_app. split; [exact Hgs | constructor; [exact Hgn | constructor]]. }
  assert (Hnot : uniq -> name <> "None").
  { intros Hu.
    exact (proj2 (guard_parts _ data path segs name Epath Hsplit
                    (names_not_None_parts data (Hplain Hu)))). }
  assert (Hrec : record_path data = path).
  { unfold record_path. rewrite Epath. reflexivity. }
  rewrite Hrec in *.
  assert (Hprop' : forallb proper_name segs = true) by exact (forallb_app_l _ _ _ Hprop).
  assert (Hns' : Forall (fun x => no_slash x = true) segs).
  { apply Forall_app in Hns as [H _]. exact H. }
  assert (Hname : proper_name name = true /\ no_slash name = true).
  { rewrite forallb_app in Hprop. apply andb_true_iff in Hprop as [_ Hp].
    simpl in Hp. rewrite andb_true_r in Hp.
    apply Forall_app in Hns as [_ Hn]. apply Forall_cons in Hn as [Hn _]. auto. }
  destruct Hname as [Hpn Hnn].
  assert (Hhead : PyStr.rsplit1_head "/" path = PyStr.join ("Document" :: segs)).
  { rewrite Hslash. apply rsplit1_head_slash. exact Hnn. }
  assert (Hfull : path = PyStr.join ("Document" :: segs ++ [name])).
  { rewrite Hslash. change ("Document" :: segs ++ [name])
      with (("Document" :: segs) ++ [name]).
    symmetry. apply join_snoc. discriminate. }
  destruct Hstep as
    [path0 name0 ty parent o Epath0 Ename0 Ety Hparent Hkind Hop Hopath Honame
    |path0 a f Epath0 Hfound Hf].
  - assert (path0 = path) as -> by congruence.
    assert (name0 = Some name) as -> by congruence.
    rewrite Hhead, (inv_lookup _ _ _ _ _ Hi Hprop' Hns') in Hparent.
    injection Hparent as Hparent.
    apply (path_inv_push uniq seen (path :: seen) root st o Hi).
    + intros q Hq. right. exact Hq.
    + intros p Hp. rewrite Hop, <- Hparent in Hp. split.
      * apply (lookup_valid st (PyStr.join ("Document" :: segs)) p (pi_sound _ _ _ _ Hi)).
        rewrite (inv_lookup _ _ _ _ _ Hi Hprop' Hns'), Hp. reflexivity.
      * exact (descend_parent _ _ _ _ Hgs Hp).
    + intros p n Hp Hn. rewrite Honame in Hn. simpl in Hn. injection Hn as <-.
      rewrite Hop, <- Hparent in Hp.
      pose proof (descend_path _ _ _ _ _ Hi Hgs p Hp) as Hq.
      split; [exact Hpn|]. split; [exact Hnn|]. split; [|split; [|exact Hnot]].
      * exists (PyStr.join ("Document" :: segs)). split; [exact Hq|].
        rewrite <- Hslash, Hopath. split; [reflexivity | left; reflexivity].
      * intros Hu b Hb Hbn.
        destruct Hkind as [[_ Hnone] | [Hnf Hdoc]].
        -- rewrite Hfull in Hnone.
           rewrite (inv_lookup _ _ _ _ _ Hi Hprop Hns) in Hnone.
           injection Hnone as Hnone. rewrite descend_snoc, Hp in Hnone.
           change (find_child (heap st) p name = None) in Hnone.
           exact (find_child_None _ _ _ _ Hnone Hb Hbn).
        -- apply (Hfresh Hu).
           { unfold is_document. rewrite Ety, Hnf, Hdoc. reflexivity. }
           destruct (pi_path _ _ _ _ Hi b p name Hb Hbn) as (_ & _ & q & Hq' & Hbp).
           destruct (pi_seen _ _ _ _ Hi Hu b p name Hb Hbn) as (q2 & Hq2 & Hin).
           unfold attr in Hq, Hq'. rewrite Hq in Hq'. injection Hq' as <-.
           rewrite Hbp in Hq2. injection Hq2 as <-. rewrite Hslash. exact Hin.
    + rewrite Honame. right. exists name. reflexivity.
  - assert (path0 = path) as -> by congruence.
    apply (path_inv_weaken uniq seen); [|intros q Hq; right; exact Hq].
    pose proof Hfound as Hfound0.
    rewrite Hfull, (inv_lookup _ _ _ _ _ Hi Hprop Hns) in Hfound.
    injection Hfound as Hfound. rewrite descend_snoc in Hfound.
    destruct (descend (heap st) root segs) as [p|]; [|discriminate].
    change (find_child (heap st) p name = Some a) in Hfound.
    apply find_child_Some in Hfound as [Hap Han]; [|exact Hgn].
    assert (Hpar : forall b, parent_of (alter f a (heap st)) b = parent_of (heap st) b).
    { intros b. apply parent_of_alter_same. intros o. apply (Hf o). }
    apply (path_inv_same uniq seen root st _ Hi).
    + apply (settle_sound data st); [apply (pi_sound _ _ _ _ Hi)|].
      apply (settle_update data st path a f); assumption.
    + reflexivity.
    + reflexivity.
    + exact Hpar.
    + intros b. unfold attr. simpl. rewrite getattr_alter. unfold getattr.
      destruct (heap st !! b) as [o|] eqn:Eb; [|reflexivity].
      destruct (decide (a = b)) as [->|_]; [|reflexivity].
      destruct (Hf o) as (_ & _ & _ & [E | (nm & E1 & E2)]).
      * rewrite E. reflexivity.
      * rewrite E2. assert (nm = Some name) as -> by congruence.
        unfold getattr in Han. rewrite Eb in Han. rewrite Han. reflexivity.
    + intros b. unfold attr. simpl. rewrite getattr_alter. unfold getattr.
      destruct (heap st !! b) as [o|] eqn:Eb; [|reflexivity].
      destruct (decide (a = b)) as [->|_]; [|reflexivity].
      destruct (Hf o) as (_ & _ & E & _). rewrite E. reflexivity.
Qed.

Lemma places_path_inv uniq seen root data st st' :
  path_inv uniq seen root st -> well_formed data = true ->
  names_not_None data = true ->
  rtc (place data) st st' -> path_inv uniq seen root st'.
Proof.
  intros Hi Hwf Hplain H. induction H as [|st st1 st2 H1 _ IH]; [exact Hi|].
  apply IH.
  exact (place_path_inv _ _ _ _ _ _ Hi Hwf
           (plain_guard _ _ (pi_names _ _ _ _ Hi) Hplain) H1).
Qed.

Lemma process_record_path_inv uniq seen root data st :
  path_inv uniq seen root st -> well_formed data = true ->
  names_not_None data = true ->
  (uniq -> is_document data = true -> ~ In (record_path data) seen) ->
  path_inv uniq (record_path data :: seen) root (snd (process_record data st)).
Proof.
  intros Hi Hwf Hplain Hfresh.
  destruct (process_record_steps data st) as (st1 & H1 & H2).
  pose proof (places_path_inv _ _ _ _ _ _ Hi Hwf Hplain H1) as Hi1.
  destruct H2 as [-> | H2].
  - apply (path_inv_weaken uniq seen); [exact Hi1 | intros q Hq; right; exact Hq].
  - exact (settle_path_inv _ _ _ _ _ _ Hi1 Hwf
             (plain_guard _ _ (pi_names _ _ _ _ Hi1) Hplain)
             (fun _ => Hplain) Hfresh H2).
Qed.

Lemma existsb_eqb_In x l : existsb (String.eqb x) l = false -> ~ In x l.
Proof.
  intros H Hin. assert (existsb (String.eqb x) l = true); [|congruence].
  apply existsb_exists. exists x. split; [exact Hin | apply String.eqb_refl].
Qed.

Lemma rebuild_loop_path_inv uniq root jsondata :
  forall seen st,
    path_inv uniq seen root st ->
    forallb well_formed jsondata = true ->
    forallb names_not_None jsondata = true ->
    (uniq -> documents_fresh seen jsondata = true) ->
    exists seen', path_inv uniq seen' root (snd (rebuild_loop jsondata st)).
Proof.
  induction jsondata as [|data rest IH]; intros seen st Hi Hwf Hplain Hfresh.
  - exists seen. exact Hi.
  - simpl in Hwf. apply andb_true_iff in Hwf as [Hwf1 Hwf2].
    simpl in Hplain. apply andb_true_iff in Hplain as [Hplain1 Hplain2].
    assert (Hi1 : path_inv uniq (record_path data :: seen) root
                    (snd (process_record data st))).
    { apply process_record_path_inv; [exact Hi | exact Hwf1 | exact Hplain1 |].
      intros Hu Hdoc. specialize (Hfresh Hu). simpl in Hfresh.
      apply andb_true_iff in Hfresh as [Hf _]. rewrite Hdoc in Hf. simpl in Hf.
      apply existsb_eqb_In. apply negb_true_iff. exact Hf. }
    simpl. unfold bind.
    destruct (process_record data st) as [[u|e] st1]; simpl in Hi1.
    + apply (IH _ _ Hi1 Hwf2 Hplain2). intros Hu. specialize (Hfresh Hu).
      simpl in Hfresh. apply andb_true_iff in Hfresh as [_ Hf]. exact Hf.
    + eexists. exact Hi1.
Qed.

Lemma path_inv_fresh_tree uniq : path_inv uniq [] 0 (fresh_tree []).
Proof.
  assert (Hnone : forall a, parent_of (heap (fresh_tree [])) a = None).
  { intros [|a]; reflexivity. }
  constructor.
  - exact sound_fresh_tree.
  - reflexivity.
  - reflexivity.
  - reflexivity.
  - reflexivity.
  - intros a p n Hp. rewrite Hnone in Hp. discriminate.
  - intros _ a b p n Hp. rewrite Hnone in Hp. discriminate.
  - intros a p Hp. rewrite Hnone in Hp. discriminate.
  - intros _ a p n Hp. rewrite Hnone in Hp. discriminate.
  - apply (ri_names _ _ root_inv_fresh_tree).
  - intros _ a p n Hp. rewrite Hnone in Hp. discriminate.
Qed.

(** The tree built on an empty heap from a well-formed listing in which
    no part of a path is ["None"]. *)
Lemma built_path_inv uniq jsondata :
  forallb well_formed jsondata = true ->
  forallb names_not_None jsondata = true ->
  (uniq -> documents_fresh [] jsondata = true) ->
  exists seen,
    path_inv uniq seen 0 (snd (rebuild_loop jsondata (fresh_tree []))).
Proof.
  intros Hwf Hplain Hfresh.
  exact (rebuild_loop_path_inv uniq 0 jsondata [] _ (path_inv_fresh_tree uniq)
           Hwf Hplain Hfresh).
Qed.

Lemma in_tree_parent t a root :
  in_tree t a = true -> _tree t = Some root -> a <> root ->
  exists p, parent_of (heap t) a = Some p.
Proof.
  unfold in_tree. intros H Hr Hne. rewrite Hr in H.
  apply andb_true_iff in H as [Hlt H]. apply Nat.ltb_lt in Hlt.
  destruct (length (heap t)) as [|fuel]; [lia|]. simpl in H.
  destruct (Nat.eqb_spec a root); [contradiction|].
  destruct (parent_of (heap t) a) as [p|]; [eauto | discriminate].
Qed.

Lemma in_tree_relocate_inv G ts b :
  closed G -> ordered (heap ts) -> is_Some (_tree ts) ->
  in_tree (relocate G ts) b = true ->
  exists a, b = (length G + a)%nat /\ in_tree ts a = true.
Proof.
  intros HG Ho Hr H. destruct (decide (b < length G)%nat) as [Hlt|Hge].
  - rewrite in_tree_old in H by assumption. discriminate.
  - exists (b - length G)%nat. split; [lia|].
    rewrite <- (in_tree_relocate G ts _ Ho).
    replace (length G + (b - length G))%nat with b by lia. exact H.
Qed.

(* ===================================================================== *)
(** ** Paths and names of the nodes of the tree *)
(* ===================================================================== *)

(** C6 (as amended).  For every listing whose records are well formed
    (the [entry_path] of a record is ["Document"] followed by one or more
    names, and its [entry_name] is the last of them) and in which no part
    of a path is the text ["None"], after [rebuild_tree], whether it
    returned or raised, every node of the tree other than the root that
    carries an [entry_name] has a parent, and its [entry_path] is the
    [entry_path] of its parent joined with its [entry_name] by ["/"].
    Placeholders carry no [entry_name]; the resolver reads the text of the
    name and takes them for nodes named ["None"], which is why that part
    is left out. *)
Theorem named_node_path (jsondata : list (gmap string (option string)))
    (t : RemoteTree) :
  closed (heap t) ->
  forallb well_formed jsondata = true ->
  forallb names_not_None jsondata = true ->
  let t' := snd (rebuild_tree jsondata t) in
  forall a n,
    in_tree t' a = true -> _tree t' <> Some a ->
    attr t' a "entry_name" = VStr n ->
    exists p q,
      parent_of (heap t') a = Some p /\
      attr t' p "entry_path" = VStr q /\
      attr t' a "entry_path" = VStr (PyStr.slash q n).
Proof.
  intros Hc Hwf Hplain t' b n Hin Hroot Hn. unfold t' in *. clear t'.
  rewrite (rebuild_tree_relocate jsondata t Hc) in *. simpl snd in *.
  destruct (built_path_inv False jsondata Hwf Hplain) as [seen Hi]; [tauto|].
  set (ts := snd (rebuild_loop jsondata (fresh_tree []))) in *.
  destruct (pi_sound _ _ _ _ Hi) as [Ho Hok].
  pose proof (pi_tree _ _ _ _ Hi) as Ht.
  destruct (in_tree_relocate_inv _ _ _ Hc Ho (ex_intro _ _ Ht) Hin) as (a & -> & Ha).
  rewrite attr_relocate in Hn.
  assert (Hne : a <> 0%nat).
  { intros ->. apply Hroot. simpl. rewrite Ht. reflexivity. }
  destruct (in_tree_parent ts a 0 Ha Ht Hne) as [p Hp].
  destruct (pi_path _ _ _ _ Hi a p n Hp Hn) as (_ & _ & q & Hq & Hpa).
  exists (length (heap t) + p)%nat, q.
  rewrite !attr_relocate. simpl heap. rewrite parent_of_relocate, Hp. auto.
Qed.

Lemma named_node_path_witness :
  let jsondata := [folder_record "Document/Reader" "Reader" (Some "false");
                   sample_document "Document/Reader/book.pdf" "book.pdf"] in
  let t' := snd (rebuild_tree jsondata RemoteTree_init) in
  closed (heap RemoteTree_init) /\
  forallb well_formed jsondata = true /\
  forallb names_not_None jsondata = true /\
  exists p q,
    parent_of (heap t') 2 = Some p /\
    attr t' p "entry_path" = VStr q /\
    attr t' 2 "entry_path" = VStr (PyStr.slash q "book.pdf").
Proof.
  intros jsondata t'.
  assert (Hwf : forallb well_formed jsondata = true) by (vm_compute; reflexivity).
  assert (Hplain : forallb names_not_None jsondata = true)
    by (vm_compute; reflexivity).
  split; [exact closed_nil|]. split; [exact Hwf|]. split; [exact Hplain|].
  apply (named_node_path jsondata RemoteTree_init closed_nil Hwf Hplain
           2%nat "book.pdf").
  - vm_compute. reflexivity.
  - vm_compute. discriminate.
  - vm_compute. reflexivity.
Defined.

(** In a tree built on an empty heap from a well-formed listing without
    repeated documents, the root and the named nodes that have a parent
    have different paths. *)
Lemma built_unique seen ts :
  path_inv True seen 0 ts ->
  forall a b,
    (a = 0%nat \/ exists n p, attr ts a "entry_name" = VStr n /\
                              parent_of (heap ts) a = Some p) ->
    (b = 0%nat \/ exists n p, attr ts b "entry_name" = VStr n /\
                              parent_of (heap ts) b = Some p) ->
    attr ts a "entry_path" = attr ts b "entry_path" ->
    a = b.
Proof.
  intros Hi a. induction (lt_wf a) as [a _ IH]. intros b Ha Hb E.
  assert (Hneq : forall c n p,
    attr ts c "entry_name" = VStr n -> parent_of (heap ts) c = Some p ->
    attr ts c "entry_path" <> VStr "Document").
  { intros c n p Hn Hp Hc.
    destruct (pi_path _ _ _ _ Hi c p n Hp Hn) as (_ & _ & q & _ & Hcp).
    rewrite Hcp in Hc. injection Hc as Hc.
    pose proof (no_slash_slash q n) as Hs. rewrite Hc in Hs. discriminate. }
  destruct Ha as [-> | (na & pa & Hna & Hpa)];
    destruct Hb as [-> | (nb & pb & Hnb & Hpb)].
  - reflexivity.
  - exfalso. apply (Hneq b nb pb Hnb Hpb). rewrite <- E.
    apply (pi_root_path _ _ _ _ Hi).
  - exfalso. apply (Hneq a na pa Hna Hpa). rewrite E.
    apply (pi_root_path _ _ _ _ Hi).
  - destruct (pi_path _ _ _ _ Hi a pa na Hpa Hna) as (_ & Hsa & qa & Hqa & Hap).
    destruct (pi_path _ _ _ _ Hi b pb nb Hpb Hnb) as (_ & Hsb & qb & Hqb & Hbp).
    rewrite Hap, Hbp in E. injection E as E.
    destruct (slash_inj _ _ _ _ Hsa Hsb E) as [-> ->].
    assert (pa = pb) as ->.
    { apply (IH pa).
      - destruct (sound_parent_lt ts a pa (pi_sound _ _ _ _ Hi) Hpa). lia.
      - exact (pi_parent _ _ _ _ Hi a pa Hpa).
      - exact (pi_parent _ _ _ _ Hi b pb Hpb).
      - rewrite Hqa, Hqb. reflexivity. }
    exact (pi_sibling _ _ _ _ Hi I a b pb nb Hpa Hpb Hna Hnb).
Qed.

(** C2 (as amended).  For every listing whose records are well formed, in
    which no part of a path is the text ["None"] and no document record
    comes at the path of an earlier record, after [rebuild_tree], whether
    it returned or raised (so also after every record of the listing), no
    two nodes of the tree that carry an [entry_name] have the same
    [entry_path]: a folder record whose path resolves updates the node
    found, and a document record makes one node. *)
Theorem named_nodes_unique (jsondata : list (gmap string (option string)))
    (t : RemoteTree) :
  closed (heap t) ->
  forallb well_formed jsondata = true ->
  forallb names_not_None jsondata = true ->
  documents_fresh [] jsondata = true ->
  let t' := snd (rebuild_tree jsondata t) in
  forall a b na nb,
    in_tree t' a = true -> in_tree t' b = true ->
    attr t' a "entry_name" = VStr na -> attr t' b "entry_name" = VStr nb ->
    attr t' a "entry_path" = attr t' b "entry_path" ->
    a = b.
Proof.
  intros Hc Hwf Hplain Hfresh t' a' b' na nb Hina Hinb Hna Hnb E.
  unfold t' in *. clear t'.
  rewrite (rebuild_tree_relocate jsondata t Hc) in *. simpl snd in *.
  destruct (built_path_inv True jsondata Hwf Hplain (fun _ => Hfresh)) as [seen Hi].
  set (ts := snd (rebuild_loop jsondata (fresh_tree []))) in *.
  destruct (pi_sound _ _ _ _ Hi) as [Ho Hok].
  pose proof (pi_tree _ _ _ _ Hi) as Ht.
  destruct (in_tree_relocate_inv _ _ _ Hc Ho (ex_intro _ _ Ht) Hina) as (a & -> & Ha).
  destruct (in_tree_relocate_inv _ _ _ Hc Ho (ex_intro _ _ Ht) Hinb) as (b & -> & Hb).
  rewrite !attr_relocate in *.
  assert (Hnode : forall c n, in_tree ts c = true -> attr ts c "entry_name" = VStr n ->
            c = 0%nat \/ exists n p, attr ts c "entry_name" = VStr n /\
                                    parent_of (heap ts) c = Some p).
  { intros c n Hin Hn. destruct (decide (c = 0%nat)) as [->|Hne]; [left; reflexivity|].
    destruct (in_tree_parent ts c 0 Hin Ht Hne) as [p Hp]. right. eauto. }
  f_equal. apply (built_unique seen ts Hi); eauto.
Qed.

Lemma named_nodes_unique_witness :
  let jsondata := [folder_record "Document/Reader" "Reader" (Some "false");
                   sample_document "Document/Reader/book.pdf" "book.pdf";
                   folder_record "Document/Reader" "Reader" (Some "true")] in
  let t' := snd (rebuild_tree jsondata RemoteTree_init) in
  closed (heap RemoteTree_init) /\
  forallb well_formed jsondata = true /\
  forallb names_not_None jsondata = true /\
  documents_fresh [] jsondata = true /\
  in_tree t' 1 = true /\
  attr t' 1 "entry_name" = VStr "Reader" /\
  attr t' 1 "entry_path" = attr t' 1 "entry_path" /\
  1%nat = 1%nat.
Proof.
  intros jsondata t'.
  assert (Hwf : forallb well_formed jsondata = true) by (vm_compute; reflexivity).
  assert (Hplain : forallb names_not_None jsondata = true)
    by (vm_compute; reflexivity).
  assert (Hfresh : documents_fresh [] jsondata = true) by (vm_compute; reflexivity).
  assert (Hin : in_tree t' 1 = true) by (vm_compute; reflexivity).
  assert (Hn : attr t' 1 "entry_name" = VStr "Reader") by (vm_compute; reflexivity).
  split; [exact closed_nil|]. split; [exact Hwf|]. split; [exact Hplain|].
  split; [exact Hfresh|].
  split; [exact Hin|]. split; [exact Hn|]. split; [reflexivity|].
  exact (named_nodes_unique jsondata RemoteTree_init closed_nil Hwf Hplain Hfresh
           1%nat 1%nat "Reader" "Reader" Hin Hin Hn Hn eq_refl).
Defined.

(* ===================================================================== *)
(** ** The outcome of a lookup *)
(* ===================================================================== *)

Lemma Resolver__get_raises r n name st e :
  fst (Resolver__get r n name st) = Raise e -> e = ChildResolverError.
Proof.
  unfold Resolver__get. destruct (List.find _ _); simpl; congruence.
Qed.

Lemma Resolver_walk_raises r parts :
  forall node st e,
    fst (Resolver_walk r node parts st) = Raise e ->
    e = ResolverError \/ e = ChildResolverError.
Proof.
  induction parts as [|part rest IH]; intros node st e; simpl; [discriminate|].
  destruct (String.eqb part "..").
  { destruct (parent_of (heap st) node); [apply IH|].
    simpl. intros [= <-]. auto. }
  destruct (String.eqb part "" || String.eqb part "."); [apply IH|].
  unfold bind. pose proof (Resolver__get_raises r node part st) as Hg.
  destruct (Resolver__get r node part st) as [[c|e'] st'].
  - apply IH.
  - simpl. intros [= <-]. right. apply Hg. reflexivity.
Qed.

(** Without [..] the walk ends on a node or misses a child. *)
Lemma Resolver_walk_down r parts :
  forallb (fun s => negb (String.eqb s "..")) parts = true ->
  forall n st,
    (exists a, fst (Resolver_walk r n parts st) = Ok a) \/
    fst (Resolver_walk r n parts st) = Raise ChildResolverError.
Proof.
  induction parts as [|part rest IH]; intros Hp n st; simpl.
  { left. exists n. reflexivity. }
  simpl in Hp. apply andb_true_iff in Hp as [Hpart Hrest].
  apply negb_true_iff in Hpart. rewrite Hpart.
  destruct (String.eqb part "" || String.eqb part "."); [apply IH; exact Hrest|].
  unfold bind. pose proof (Resolver__get_raises r n part st) as Hg.
  destruct (Resolver__get r n part st) as [[c|e'] st'].
  - pose proof (Resolver__get_state r n part st) as Hs.
    apply IH. exact Hrest.
  - right. simpl. f_equal. apply Hg. reflexivity.
Qed.

Lemma lookup_unset st path :
  _resolver st = None \/ _tree st = None -> lookup st path = Raise AttributeError.
Proof.
  unfold lookup, get_node_by_path, except_ChildResolverError, bind,
    read_resolver, read_tree.
  intros [H|H].
  - rewrite H. reflexivity.
  - destruct (_resolver st); cbn [lift_option ret raise]; [rewrite H|]; reflexivity.
Qed.

(** The lookup, once [rebuild_tree] has set the root and the resolver. *)
Lemma lookup_run st r t path :
  _resolver st = Some r -> _tree st = Some t ->
  parent_of (heap st) t = None ->
  lookup st path
  = match PyStr.split "/" path with
    | [] => Raise IndexError
    | first :: rest =>
        if String.eqb first "" then Raise ResolverError
        else if negb (String.eqb (_getattr (heap st) t (pathattr r)) first)
             then Raise ResolverError
             else match fst (Resolver_walk r t rest st) with
                  | Ok a => Ok (Some a)
                  | Raise ChildResolverError => Ok None
                  | Raise e => Raise e
                  end
    end.
Proof.
  intros Hr Ht Hp. unfold lookup.
  rewrite (get_node_by_path_run path st r t Hr Ht).
  rewrite (root_of_no_parent _ _ Hp).
  rewrite resolved_run by apply Resolver_get_state. cbn [fst].
  unfold Resolver_get, bind, Resolver__start.
  rewrite (root_of_no_parent _ _ Hp).
  change (PyStr.startswith "/" ("/" +:+ path)) with true. cbv iota.
  change (PyStr.split "/" ("/" +:+ path)) with ("" :: PyStr.split "/" path).
  simpl tail.
  destruct (PyStr.split "/" path) as [|first rest]; [reflexivity|].
  destruct (String.eqb first ""); [reflexivity|].
  destruct (negb _); reflexivity.
Qed.

Lemma lookup_raises st path e :
  lookup st path = Raise e -> e = AttributeError \/ e = ResolverError.
Proof.
  destruct (_resolver st) as [r|] eqn:Er.
  2:{ rewrite lookup_unset by auto. intros [= <-]. auto. }
  destruct (_tree st) as [t|] eqn:Et.
  2:{ rewrite lookup_unset by auto. intros [= <-]. auto. }
  unfold lookup. rewrite (get_node_by_path_run path st r t Er Et).
  rewrite resolved_run by apply Resolver_get_state. cbn [fst].
  unfold Resolver_get, bind, Resolver__start.
  change (PyStr.startswith "/" ("/" +:+ path)) with true. cbv iota.
  change (PyStr.split "/" ("/" +:+ path)) with ("" :: PyStr.split "/" path).
  simpl tail.
  pose proof (split_nonempty "/" path) as Hne.
  destruct (PyStr.split "/" path) as [|first rest]; [contradiction|].
  destruct (String.eqb first ""); [simpl; intros [= <-]; auto|].
  destruct (negb _); [simpl; intros [= <-]; auto|]. simpl fst. simpl snd.
  generalize (root_of (heap st) (root_of (heap st) t)). intros n.
  pose proof (Resolver_walk_raises r rest n st) as Hw.
  destruct (Resolver_walk r n rest st) as [[o|e'] st']; simpl in Hw.
  - simpl. discriminate.
  - destruct (Hw e' eq_refl) as [-> | ->]; simpl.
    + intros [= <-]. auto.
    + discriminate.
Qed.

(** X1.  [get_node_by_path] only reads: whatever the path and the state,
    and whether it returns or raises, it leaves the instance and every
    node as they were.  The only exceptions that it lets out are
    [AttributeError] and [ResolverError]: a [ChildResolverError] is always
    caught and turned into [None]. *)
Theorem get_node_by_path_reads_only (path : string) (st : RemoteTree) :
  snd (get_node_by_path path st) = st /\
  forall e, fst (get_node_by_path path st) = Raise e ->
    e = AttributeError \/ e = ResolverError.
Proof.
  split; [apply get_node_by_path_state|].
  intros e. apply lookup_raises.
Qed.

(** X2.  Once [_tree] and [_resolver] are set, the first part of the path
    decides whether a lookup raises: when it is empty or is not the text
    of the path attribute of the root ([str] of it: ["None"] for a root
    without that attribute), [get_node_by_path] raises [ResolverError];
    when it is, and no later part is [..], the call returns (a node or
    [None]) and does not raise; when it is and the next part is [..], the
    call raises [ResolverError] again, for the step above the root. *)
Theorem get_node_by_path_outcome (st : RemoteTree) (r : Resolver) (t : nat)
    (path first : string) (rest : list string) :
  _resolver st = Some r -> _tree st = Some t ->
  parent_of (heap st) t = None ->
  PyStr.split "/" path = first :: rest ->
  let known :=
    negb (String.eqb first "")
    && String.eqb (_getattr (heap st) t (pathattr r)) first in
  (known = false -> lookup st path = Raise ResolverError) /\
  (known = true ->
   forallb (fun s => negb (String.eqb s "..")) rest = true ->
   exists o, lookup st path = Ok o) /\
  (known = true -> hd "" rest = ".." ->
   lookup st path = Raise ResolverError).
Proof.
  intros Hr Ht Hp Hsplit known. subst known.
  rewrite (lookup_run st r t path Hr Ht Hp), Hsplit.
  destruct (String.eqb first ""); simpl.
  { split; [reflexivity|]. split; discriminate. }
  destruct (String.eqb _ first); simpl.
  2:{ split; [reflexivity|]. split; discriminate. }
  split; [discriminate|]. split.
  - intros _ Hrest.
    destruct (Resolver_walk_down r rest Hrest t st) as [[a Ha] | Hc].
    + rewrite Ha. eauto.
    + rewrite Hc. eauto.
  - intros _ Hup. destruct rest as [|s rest']; [discriminate|].
    simpl in Hup. subst s. simpl. rewrite Hp. reflexivity.
Qed.

Lemma get_node_by_path_outcome_witness :
  let st := snd (rebuild_tree [folder_record "Document/Reader" "Reader" (Some "false")]
                   RemoteTree_init) in
  lookup st "Reader/x" = Raise ResolverError /\
  (exists o, lookup st "Document/Reader/./x" = Ok o) /\
  lookup st "Document/../Document" = Raise ResolverError.
Proof.
  intros st.
  pose proof (get_node_by_path_outcome st (mk_Resolver "entry_name") 0%nat
                "Reader/x" "Reader" ["x"] eq_refl eq_refl eq_refl eq_refl)
    as (H1 & _ & _).
  pose proof (get_node_by_path_outcome st (mk_Resolver "entry_name") 0%nat
                "Document/Reader/./x" "Document" ["Reader"; "."; "x"]
                eq_refl eq_refl eq_refl eq_refl) as (_ & H2 & _).
  pose proof (get_node_by_path_outcome st (mk_Resolver "entry_name") 0%nat
                "Document/../Document" "Document" [".."; "Document"]
                eq_refl eq_refl eq_refl eq_refl) as (_ & _ & H3).
  split; [apply H1; reflexivity|].
  split; [apply H2; reflexivity | apply H3; reflexivity].
Defined.

(* ===================================================================== *)
(** ** The nodes that a lookup returns *)
(* ===================================================================== *)

Lemma in_tree_child st n c :
  sound st -> in_tree st n = true -> parent_of (heap st) c = Some n ->
  in_tree st c = true.
Proof.
  intros [Ho Hok] Hn Hc. unfold in_tree in *.
  destruct (_tree st) as [root|]; [|discriminate].
  apply andb_true_iff in Hn as [Hn1 Hn2]. apply Nat.ltb_lt in Hn1.
  pose proof (parent_of_valid _ _ _ Hc) as Hlt. pose proof (Ho _ _ Hc) as Hnc.
  apply andb_true_iff. split; [apply Nat.ltb_lt; exact Hlt|].
  destruct (length (heap st)) as [|k] eqn:Ek; [lia|].
  simpl. destruct (c =? root)%nat; [reflexivity|]. rewrite Hc.
  rewrite <- Hn2. apply reaches_fuel; [exact Ho | lia | lia].
Qed.

Lemma in_tree_up st n p :
  sound st -> in_tree st n = true -> parent_of (heap st) n = Some p ->
  in_tree st p = true.
Proof.
  intros [Ho Hok] Hn Hp. unfold in_tree in *.
  destruct (_tree st) as [root|] eqn:Et; [|discriminate].
  apply andb_true_iff in Hn as [Hn1 Hn2]. apply Nat.ltb_lt in Hn1.
  pose proof (Ho _ _ Hp) as Hpn.
  apply andb_true_iff. split; [apply Nat.ltb_lt; lia|].
  destruct (length (heap st)) as [|k] eqn:Ek; [lia|].
  simpl in Hn2. destruct (Nat.eqb_spec n root) as [->|Hne].
  { destruct (Hok root Et) as [_ Hnone]. congruence. }
  rewrite Hp in Hn2. rewrite <- Hn2.
  apply reaches_fuel; [exact Ho | lia | lia].
Qed.

Lemma Resolver_walk_in_tree r parts st :
  sound st ->
  forall node a,
    in_tree st node = true ->
    fst (Resolver_walk r node parts st) = Ok a ->
    in_tree st a = true.
Proof.
  intros Hs. induction parts as [|part rest IH]; intros node a Hn.
  - simpl. intros [= <-]. exact Hn.
  - simpl. destruct (String.eqb part "..").
    { destruct (parent_of (heap st) node) as [p|] eqn:Hp; [|discriminate].
      apply IH. exact (in_tree_up st node p Hs Hn Hp). }
    destruct (String.eqb part "" || String.eqb part "."); [apply IH; exact Hn|].
    unfold bind. pose proof (Resolver__get_state r node part st) as Hst.
    destruct (Resolver__get r node part st) as [[c|e] st'] eqn:E; simpl in Hst;
      subst st'; [|discriminate].
    apply IH. apply Resolver__get_child in E as [E _].
    exact (in_tree_child st node c Hs Hn E).
Qed.

Lemma in_tree_root st root :
  tree_ok st -> _tree st = Some root -> in_tree st root = true.
Proof.
  intros Hok Ht. unfold in_tree. rewrite Ht.
  destruct (Hok root Ht) as [Hlt _].
  apply andb_true_iff. split; [apply Nat.ltb_lt; exact Hlt|].
  destruct (length (heap st)); simpl; rewrite Nat.eqb_refl; reflexivity.
Qed.

Lemma lookup_in_tree st path a :
  sound st -> lookup st path = Ok (Some a) -> in_tree st a = true.
Proof.
  intros Hs.
  destruct (_resolver st) as [r|] eqn:Er.
  2:{ rewrite lookup_unset by auto. discriminate. }
  destruct (_tree st) as [t|] eqn:Et.
  2:{ rewrite lookup_unset by auto. discriminate. }
  destruct Hs as [Ho Hok]. destruct (Hok t Et) as [Hlt Hp].
  rewrite (lookup_run st r t path Er Et Hp).
  destruct (PyStr.split "/" path) as [|first rest]; [discriminate|].
  destruct (String.eqb first ""); [discriminate|].
  destruct (negb _); [discriminate|].
  pose proof (Resolver_walk_in_tree r rest st (conj Ho Hok) t a) as Hw.
  destruct (Resolver_walk r t rest st) as [[o|[]] st']; simpl in *;
    try discriminate.
  intros [= ->]. apply Hw; [|reflexivity].
  apply in_tree_root; assumption.
Qed.

(** A lookup in a tree built behind the nodes [G] of earlier builds. *)
Lemma lookup_relocated G ts path :
  closed G -> tree_ok ts ->
  lookup (relocate G ts) path
  = map_outcome (fmap (Nat.add (length G))) (lookup ts path).
Proof.
  intros HG Hok. unfold lookup.
  destruct (get_node_by_path_relocate G HG path ts Hok) as [E _].
  rewrite E. reflexivity.
Qed.

(** The state after a rebuild: the loop run on an empty heap, moved behind
    the nodes that were there. *)
Lemma rebuilt jsondata t :
  closed (heap t) ->
  exists ts,
    snd (rebuild_tree jsondata t) = relocate (heap t) ts /\
    ts = snd (rebuild_loop jsondata (fresh_tree [])) /\
    sound ts /\ _tree ts = Some 0%nat.
Proof.
  intros Hc. exists (snd (rebuild_loop jsondata (fresh_tree []))).
  rewrite (rebuild_tree_relocate jsondata t Hc). simpl.
  split; [reflexivity|]. split; [reflexivity|]. split.
  - apply rebuild_loop_sound, sound_fresh_tree.
  - apply (rebuild_loop_tree jsondata []).
Qed.

(** X3.  After a rebuild, whether it returned or raised, every node that
    [get_node_by_path] returns is a node of the heap and belongs to the
    tree: the parent links lead from it to the root [_tree].  A lookup never
    hands out a detached node or a node of an earlier build. *)
Theorem get_node_by_path_in_tree
    (jsondata : list (gmap string (option string))) (t : RemoteTree)
    (path : string) (a : nat) :
  closed (heap t) ->
  let t' := snd (rebuild_tree jsondata t) in
  lookup t' path = Ok (Some a) ->
  (a < length (heap t'))%nat /\ (length (heap t) <= a)%nat /\
  in_tree t' a = true.
Proof.
  intros Hc t'. subst t'.
  destruct (rebuilt jsondata t Hc) as (ts & -> & _ & Hs & Ht).
  rewrite (lookup_relocated _ _ _ Hc (proj2 Hs)).
  destruct (lookup ts path) as [[a0|]|e] eqn:E; try discriminate.
  simpl. intros [= <-].
  pose proof (lookup_in_tree ts path a0 Hs E) as Hin.
  pose proof (lookup_valid ts path a0 Hs E) as Hlt.
  rewrite length_relocate.
  repeat split; [lia | lia |].
  rewrite (in_tree_relocate _ _ _ (proj1 Hs)). exact Hin.
Qed.

Lemma get_node_by_path_in_tree_witness :
  let jsondata := [folder_record "Document/Reader" "Reader" (Some "false");
                   sample_document "Document/Reader/book.pdf" "book.pdf"] in
  let t' := snd (rebuild_tree jsondata RemoteTree_init) in
  closed (heap RemoteTree_init) /\
  lookup t' "Document/Reader/book.pdf" = Ok (Some 2%nat) /\
  in_tree t' 2 = true.
Proof.
  intros jsondata t'.
  assert (Hl : lookup t' "Document/Reader/book.pdf" = Ok (Some 2%nat))
    by (vm_compute; reflexivity).
  split; [exact closed_nil|]. split; [exact Hl|].
  exact (proj2 (proj2 (get_node_by_path_in_tree jsondata RemoteTree_init
                         "Document/Reader/book.pdf" 2%nat closed_nil Hl))).
Defined.

(* ===================================================================== *)
(** ** The nodes of earlier builds *)
(* ===================================================================== *)

(** X4.  [rebuild_tree] does not touch the nodes that were in the heap when
    it was called: every one of them is left as it was, none of them
    belongs to the new tree, and the new root is a new node, allocated
    behind them.  So a node obtained before a rebuild keeps its fields but
    is not a node of the tree any more. *)
Theorem rebuild_tree_leaves_old_nodes
    (jsondata : list (gmap string (option string))) (t : RemoteTree) :
  closed (heap t) ->
  let t' := snd (rebuild_tree jsondata t) in
  _tree t' = Some (length (heap t)) /\
  _resolver t' = Some (mk_Resolver "entry_name") /\
  take (length (heap t)) (heap t') = heap t /\
  forall a, (a < length (heap t))%nat ->
    heap t' !! a = heap t !! a /\ in_tree t' a = false.
Proof.
  intros Hc t'. subst t'.
  destruct (rebuild_loop_extends jsondata (fresh_tree (heap t))) as (Et & Er & _).
  rewrite <- rebuild_tree_start in Et, Er.
  destruct (rebuilt jsondata t Hc) as (ts & E & _ & Hs & Ht).
  rewrite E in *. clear E.
  split; [exact Et|]. split; [exact Er|].
  split.
  { simpl. rewrite take_app_length. reflexivity. }
  intros a Ha. split.
  - simpl. apply lookup_app_l. exact Ha.
  - apply in_tree_old; [exact Hc | rewrite Ht; eauto | exact Ha].
Qed.

Lemma rebuild_tree_leaves_old_nodes_witness :
  let t := snd (rebuild_tree [folder_record "Document/A" "A" (Some "false")]
                  RemoteTree_init) in
  let t' := snd (rebuild_tree [] t) in
  closed (heap t) /\
  heap t' !! 1%nat = heap t !! 1%nat /\ in_tree t 1 = true /\ in_tree t' 1 = false.
Proof.
  intros t t'.
  assert (Hc : closed (heap t)).
  { apply (rebuild_tree_closed _ RemoteTree_init). exact closed_nil. }
  split; [exact Hc|].
  destruct (rebuild_tree_leaves_old_nodes [] t Hc) as (_ & _ & _ & H).
  destruct (H 1%nat) as [H1 H2]; [vm_compute; lia|].
  split; [exact H1|]. split; [vm_compute; reflexivity | exact H2].
Defined.

(* ===================================================================== *)
(** ** The exceptions of a rebuild *)
(* ===================================================================== *)

Section Raises.
Variable S : exn -> Prop.

Lemma raises_ret {A} (a : A) : raises S (ret a).
Proof. intros st e. discriminate. Qed.

Lemma raises_raise {A} e : S e -> raises S (@raise A e).
Proof. intros H st e' [= <-]. exact H. Qed.

Lemma raises_bind {A B} (m : M A) (k : A -> M B) :
  raises S m -> (forall a, raises S (k a)) -> raises S (bind m k).
Proof.
  intros Hm Hk st e. unfold bind. specialize (Hm st).
  destruct (m st) as [[a|e'] st']; simpl in *.
  - apply Hk.
  - intros [= <-]. apply Hm. reflexivity.
Qed.

Lemma raises_update_heap f : raises S (update_heap f).
Proof. intros st e. discriminate. Qed.

Lemma raises_setattr a name v : raises S (setattr a name v).
Proof. apply raises_update_heap. Qed.

Lemma raises_set_parent a p : raises S (set_parent a p).
Proof. apply raises_update_heap. Qed.

Lemma raises_new c : raises S (new c).
Proof. intros st e. discriminate. Qed.

Hypothesis S_Key : S KeyError.
Hypothesis S_Value : S ValueError.
Hypothesis S_Attribute : S AttributeError.
Hypothesis S_Resolver : S ResolverError.

Lemma raises_item data key : raises S (item data key).
Proof.
  unfold item. destruct (data !! key); [apply raises_ret | apply raises_raise, S_Key].
Qed.

Lemma raises_todatetime x : raises S (todatetime x).
Proof.
  intros st e. rewrite todatetime_run.
  destruct x as [s|]; [destruct (Strptime.strptime s)|]; simpl; try discriminate.
  intros [= <-]. exact S_Value.
Qed.

Lemma raises_int_or_None x : raises S (int_or_None x).
Proof.
  intros st e. rewrite int_or_None_run.
  destruct x as [s|]; [destruct (PyStr.int s)|]; simpl; try discriminate.
  intros [= <-]. exact S_Value.
Qed.

Lemma raises_get_node_by_path path : raises S (get_node_by_path path).
Proof.
  intros st e H.
  destruct (lookup_raises st path e H) as [-> | ->]; assumption.
Qed.

Lemma raises_path (o : option string) : raises S (lift_option AttributeError o).
Proof. destruct o; [apply raises_ret | apply raises_raise, S_Attribute]. Qed.

Ltac esc :=
  repeat match goal with
    | |- raises _ (bind _ _) => apply raises_bind; [|intro]
    | |- raises _ (ret _) => apply raises_ret
    | |- raises _ (item _ _) => apply raises_item
    | |- raises _ (todatetime _) => apply raises_todatetime
    | |- raises _ (int_or_None _) => apply raises_int_or_None
    | |- raises _ (get_node_by_path _) => apply raises_get_node_by_path
    | |- raises _ (new _) => apply raises_new
    | |- raises _ (setattr _ _ _) => apply raises_setattr
    | |- raises _ (set_parent _ _) => apply raises_set_parent
    | |- raises _ (lift_option AttributeError _) => apply raises_path
    | |- raises _ (match ?x with _ => _ end) => destruct x
    end.

Lemma raises_DPNode_init self parent p n ty id created is_new :
  raises S (DPNode_init self parent p n ty id created is_new).
Proof. unfold DPNode_init. esc. Qed.

Lemma raises_DPFolderNode_new parent p n ty id created is_new src pfid :
  raises S (DPFolderNode_new parent p n ty id created is_new src pfid).
Proof.
  unfold DPFolderNode_new, DPFolderNode_init. esc. apply raises_DPNode_init.
Qed.

Lemma raises_DPDocumentNode_new parent p n ty id created is_new
    author cur dtype rev size mime modified title total :
  raises S (DPDocumentNode_new parent p n ty id created is_new
              author cur dtype rev size mime modified title total).
Proof.
  unfold DPDocumentNode_new, DPDocumentNode_init. esc. apply raises_DPNode_init.
Qed.

Lemma raises__create_path_loop ds :
  forall lastpath, raises S (_create_path_loop lastpath ds).
Proof.
  induction ds as [|d ds IH]; intros lastpath; simpl; esc;
    first [ apply IH | apply raises_DPFolderNode_new ].
Qed.

Lemma raises__create_path path : raises S (_create_path path).
Proof. unfold _create_path. esc. apply raises__create_path_loop. Qed.

Lemma raises_update_node node data : raises S (update_node node data).
Proof. unfold update_node. esc. Qed.

Lemma raises_create_folder parent data : raises S (create_folder parent data).
Proof. unfold create_folder. esc. apply raises_DPFolderNode_new. Qed.

Lemma raises_create_document parent data : raises S (create_document parent data).
Proof. unfold create_document. esc. apply raises_DPDocumentNode_new. Qed.

Lemma raises__create_update_node data : raises S (_create_update_node data).
Proof.
  unfold _create_update_node. esc;
    first [ apply raises_update_node | apply raises_create_folder
          | apply raises_create_document ].
Qed.

Lemma raises_process_record data : raises S (process_record data).
Proof.
  unfold process_record. esc;
    first [ apply raises__create_path | apply raises__create_update_node ].
Qed.

Lemma raises_rebuild_loop jsondata : raises S (rebuild_loop jsondata).
Proof.
  induction jsondata as [|data rest IH]; simpl; esc;
    first [ apply raises_process_record | exact IH ].
Qed.

Lemma raises_rebuild_tree jsondata : raises S (rebuild_tree jsondata).
Proof.
  unfold rebuild_tree.
  apply raises_bind.
  { unfold _create_tree_root, DPNode_new. esc. apply raises_DPNode_init. }
  intros root. apply raises_bind; [intros st e; discriminate|]. intros _.
  apply raises_bind; [intros st e; discriminate|]. intros _.
  apply raises_rebuild_loop.
Qed.
End Raises.

(** X5.  When [rebuild_tree] does not return, it raises [KeyError] (a field
    is missing from a record), [AttributeError] (a path is [null]),
    [ValueError] (a date or a number is not accepted) or [ResolverError]
    (a path does not start at the root, or [..] steps above it).  It never
    lets a [ChildResolverError] or an [IndexError] out. *)
Theorem rebuild_tree_exceptions
    (jsondata : list (gmap string (option string))) (t : RemoteTree) (e : exn) :
  fst (rebuild_tree jsondata t) = Raise e ->
  e = KeyError \/ e = AttributeError \/ e = ValueError \/ e = ResolverError.
Proof.
  apply (raises_rebuild_tree
           (fun e => e = KeyError \/ e = AttributeError \/ e = ValueError
                     \/ e = ResolverError)); auto.
Qed.

Lemma rebuild_tree_exceptions_witness :
  let jsondata := [document_record "Document/bad.pdf" "bad.pdf"
                     (Some "2017-13-45T00:00:00Z") (Some "1") (Some "2") (Some "3")] in
  fst (rebuild_tree jsondata RemoteTree_init) = Raise ValueError /\
  (ValueError = KeyError \/ ValueError = AttributeError \/
   ValueError = ValueError \/ ValueError = ResolverError).
Proof.
  intros jsondata.
  assert (H : fst (rebuild_tree jsondata RemoteTree_init) = Raise ValueError)
    by (vm_compute; reflexivity).
  split; [exact H|].
  exact (rebuild_tree_exceptions jsondata RemoteTree_init ValueError H).
Defined.

(* ===================================================================== *)
(** ** The cases of [_create_update_node] *)
(* ===================================================================== *)

Lemma bind_item {B} data key (k : option string -> M B) st :
  bind (item data key) k st
  = match data !! key with
    | Some v => k v st
    | None => (Raise KeyError, st)
    end.
Proof. unfold bind, item. destruct (data !! key); reflexivity. Qed.

Lemma bind_lookup {B} path (k : option nat -> M B) st :
  bind (get_node_by_path path) k st
  = match lookup st path with
    | Ok o => k o st
    | Raise e => (Raise e, st)
    end.
Proof.
  unfold bind. rewrite get_node_by_path_lookup.
  destruct (lookup st path); reflexivity.
Qed.

Lemma _create_update_node_run data st :
  _create_update_node data st
  = match data !! "entry_path" with
    | None => (Raise KeyError, st)
    | Some None => (Raise AttributeError, st)
    | Some (Some path) =>
        match lookup st (PyStr.rsplit1_head "/" path) with
        | Raise e => (Raise e, st)
        | Ok parent =>
            match data !! "entry_type" with
            | None => (Raise KeyError, st)
            | Some ty =>
                if str_is ty "folder" then
                  match lookup st path with
                  | Raise e => (Raise e, st)
                  | Ok None => create_folder parent data st
                  | Ok (Some node) => update_node node data st
                  end
                else if str_is ty "document" then create_document parent data st
                else (Ok tt, st)
            end
        end
    end.
Proof.
  unfold _create_update_node. rewrite bind_item.
  destruct (data !! "entry_path") as [[path|]|]; [|reflexivity|reflexivity].
  unfold bind at 1. cbn [lift_option ret]. rewrite bind_lookup.
  destruct (lookup st _) as [parent|e]; [|reflexivity].
  rewrite bind_item. destruct (data !! "entry_type") as [ty|]; [|reflexivity].
  destruct (str_is ty "folder").
  - rewrite bind_lookup. destruct (lookup st path) as [[node|]|e]; reflexivity.
  - destruct (str_is ty "document"); reflexivity.
Qed.

(** X6.  A record whose [entry_type] is neither ["folder"] nor ["document"]
    (or is [null]) is passed over by [_create_update_node]: no node is
    built or changed, and the call returns as soon as the path is a string
    and the lookup of the parent path does not raise. *)
Theorem other_entry_types_are_passed_over
    (data : gmap string (option string)) (st : RemoteTree)
    (ty : option string) :
  data !! "entry_type" = Some ty ->
  str_is ty "folder" = false -> str_is ty "document" = false ->
  snd (_create_update_node data st) = st /\
  forall path parent,
    data !! "entry_path" = Some (Some path) ->
    lookup st (PyStr.rsplit1_head "/" path) = Ok parent ->
    _create_update_node data st = (Ok tt, st).
Proof.
  intros Hty Hf Hd. rewrite _create_update_node_run, Hty, Hf, Hd. split.
  - destruct (data !! "entry_path") as [[path|]|]; [|reflexivity|reflexivity].
    destruct (lookup st _); reflexivity.
  - intros path parent -> ->. reflexivity.
Qed.

Lemma other_entry_types_are_passed_over_witness :
  let data : gmap string (option string) :=
    list_to_map [("entry_path", Some "Document/scan.png");
                 ("entry_name", Some "scan.png"); ("entry_type", Some "image")] in
  let st := snd (rebuild_tree [] RemoteTree_init) in
  _create_update_node data st = (Ok tt, st).
Proof.
  intros data st.
  apply (proj2 (other_entry_types_are_passed_over data st (Some "image")
                  eq_refl eq_refl eq_refl) "Document/scan.png" (Some 0%nat));
    reflexivity.
Defined.

(* ===================================================================== *)
(** ** A record that lacks a field *)
(* ===================================================================== *)

Ltac read_items :=
  repeat (rewrite bind_item;
          match goal with
          | |- context [?d !! ?k] =>
              lazymatch goal with
              | H : d !! k = _ |- _ => rewrite H
              | _ => destruct (d !! k) eqn:?; [|reflexivity]
              end
          end).

Lemma create_folder_missing parent data st key :
  In key folder_fields -> data !! key = None ->
  create_folder parent data st = (Raise KeyError, st).
Proof.
  intros Hin Hkey. unfold create_folder. read_items.
  exfalso. simpl in Hin.
  repeat (destruct Hin as [<- | Hin]; [congruence|]). exact Hin.
Qed.

Lemma create_document_missing parent data st key :
  In key document_fields -> data !! key = None ->
  create_document parent data st = (Raise KeyError, st).
Proof.
  intros Hin Hkey. unfold create_document. read_items.
  exfalso. simpl in Hin.
  repeat (destruct Hin as [<- | Hin]; [congruence|]). exact Hin.
Qed.

(** X7.  The construction of a node reads all the fields of the record
    before it allocates the node.  So a document record that lacks one of
    the fifteen fields of a document, or a folder record at a new path that
    lacks one of the seven fields of a folder, builds nothing:
    [_create_update_node] raises and leaves the state as it was; the
    exception is [KeyError] when the path is a string and the lookup of the
    parent path returns. *)
Theorem record_without_a_field_builds_nothing
    (data : gmap string (option string)) (st : RemoteTree)
    (ty : option string) (key : string) :
  data !! "entry_type" = Some ty ->
  (str_is ty "folder" = false /\ str_is ty "document" = true /\
   In key document_fields) \/
  (str_is ty "folder" = true /\ lookup st (record_path data) = Ok None /\
   In key folder_fields) ->
  data !! key = None ->
  exists e,
    _create_update_node data st = (Raise e, st) /\
    forall path parent,
      data !! "entry_path" = Some (Some path) ->
      lookup st (PyStr.rsplit1_head "/" path) = Ok parent ->
      e = KeyError.
Proof.
  intros Hty Hcase Hkey. rewrite _create_update_node_run. unfold record_path in Hcase.
  destruct (data !! "entry_path") as [[path|]|] eqn:Ep.
  2:{ exists AttributeError. split; [reflexivity | discriminate]. }
  2:{ exists KeyError. split; [reflexivity | discriminate]. }
  destruct (lookup st (PyStr.rsplit1_head "/" path)) as [parent|e] eqn:El.
  2:{ exists e. split; [reflexivity|]. intros ? ? [= <-]. rewrite El. discriminate. }
  rewrite Hty. exists KeyError. split; [|reflexivity].
  destruct Hcase as [(Hf & Hd & Hin) | (Hf & Hl & Hin)].
  - rewrite Hf, Hd. apply (create_document_missing parent data st key Hin Hkey).
  - rewrite Hf, Hl. apply (create_folder_missing parent data st key Hin Hkey).
Qed.

Lemma record_without_a_field_builds_nothing_witness :
  let data := delete "title" (sample_document "Document/book.pdf" "book.pdf") in
  let st := snd (rebuild_tree [] RemoteTree_init) in
  _create_update_node data st = (Raise KeyError, st).
Proof.
  intros data st.
  destruct (record_without_a_field_builds_nothing data st (Some "document") "title")
    as (e & He & Hk).
  - vm_compute. reflexivity.
  - left. split; [reflexivity|]. split; [reflexivity|].
    simpl. do 13 right. left. reflexivity.
  - vm_compute. reflexivity.
  - rewrite He. rewrite (Hk "Document/book.pdf" (Some 0%nat)); reflexivity.
Defined.

(* ===================================================================== *)
(** ** The node that a record gives *)
(* ===================================================================== *)

Lemma bind_setattr {B} a name v (k : unit -> M B) st :
  bind (setattr a name v) k st
  = k tt (mk_RemoteTree (alter (set_attr_obj name v) a (heap st))
            (_tree st) (_resolver st)).
Proof. reflexivity. Qed.

Lemma bind_todatetime {B} x (k : value -> M B) st :
  bind (todatetime x) k st
  = match parse_date x with
    | Some v => k v st
    | None => (Raise ValueError, st)
    end.
Proof.
  unfold bind. rewrite todatetime_parse. destruct (parse_date x); reflexivity.
Qed.

Lemma update_node_run a data st name ty id created d is_new pfid :
  data !! "entry_name" = Some name ->
  data !! "entry_type" = Some ty ->
  data !! "entry_id" = Some id ->
  data !! "created_date" = Some created -> parse_date created = Some d ->
  data !! "is_new" = Some is_new ->
  data !! "parent_folder_id" = Some pfid ->
  update_node a data st
  = (Ok tt,
     mk_RemoteTree
       (alter (update_obj name ty id d is_new
                 (get_or_None data "document_source") pfid) a (heap st))
       (_tree st) (_resolver st)).
Proof.
  intros Hn Ht Hi Hc Hd Hw Hp. unfold update_node.
  rewrite bind_item, Hn, bind_setattr.
  rewrite bind_item, Ht, bind_setattr.
  rewrite bind_item, Hi, bind_setattr.
  rewrite bind_item, Hc, bind_todatetime, Hd, bind_setattr.
  rewrite bind_item, Hw, bind_setattr, bind_setattr.
  rewrite bind_item, Hp.
  unfold setattr, update_heap. cbn [heap _tree _resolver].
  rewrite !alter_alter. reflexivity.
Qed.

(** X8.  A folder record whose path resolves to a node updates that node
    in place: when the record has the fields of a folder and its date is
    accepted, [_create_update_node] returns, no node is added, every other
    node is left as it was, and the node found keeps its class, its parent
    and its [entry_path] and takes the name, type, id, date, flag
    ([bool(is_new)]), source and parent id of the record. *)
Theorem folder_record_updates_in_place
    (data : gmap string (option string)) (st : RemoteTree)
    (path : string) (parent : option nat) (a : nat)
    (name ty id created is_new pfid : option string) (d : value) :
  data !! "entry_path" = Some (Some path) ->
  data !! "entry_name" = Some name ->
  data !! "entry_type" = Some ty -> str_is ty "folder" = true ->
  data !! "entry_id" = Some id ->
  data !! "created_date" = Some created -> parse_date created = Some d ->
  data !! "is_new" = Some is_new ->
  data !! "parent_folder_id" = Some pfid ->
  lookup st (PyStr.rsplit1_head "/" path) = Ok parent ->
  lookup st path = Ok (Some a) ->
  (a < length (heap st))%nat ->
  let st' := snd (_create_update_node data st) in
  fst (_create_update_node data st) = Ok tt /\
  _tree st' = _tree st /\ _resolver st' = _resolver st /\
  heap st'
  = alter (update_obj name ty id d is_new
             (get_or_None data "document_source") pfid) a (heap st) /\
  length (heap st') = length (heap st) /\
  (forall b, b <> a -> heap st' !! b = heap st !! b) /\
  (forall b, parent_of (heap st') b = parent_of (heap st) b) /\
  ob_class <$> heap st' !! a = ob_class <$> heap st !! a /\
  attr st' a "entry_path" = attr st a "entry_path" /\
  attr st' a "entry_name" = of_json name /\
  attr st' a "entry_type" = of_json ty /\
  attr st' a "entry_id" = of_json id /\
  attr st' a "created_date" = d /\
  attr st' a "is_new" = VBool (py_bool (of_json is_new)) /\
  attr st' a "document_source" = of_json (get_or_None data "document_source") /\
  attr st' a "parent_folder_id" = of_json pfid.
Proof.
  intros Hpath Hn Ht Hf Hi Hc Hd Hw Hp Hlp Hl Ha st'. subst st'.
  rewrite _create_update_node_run, Hpath, Hlp, Ht, Hf, Hl.
  rewrite (update_node_run a data st name ty id created d is_new pfid)
    by assumption.
  cbn [fst snd heap _tree _resolver].
  destruct (lookup_lt_is_Some_2 (heap st) a Ha) as [o Ho].
  split; [reflexivity|]. split; [reflexivity|]. split; [reflexivity|].
  split; [reflexivity|].
  split; [apply length_alter|].
  split; [intros b Hb; apply list_lookup_alter_ne; congruence|].
  split; [intros b; apply parent_of_alter_same; intros o'; reflexivity|].
  split.
  { rewrite list_lookup_alter, Ho.
    destruct (decide (a = a)); [reflexivity | congruence]. }
  unfold attr. cbn [heap]. rewrite !getattr_alter, Ho.
  destruct (decide (a = a)) as [_|]; [|congruence].
  unfold getattr. rewrite Ho. unfold update_obj.
  repeat split; read_attr; reflexivity.
Qed.

Lemma folder_record_updates_in_place_witness :
  let st := snd (rebuild_tree [folder_record "Document/A" "A" (Some "true")]
                   RemoteTree_init) in
  let data := folder_record "Document/A" "B" None in
  let st' := snd (_create_update_node data st) in
  length (heap st') = length (heap st) /\
  attr st' 1 "entry_path" = attr st 1 "entry_path" /\
  attr st' 1 "entry_name" = VStr "B" /\
  attr st' 1 "is_new" = VBool false.
Proof.
  intros st data st'.
  pose proof (folder_record_updates_in_place data st "Document/A" (Some 0%nat)
                1%nat (Some "B") (Some "folder")
                (Some "6dd5f5a9-4136-4591-960a-c7f04d129f45")
                (Some "2018-10-06T07:38:12Z") None
                (Some "9d9eced8-18be-4b82-b9d3-5a9ebddfe8dc")
                (VDate (mk_datetime 2018 10 6 7 38 12))) as H.
  assert (H1 : lookup st (PyStr.rsplit1_head "/" "Document/A") = Ok (Some 0%nat))
    by (vm_compute; reflexivity).
  assert (H2 : lookup st "Document/A" = Ok (Some 1%nat))
    by (vm_compute; reflexivity).
  assert (H3 : (1 < length (heap st))%nat) by (vm_compute; lia).
  assert (H4 : parse_date (Some "2018-10-06T07:38:12Z")
               = Some (VDate (mk_datetime 2018 10 6 7 38 12)))
    by (vm_compute; reflexivity).
  specialize (H eq_refl eq_refl eq_refl eq_refl eq_refl eq_refl H4 eq_refl
                eq_refl H1 H2 H3).
  destruct H as (_ & _ & _ & _ & Hlen & _ & _ & _ & Hp & Hn & _ & _ & _ & Hw & _).
  split; [exact Hlen|]. split; [exact Hp|]. split; [exact Hn | exact Hw].
Defined.

Lemma create_document_run parent data st path name ty id created is_new
    author cur dtype rev size mime modified title total d m cp fs tp :
  data !! "entry_path" = Some path ->
  data !! "entry_name" = Some name ->
  data !! "entry_type" = Some ty ->
  data !! "entry_id" = Some id ->
  data !! "created_date" = Some created -> parse_date created = Some d ->
  data !! "is_new" = Some is_new ->
  data !! "author" = Some author ->
  data !! "current_page" = Some cur -> parse_int cur = Some cp ->
  data !! "document_type" = Some dtype ->
  data !! "file_revision" = Some rev ->
  data !! "file_size" = Some size -> parse_int size = Some fs ->
  data !! "mime_type" = Some mime ->
  data !! "modified_date" = Some modified -> parse_date modified = Some m ->
  data !! "title" = Some title ->
  data !! "total_page" = Some total -> parse_int total = Some tp ->
  create_document parent data st
  = (Ok tt,
     push (document_obj parent path name ty id d is_new author dtype rev mime
             m title cp fs tp) st).
Proof.
  intros. unfold create_document. read_items.
  unfold bind. rewrite DPDocumentNode_new_run, DPDocumentNode_init_last.
  cbv zeta.
  repeat match goal with H : parse_date _ = Some _ |- _ => rewrite H; clear H end.
  repeat match goal with H : parse_int _ = Some _ |- _ => rewrite H; clear H end.
  reflexivity.
Qed.

Lemma create_folder_run parent data st path name ty id created is_new pfid d :
  data !! "entry_path" = Some path ->
  data !! "entry_name" = Some name ->
  data !! "entry_type" = Some ty ->
  data !! "entry_id" = Some id ->
  data !! "created_date" = Some created -> parse_date created = Some d ->
  data !! "is_new" = Some is_new ->
  data !! "parent_folder_id" = Some pfid ->
  create_folder parent data st
  = (Ok tt,
     push (folder_obj parent path name ty id d is_new
             (get_or_None data "document_source") pfid) st).
Proof.
  intros. unfold create_folder. read_items.
  unfold bind. rewrite DPFolderNode_new_run, DPFolderNode_init_last.
  cbv zeta.
  repeat match goal with H : parse_date _ = Some _ |- _ => rewrite H; clear H end.
  reflexivity.
Qed.

(** X9.  A document record that has its fifteen fields, whose two dates
    are accepted and whose three numbers are integers or [null], gives one
    new [DPDocumentNode] at the end of the heap, whatever is at its path
    already: its parent is the node found at the parent path (none when
    nothing is found), and its attributes are exactly the fields of the
    record, the dates and numbers converted.  The [parent_folder_id] of the
    record is not kept. *)
Theorem document_record_builds_node
    (data : gmap string (option string)) (st : RemoteTree)
    (path : string) (parent : option nat)
    (name ty id created is_new author cur dtype rev size mime modified title
       total : option string) (d m cp fs tp : value) :
  data !! "entry_path" = Some (Some path) ->
  data !! "entry_name" = Some name ->
  data !! "entry_type" = Some ty ->
  str_is ty "folder" = false -> str_is ty "document" = true ->
  data !! "entry_id" = Some id ->
  data !! "created_date" = Some created -> parse_date created = Some d ->
  data !! "is_new" = Some is_new ->
  data !! "author" = Some author ->
  data !! "current_page" = Some cur -> parse_int cur = Some cp ->
  data !! "document_type" = Some dtype ->
  data !! "file_revision" = Some rev ->
  data !! "file_size" = Some size -> parse_int size = Some fs ->
  data !! "mime_type" = Some mime ->
  data !! "modified_date" = Some modified -> parse_date modified = Some m ->
  data !! "title" = Some title ->
  data !! "total_page" = Some total -> parse_int total = Some tp ->
  lookup st (PyStr.rsplit1_head "/" path) = Ok parent ->
  _create_update_node data st
  = (Ok tt,
     push (document_obj parent (Some path) name ty id d is_new author dtype
             rev mime m title cp fs tp) st).
Proof.
  intros Hpath Hn Ht Hf Hd. intros.
  rewrite _create_update_node_run, Hpath.
  match goal with H : lookup _ _ = _ |- _ => rewrite H end.
  rewrite Ht, Hf, Hd.
  apply (create_document_run parent data st (Some path) name ty id created
           is_new author cur dtype rev size mime modified title total);
    assumption.
Qed.

Lemma document_record_builds_node_witness :
  let st := snd (rebuild_tree [] RemoteTree_init) in
  let data := sample_document "Document/book.pdf" "book.pdf" in
  let st' := snd (_create_update_node data st) in
  fst (_create_update_node data st) = Ok tt /\
  length (heap st') = 2%nat /\
  parent_of (heap st') 1 = Some 0%nat /\
  attr st' 1 "file_size" = VInt 19093553 /\
  attr st' 1 "parent_folder_id" = VNone.
Proof.
  intros st data st'. subst st'.
  rewrite (document_record_builds_node data st "Document/book.pdf" (Some 0%nat)
             (Some "book.pdf") (Some "document")
             (Some "f1d09cac-1832-48b7-b060-4d39cbc0e582")
             (Some "2017-12-14T13:55:00Z") (Some "true") (Some "lsr") (Some "1")
             (Some "normal") (Some "05873ef2024a.1.0") (Some "19093553")
             (Some "application/pdf") (Some "2017-12-14T13:55:00Z")
             (Some "Print The Quantum Theory of Magnetism.tif") (Some "436")
             (VDate (mk_datetime 2017 12 14 13 55 0))
             (VDate (mk_datetime 2017 12 14 13 55 0))
             (VInt 1) (VInt 19093553) (VInt 436));
    try reflexivity.
  vm_compute. repeat split.
Defined.

(** X10.  A folder record at a path where no node is found gives one new
    [DPFolderNode] at the end of the heap, when it has the seven fields of
    a folder and its date is accepted: its parent is the node found at the
    parent path, and its attributes are exactly the fields of the record,
    with [document_source] read as [None] when the record has none. *)
Theorem folder_record_builds_node
    (data : gmap string (option string)) (st : RemoteTree)
    (path : string) (parent : option nat)
    (name ty id created is_new pfid : option string) (d : value) :
  data !! "entry_path" = Some (Some path) ->
  data !! "entry_name" = Some name ->
  data !! "entry_type" = Some ty -> str_is ty "folder" = true ->
  data !! "entry_id" = Some id ->
  data !! "created_date" = Some created -> parse_date created = Some d ->
  data !! "is_new" = Some is_new ->
  data !! "parent_folder_id" = Some pfid ->
  lookup st (PyStr.rsplit1_head "/" path) = Ok parent ->
  lookup st path = Ok None ->
  _create_update_node data st
  = (Ok tt,
     push (folder_obj parent (Some path) name ty id d is_new
             (get_or_None data "document_source") pfid) st).
Proof.
  intros Hpath Hn Ht Hf Hi Hc Hd Hw Hp Hlp Hl.
  rewrite _create_update_node_run, Hpath, Hlp, Ht, Hf, Hl.
  apply (create_folder_run parent data st (Some path) name ty id created
           is_new pfid); assumption.
Qed.

Lemma folder_record_builds_node_witness :
  let st := snd (rebuild_tree [] RemoteTree_init) in
  let data := delete "document_source" (folder_record "Document/A" "A" None) in
  let st' := snd (_create_update_node data st) in
  fst (_create_update_node data st) = Ok tt /\
  length (heap st') = 2%nat /\
  parent_of (heap st') 1 = Some 0%nat /\
  attr st' 1 "entry_name" = VStr "A" /\
  attr st' 1 "document_source" = VNone /\
  attr st' 1 "is_new" = VNone.
Proof.
  intros st data st'. subst st'.
  rewrite (folder_record_builds_node data st "Document/A" (Some 0%nat)
             (Some "A") (Some "folder")
             (Some "6dd5f5a9-4136-4591-960a-c7f04d129f45")
             (Some "2018-10-06T07:38:12Z") None
             (Some "9d9eced8-18be-4b82-b9d3-5a9ebddfe8dc")
             (VDate (mk_datetime 2018 10 6 7 38 12)));
    try reflexivity.
  vm_compute. repeat split.
Defined.

(* ===================================================================== *)
(** ** Lookups in the tree of a well-formed listing *)
(* ===================================================================== *)

(** The state after the rebuild of a well-formed listing. *)
Lemma rebuilt_root jsondata t :
  closed (heap t) ->
  forallb well_formed jsondata = true ->
  exists ts,
    snd (rebuild_tree jsondata t) = relocate (heap t) ts /\
    ts = snd (rebuild_loop jsondata (fresh_tree [])) /\
    root_inv 0 ts.
Proof.
  intros Hc Hwf.
  exists (snd (rebuild_loop jsondata (fresh_tree []))).
  split; [|split; [reflexivity | exact (built_root_inv jsondata Hwf)]].
  rewrite (rebuild_tree_relocate jsondata t Hc). reflexivity.
Qed.

(** The same, when no part of a path is ["None"]. *)
Lemma rebuilt_well_formed uniq jsondata t :
  closed (heap t) ->
  forallb well_formed jsondata = true ->
  forallb names_not_None jsondata = true ->
  (uniq -> documents_fresh [] jsondata = true) ->
  exists ts seen,
    snd (rebuild_tree jsondata t) = relocate (heap t) ts /\
    path_inv uniq seen 0 ts.
Proof.
  intros Hc Hwf Hplain Hfresh.
  destruct (built_path_inv uniq jsondata Hwf Hplain Hfresh) as (seen & Hi).
  exists (snd (rebuild_loop jsondata (fresh_tree []))), seen.
  split; [|exact Hi].
  rewrite (rebuild_tree_relocate jsondata t Hc). reflexivity.
Qed.

Lemma clean_path path segs :
  PyStr.split "/" path = "Document" :: segs ->
  path = PyStr.join ("Document" :: segs) /\
  Forall (fun x => no_slash x = true) segs.
Proof.
  intros Hsplit. split.
  - rewrite <- Hsplit. symmetry. apply join_split.
  - pose proof (split_no_slash path) as H. rewrite Hsplit in H.
    apply Forall_cons in H as [_ H]. exact H.
Qed.

Lemma descend_name h root segs x a :
  exact h x ->
  descend h root (segs ++ [x]) = Some a -> getattr h a "entry_name" = VStr x.
Proof.
  intros Hx.
  rewrite descend_snoc. destruct (descend h root segs) as [p|]; [|discriminate].
  intros H. change (find_child h p x = Some a) in H.
  apply find_child_Some in H as [_ H]; [exact H | exact Hx].
Qed.

(** Parts that are not ["None"] name no node without a name. *)
Lemma plain_parts_guard uniq seen root st segs :
  path_inv uniq seen root st ->
  forallb (fun s => negb (String.eqb s "None")) segs = true ->
  Forall (exact (heap st)) segs.
Proof.
  intros Hi H. apply List.Forall_forall. intros x Hx.
  rewrite forallb_forall in H. specialize (H x Hx).
  apply negb_true_iff in H. apply String.eqb_neq in H.
  exact (exact_plain _ x (pi_names _ _ _ _ Hi) H).
Qed.

(** X11.  In the tree built from a well-formed listing in which no part of
    a path is the text ["None"], the node that [get_node_by_path] finds
    for a path made of ["Document"] and names other than ["None"] has that
    path as its [entry_path], and the last name as its [entry_name]: such
    a lookup never returns the node of another path, nor a placeholder. *)
Theorem found_node_has_the_path
    (jsondata : list (gmap string (option string))) (t : RemoteTree)
    (path : string) (segs : list string) (a : nat) :
  closed (heap t) ->
  forallb well_formed jsondata = true ->
  forallb names_not_None jsondata = true ->
  PyStr.split "/" path = "Document" :: segs ->
  forallb proper_name segs = true ->
  forallb (fun s => negb (String.eqb s "None")) segs = true ->
  let t' := snd (rebuild_tree jsondata t) in
  lookup t' path = Ok (Some a) ->
  attr t' a "entry_path" = VStr path /\
  attr t' a "entry_name" = VStr (List.last segs "Document").
Proof.
  intros Hc Hwf Hplain Hsplit Hprop Hsegs t'. subst t'.
  destruct (rebuilt_well_formed False jsondata t Hc Hwf Hplain)
    as (ts & seen & -> & Hi); [contradiction|].
  destruct (clean_path path segs Hsplit) as [Hpath Hns].
  pose proof (plain_parts_guard _ _ _ _ segs Hi Hsegs) as Hg.
  rewrite (lookup_relocated _ _ _ Hc (proj2 (pi_sound _ _ _ _ Hi))).
  rewrite Hpath at 1. rewrite (inv_lookup _ _ _ _ _ Hi Hprop Hns).
  destruct (descend (heap ts) 0 segs) as [a0|] eqn:Hd; [|discriminate].
  simpl. intros [= <-]. rewrite !attr_relocate. split.
  - rewrite Hpath. exact (descend_path _ _ _ _ _ Hi Hg a0 Hd).
  - destruct segs as [|s0 segs'].
    + simpl in Hd. injection Hd as <-. exact (pi_root_name _ _ _ _ Hi).
    + destruct (exists_last (l := s0 :: segs')) as (l & x & E); [discriminate|].
      rewrite E in *. rewrite last_last.
      apply Forall_app in Hg as [_ Hx]. apply Forall_cons in Hx as [Hx _].
      exact (descend_name _ _ _ _ _ Hx Hd).
Qed.

Lemma found_node_has_the_path_witness :
  let jsondata := [folder_record "Document/Reader" "Reader" (Some "false");
                   sample_document "Document/Reader/book.pdf" "book.pdf"] in
  let t' := snd (rebuild_tree jsondata RemoteTree_init) in
  lookup t' "Document/Reader/book.pdf" = Ok (Some 2%nat) /\
  attr t' 2 "entry_path" = VStr "Document/Reader/book.pdf" /\
  attr t' 2 "entry_name" = VStr "book.pdf".
Proof.
  intros jsondata t'.
  assert (Hl : lookup t' "Document/Reader/book.pdf" = Ok (Some 2%nat))
    by (vm_compute; reflexivity).
  split; [exact Hl|].
  apply (found_node_has_the_path jsondata RemoteTree_init
           "Document/Reader/book.pdf" ["Reader"; "book.pdf"] 2%nat closed_nil);
    [reflexivity | reflexivity | reflexivity | reflexivity | reflexivity
    | exact Hl].
Defined.

(** Every named node of the tree is reached from the root through the
    names of its path. *)
Lemma named_node_descend seen root st :
  path_inv True seen root st ->
  forall k a, (a < k)%nat ->
    (a = root \/ exists n p, attr st a "entry_name" = VStr n /\
                             parent_of (heap st) a = Some p) ->
    exists segs,
      forallb proper_name segs = true /\
      Forall (fun x => no_slash x = true) segs /\
      Forall (exact (heap st)) segs /\
      descend (heap st) root segs = Some a.
Proof.
  intros Hi. induction k as [|k IH]; intros a Hk Ha; [lia|].
  destruct Ha as [-> | (n & p & Hn & Hp)].
  { exists []. split; [reflexivity|]. split; [constructor|].
    split; [constructor | reflexivity]. }
  destruct (sound_parent_lt st a p (pi_sound _ _ _ _ Hi) Hp) as [Hlt _].
  destruct (IH p) as (segs & Hprop & Hns & Hg & Hd);
    [lia | exact (pi_parent _ _ _ _ Hi a p Hp) |].
  destruct (pi_path _ _ _ _ Hi a p n Hp Hn) as (Hpn & Hnn & _).
  assert (Hx : exact (heap st) n).
  { exact (exact_plain _ n (pi_names _ _ _ _ Hi) (pi_named _ _ _ _ Hi I a p n Hp Hn)). }
  exists (segs ++ [n]). split; [|split; [|split]].
  - rewrite forallb_app, Hprop. simpl. rewrite Hpn. reflexivity.
  - apply Forall_app. split; [exact Hns | constructor; [exact Hnn | constructor]].
  - apply Forall_app. split; [exact Hg | constructor; [exact Hx | constructor]].
  - rewrite descend_snoc, Hd.
    change (find_child (heap st) p n = Some a).
    destruct (find_child (heap st) p n) as [c|] eqn:Ec.
    + apply find_child_Some in Ec as [Ec1 Ec2]; [|exact Hx]. f_equal.
      exact (pi_sibling _ _ _ _ Hi I c a p n Ec1 Hp Ec2 Hn).
    + exfalso. exact (find_child_None _ _ _ a Ec Hp Hn).
Qed.

(** X12.  In the tree built from a well-formed listing in which no part of
    a path is the text ["None"] and no document record comes at a path
    already listed, every named node of the tree is found by
    [get_node_by_path] at its own [entry_path]: the lookup of the path of
    a node returns that node. *)
Theorem named_node_is_found
    (jsondata : list (gmap string (option string))) (t : RemoteTree)
    (a : nat) (n : string) :
  closed (heap t) ->
  forallb well_formed jsondata = true ->
  forallb names_not_None jsondata = true ->
  documents_fresh [] jsondata = true ->
  let t' := snd (rebuild_tree jsondata t) in
  in_tree t' a = true ->
  attr t' a "entry_name" = VStr n ->
  exists q, attr t' a "entry_path" = VStr q /\ lookup t' q = Ok (Some a).
Proof.
  intros Hc Hwf Hplain Hfresh t'. subst t'.
  destruct (rebuilt_well_formed True jsondata t Hc Hwf Hplain)
    as (ts & seen & -> & Hi); [intros _; exact Hfresh|].
  pose proof (pi_sound _ _ _ _ Hi) as Hs.
  intros Hin Hn.
  destruct (in_tree_relocate_inv (heap t) ts a Hc (proj1 Hs)) as (a0 & -> & Hin0);
    [rewrite (pi_tree _ _ _ _ Hi); eauto | exact Hin |].
  rewrite attr_relocate in Hn.
  assert (Hcase : a0 = 0%nat \/ exists n p, attr ts a0 "entry_name" = VStr n /\
                                            parent_of (heap ts) a0 = Some p).
  { destruct (decide (a0 = 0%nat)) as [->|Hne]; [left; reflexivity|]. right.
    destruct (in_tree_parent ts a0 0%nat Hin0 (pi_tree _ _ _ _ Hi) Hne) as [p Hp].
    eauto. }
  destruct (named_node_descend seen 0%nat ts Hi (S a0) a0 (Nat.lt_succ_diag_r a0) Hcase)
    as (segs & Hprop & Hns & Hg & Hd).
  exists (PyStr.join ("Document" :: segs)). rewrite attr_relocate. split.
  - exact (descend_path _ _ _ _ _ Hi Hg a0 Hd).
  - rewrite (lookup_relocated _ _ _ Hc (proj2 Hs)).
    rewrite (inv_lookup _ _ _ _ _ Hi Hprop Hns), Hd. reflexivity.
Qed.

Lemma named_node_is_found_witness :
  let jsondata := [folder_record "Document/Reader" "Reader" (Some "false");
                   sample_document "Document/Reader/book.pdf" "book.pdf"] in
  let t' := snd (rebuild_tree jsondata RemoteTree_init) in
  exists q, attr t' 2 "entry_path" = VStr q /\ lookup t' q = Ok (Some 2%nat).
Proof.
  intros jsondata t'.
  apply (named_node_is_found jsondata RemoteTree_init 2%nat "book.pdf" closed_nil);
    vm_compute; reflexivity.
Defined.

(* ===================================================================== *)
(** ** Paths whose folders are in the tree *)
(* ===================================================================== *)

Lemma descend_prefix h n l1 l2 a :
  descend h n (l1 ++ l2) = Some a -> exists b, descend h n l1 = Some b.
Proof.
  rewrite descend_app. destruct (descend h n l1) as [b|]; [eauto | discriminate].
Qed.

(** The loop of [_create_path] over parts that are all in the tree. *)
Lemma _create_path_loop_found root st ds :
  root_inv root st ->
  forall pre,
    forallb proper_name (pre ++ ds) = true ->
    Forall (fun x => no_slash x = true) (pre ++ ds) ->
    is_Some (descend (heap st) root (pre ++ ds)) ->
    _create_path_loop (PyStr.join ("Document" :: pre)) ds st = (Ok tt, st).
Proof.
  intros Hi. induction ds as [|d ds IH]; intros pre Hprop Hns [a Ha]; [reflexivity|].
  remember (PyStr.join ("Document" :: pre)) as lp eqn:Elp.
  simpl _create_path_loop. subst lp.
  rewrite <- (join_snoc ("Document" :: pre) d) by discriminate.
  change (("Document" :: pre) ++ [d]) with ("Document" :: (pre ++ [d])).
  replace (pre ++ d :: ds) with ((pre ++ [d]) ++ ds) in *
    by (rewrite <- app_assoc; reflexivity).
  destruct (descend_prefix _ _ _ _ _ Ha) as [b Hb].
  rewrite bind_lookup.
  rewrite (root_lookup _ _ _ Hi (forallb_app_l _ _ _ Hprop)).
  2:{ apply Forall_app in Hns as [H _]. exact H. }
  rewrite Hb. unfold bind at 1. cbn [ret].
  apply IH; eauto.
Qed.

Lemma _create_path_found root st path segs name :
  root_inv root st ->
  PyStr.split "/" path = "Document" :: segs ++ [name] ->
  forallb proper_name segs = true ->
  Forall (fun x => no_slash x = true) segs ->
  is_Some (descend (heap st) root segs) ->
  _create_path (Some path) st = (Ok tt, st).
Proof.
  intros Hi Hsplit Hprop Hns Hd.
  unfold _create_path. cbn [lift_option]. unfold bind at 1. cbn [ret].
  rewrite Hsplit. cbn [hd tail]. rewrite removelast_last.
  apply (_create_path_loop_found root st segs Hi []); assumption.
Qed.

(** X13.  [_create_path] builds nothing for a record whose parent folder is
    in the tree: in the tree of a well-formed listing, when the parent path
    of a well-formed record resolves to a node, the call returns and leaves
    the state as it was. *)
Theorem _create_path_builds_nothing
    (jsondata : list (gmap string (option string))) (t : RemoteTree)
    (data : gmap string (option string)) (p : nat) :
  closed (heap t) ->
  forallb well_formed jsondata = true ->
  well_formed data = true ->
  let t' := snd (rebuild_tree jsondata t) in
  lookup t' (PyStr.rsplit1_head "/" (record_path data)) = Ok (Some p) ->
  _create_path (Some (record_path data)) t' = (Ok tt, t').
Proof.
  intros Hc Hwf Hdata t'. subst t'.
  destruct (rebuilt_root jsondata t Hc Hwf) as (ts & -> & _ & Hi).
  destruct (well_formed_parts data Hdata)
    as (path & segs & name & Epath & Ename & Hsplit & Hprop & Hns & Hslash).
  unfold record_path. rewrite Epath.
  assert (Hnn : no_slash name = true).
  { apply Forall_app in Hns as [_ Hn]. apply Forall_cons in Hn as [Hn _]. exact Hn. }
  apply Forall_app in Hns as [Hns _]. apply forallb_app_l in Hprop.
  pose proof (proj2 (ri_sound _ _ Hi)) as Hok.
  rewrite Hslash at 1. rewrite (rsplit1_head_slash _ _ Hnn).
  rewrite (lookup_relocated _ _ _ Hc Hok), (root_lookup _ _ _ Hi Hprop Hns).
  intros Hl.
  assert (Hd : is_Some (descend (heap ts) 0 segs)).
  { destruct (descend (heap ts) 0 segs); [eauto | discriminate]. }
  destruct (sim__create_path (heap t) Hc (Some path) ts Hok) as [E _].
  rewrite E, (_create_path_found 0%nat ts path segs name Hi Hsplit Hprop Hns Hd).
  reflexivity.
Qed.

Lemma _create_path_builds_nothing_witness :
  let jsondata := [folder_record "Document/Reader" "Reader" (Some "false")] in
  let data := sample_document "Document/Reader/book.pdf" "book.pdf" in
  let t' := snd (rebuild_tree jsondata RemoteTree_init) in
  _create_path (Some "Document/Reader/book.pdf") t' = (Ok tt, t').
Proof.
  intros jsondata data t'.
  apply (_create_path_builds_nothing jsondata RemoteTree_init data 1%nat closed_nil);
    vm_compute; reflexivity.
Defined.

(* ===================================================================== *)
(** ** Listings that give the folders first *)
(* ===================================================================== *)

Lemma find_ext_in {A} (f g : A -> bool) l :
  (forall x, In x l -> f x = g x) -> List.find f l = List.find g l.
Proof.
  induction l as [|x l IH]; intros H; [reflexivity|]. simpl.
  rewrite <- (H x) by (left; reflexivity).
  destruct (f x); [reflexivity|]. apply IH. intros y Hy. apply H. right. exact Hy.
Qed.

Lemma find_app_Some {A} (f : A -> bool) l1 l2 c :
  List.find f l1 = Some c -> List.find f (l1 ++ l2) = Some c.
Proof.
  induction l1 as [|x l1 IH]; simpl; [discriminate|].
  destruct (f x); [auto | exact IH].
Qed.

Lemma find_app_None {A} (f : A -> bool) l1 l2 :
  List.find f l1 = None -> List.find f (l1 ++ l2) = List.find f l2.
Proof.
  induction l1 as [|x l1 IH]; simpl; [reflexivity|].
  destruct (f x); [discriminate | exact IH].
Qed.

Lemma children_push h o n :
  children (h ++ [o]) n
  = children h n ++ (if decide (ob_parent o = Some n) then [length h] else []).
Proof.
  unfold children. rewrite children_from_app. simpl.
  destruct (decide (ob_parent o = Some n)); reflexivity.
Qed.

Lemma find_child_old h o n x :
  List.find (fun c => String.eqb (_getattr (h ++ [o]) c "entry_name") x)
    (children h n)
  = find_child h n x.
Proof.
  unfold find_child. apply find_ext_in. intros c Hc.
  apply children_from_bounds in Hc. unfold _getattr.
  rewrite getattr_old by lia. reflexivity.
Qed.

Lemma find_child_push_Some h o n x c :
  find_child h n x = Some c -> find_child (h ++ [o]) n x = Some c.
Proof.
  intros H. unfold find_child at 1. rewrite children_push.
  apply find_app_Some. rewrite find_child_old. exact H.
Qed.

Lemma find_child_push_new h o n x :
  ob_parent o = Some n ->
  default VNone (ob_dict o !! "entry_name") = VStr x ->
  is_Some (find_child (h ++ [o]) n x).
Proof.
  intros Hp Hn. destruct (find_child h n x) as [c|] eqn:E.
  { exists c. apply find_child_push_Some. exact E. }
  exists (length h). unfold find_child. rewrite children_push.
  rewrite find_app_None by (rewrite find_child_old; exact E).
  destruct (decide (ob_parent o = Some n)); [|contradiction].
  simpl. unfold _getattr. rewrite getattr_last, Hn. simpl.
  rewrite String.eqb_refl. reflexivity.
Qed.

Lemma descend_push h o segs :
  forall n a, descend h n segs = Some a -> descend (h ++ [o]) n segs = Some a.
Proof.
  induction segs as [|s segs IH]; intros n a; simpl; [auto|].
  destruct (find_child h n s) as [c|] eqn:E; [|discriminate].
  rewrite (find_child_push_Some h o n s c E). apply IH.
Qed.

Lemma children_from_ext l :
  forall l' i a,
    length l = length l' ->
    (forall j, l !! j ≫= ob_parent = l' !! j ≫= ob_parent) ->
    children_from l i a = children_from l' i a.
Proof.
  induction l as [|o l IH]; intros [|o' l'] i a Hlen H; try discriminate;
    [reflexivity|].
  simpl. pose proof (H 0%nat) as H0. simpl in H0. rewrite H0.
  rewrite (IH l' (S i) a); [reflexivity | simpl in Hlen; lia |].
  intros j. exact (H (S j)).
Qed.

Lemma find_child_same h h' n x :
  length h' = length h ->
  (forall b, parent_of h' b = parent_of h b) ->
  (forall b, getattr h' b "entry_name" = getattr h b "entry_name") ->
  find_child h' n x = find_child h n x.
Proof.
  intros Hlen Hp Hn. unfold find_child, children.
  rewrite (children_from_ext h' h 0 n Hlen Hp).
  apply find_ext_in. intros c _. unfold _getattr. rewrite Hn. reflexivity.
Qed.

Lemma descend_same h h' segs :
  length h' = length h ->
  (forall b, parent_of h' b = parent_of h b) ->
  (forall b, getattr h' b "entry_name" = getattr h b "entry_name") ->
  forall n, descend h' n segs = descend h n segs.
Proof.
  intros Hlen Hp Hn. induction segs as [|s segs IH]; intros n; simpl; [reflexivity|].
  rewrite (find_child_same h h' n s Hlen Hp Hn).
  destruct (find_child h n s); [apply IH | reflexivity].
Qed.

(** A path is made of its parts in one way only. *)
Lemma join_segs_inj l1 l2 :
  Forall (fun x => no_slash x = true) l1 ->
  Forall (fun x => no_slash x = true) l2 ->
  PyStr.join ("Document" :: l1) = PyStr.join ("Document" :: l2) -> l1 = l2.
Proof.
  intros H1 H2 E. apply (f_equal (PyStr.split "/")) in E.
  rewrite !split_join in E; try discriminate;
    try (constructor; [reflexivity | assumption]).
  injection E as E. exact E.
Qed.

Lemma reached_descend st root segs :
  Forall (fun x => no_slash x = true) segs ->
  reached st root (PyStr.join ("Document" :: segs)) ->
  is_Some (descend (heap st) root segs).
Proof.
  intros Hns (segs' & a & E & _ & Hns' & Hd).
  rewrite (join_segs_inj segs segs' Hns Hns' E). eauto.
Qed.

Lemma tidy_same_reached root st st' q :
  length (heap st') = length (heap st) ->
  (forall b, parent_of (heap st') b = parent_of (heap st) b) ->
  (forall b, attr st' b "entry_name" = attr st b "entry_name") ->
  reached st root q -> reached st' root q.
Proof.
  intros Hlen Hp Hn (segs & a & E & Hprop & Hns & Hd).
  exists segs, a. repeat split; try assumption.
  rewrite (descend_same (heap st) (heap st') segs Hlen Hp Hn). exact Hd.
Qed.

Lemma tidy_push_reached root st o q :
  reached st root q -> reached (push o st) root q.
Proof.
  intros (segs & a & E & Hprop & Hns & Hd).
  exists segs, a. repeat split; try assumption.
  apply descend_push. exact Hd.
Qed.

Lemma create_folder_cases parent data st :
  create_folder parent data st = (Raise KeyError, st) \/
  exists o name,
    snd (create_folder parent data st) = push o st /\
    data !! "entry_name" = Some name /\
    ob_parent o = parent /\
    ob_dict o !! "entry_name" = Some (of_json name).
Proof.
  unfold create_folder.
  rewrite bind_item. destruct (data !! "entry_path") as [a_path|]; [|left; reflexivity].
  rewrite bind_item.
  destruct (data !! "entry_name") as [a_name|] eqn:En; [|left; reflexivity].
  repeat (rewrite bind_item;
          match goal with
          | |- context [data !! ?k] =>
              destruct (data !! k) eqn:?; [|left; reflexivity]
          end).
  right. rewrite snd_then_ret.
  match goal with
  | |- context [DPFolderNode_new ?p ?a ?b ?c ?d ?e ?f ?g ?h st] =>
      destruct (DPFolderNode_new_push p a b c d e f g h st)
        as (nd & -> & _ & Hp & _ & Hn)
  end.
  exists nd, a_name. auto.
Qed.

Lemma create_document_cases parent data st :
  create_document parent data st = (Raise KeyError, st) \/
  exists o name,
    snd (create_document parent data st) = push o st /\
    data !! "entry_name" = Some name /\
    ob_parent o = parent /\
    ob_dict o !! "entry_name" = Some (of_json name).
Proof.
  unfold create_document.
  rewrite bind_item. destruct (data !! "entry_path") as [a_path|]; [|left; reflexivity].
  rewrite bind_item.
  destruct (data !! "entry_name") as [a_name|] eqn:En; [|left; reflexivity].
  repeat (rewrite bind_item;
          match goal with
          | |- context [data !! ?k] =>
              destruct (data !! k) eqn:?; [|left; reflexivity]
          end).
  right. rewrite snd_then_ret.
  match goal with
  | |- context [DPDocumentNode_new ?p ?a1 ?a2 ?a3 ?a4 ?a5 ?a6 ?a7 ?a8 ?a9 ?b1
                  ?b2 ?b3 ?b4 ?b5 ?b6 st] =>
      destruct (DPDocumentNode_new_push p a1 a2 a3 a4 a5 a6 a7 a8 a9 b1 b2 b3
                  b4 b5 b6 st) as (nd & -> & _ & Hp & _ & Hn)
  end.
  exists nd, a_name. auto.
Qed.

Lemma tidy_refl st : tidy st st.
Proof.
  split; [lia|]. split; [auto|]. intros a Ha. lia.
Qed.

Lemma tidy_trans st1 st2 st3 : tidy st1 st2 -> tidy st2 st3 -> tidy st1 st3.
Proof.
  intros (L1 & O1 & N1) (L2 & O2 & N2). split; [lia|]. split.
  - intros a Ha. destruct (O1 a Ha) as [E1 E2].
    destruct (O2 a) as [E3 E4]; [lia|]. split; congruence.
  - intros a Ha. destruct (decide (a < length (heap st2))%nat) as [Hlt|Hge].
    + destruct (N1 a) as (n & p & E1 & E2); [lia|].
      destruct (O2 a Hlt) as [E3 E4]. exists n, p. split; congruence.
    + apply N2. lia.
Qed.

Lemma tidy_same st st' :
  length (heap st') = length (heap st) ->
  (forall b, parent_of (heap st') b = parent_of (heap st) b) ->
  (forall b, attr st' b "entry_name" = attr st b "entry_name") ->
  tidy st st'.
Proof.
  intros Hlen Hp Hn. split; [lia|]. split; [auto|]. intros a Ha. lia.
Qed.

Lemma tidy_push st o p x :
  ob_parent o = Some p -> ob_dict o !! "entry_name" = Some (VStr x) ->
  tidy st (push o st).
Proof.
  intros Hp Hn. unfold tidy, attr. simpl. rewrite length_app. simpl.
  split; [lia|]. split.
  - intros a Ha. rewrite getattr_old, parent_of_old by exact Ha. auto.
  - intros a Ha. assert (a = length (heap st)) as -> by lia.
    exists x, p. rewrite getattr_last, parent_of_last, Hn. auto.
Qed.

Lemma push_reached root st o p segs x :
  descend (heap st) root segs = Some p ->
  forallb proper_name (segs ++ [x]) = true ->
  Forall (fun s => no_slash s = true) (segs ++ [x]) ->
  ob_parent o = Some p -> ob_dict o !! "entry_name" = Some (VStr x) ->
  reached (push o st) root (PyStr.join ("Document" :: segs ++ [x])).
Proof.
  intros Hd Hprop Hns Hp Hn.
  destruct (find_child_push_new (heap st) o p x Hp) as [c Hc].
  { rewrite Hn. reflexivity. }
  exists (segs ++ [x]), c. repeat split; try assumption.
  simpl heap. rewrite descend_snoc, (descend_push _ o _ _ _ Hd). exact Hc.
Qed.

(** For a record whose parent folder is reached [_create_path] builds
    nothing. *)
Lemma process_record_reached root data st :
  root_inv root st -> well_formed data = true ->
  reached st root (PyStr.rsplit1_head "/" (record_path data)) ->
  process_record data st = _create_update_node data st.
Proof.
  intros Hi Hwf Hr.
  destruct (well_formed_parts data Hwf)
    as (path & segs & name & Epath & Ename & Hsplit & Hprop & Hns & Hslash).
  assert (Hrec : record_path data = path).
  { unfold record_path. rewrite Epath. reflexivity. }
  rewrite Hrec in *.
  assert (Hprop' : forallb proper_name segs = true) by exact (forallb_app_l _ _ _ Hprop).
  assert (Hns' : Forall (fun x => no_slash x = true) segs).
  { apply Forall_app in Hns as [H _]. exact H. }
  assert (Hnn : no_slash name = true).
  { apply Forall_app in Hns as [_ Hn]. apply Forall_cons in Hn as [Hn _]. exact Hn. }
  rewrite Hslash, (rsplit1_head_slash _ _ Hnn) in Hr.
  destruct (reached_descend st root segs Hns' Hr) as [p Hd].
  unfold process_record. rewrite bind_item, Epath. unfold bind at 1.
  rewrite (_create_path_found root st path segs name Hi Hsplit Hprop' Hns');
    [reflexivity | eauto].
Qed.

(** Such a record keeps the invariant where every node has a name. *)
Lemma process_record_named_inv seen root data st :
  path_inv False seen root st -> well_formed data = true -> all_named st ->
  reached st root (PyStr.rsplit1_head "/" (record_path data)) ->
  path_inv False (record_path data :: seen) root (snd (process_record data st)).
Proof.
  intros Hi Hwf Hall Hr.
  rewrite (process_record_reached root data st (path_inv_root _ _ _ _ Hi) Hwf Hr).
  destruct (well_formed_parts data Hwf) as (path & _ & _ & Epath & _).
  destruct (_create_update_node_steps data path Epath st) as [-> | H].
  - apply (path_inv_weaken False seen); [exact Hi | intros q Hq; right; exact Hq].
  - apply (settle_path_inv False seen root data st _ Hi Hwf);
      [apply named_guard; exact Hall | contradiction | contradiction | exact H].
Qed.

(** The processing of a record whose parent folder is reached. *)
Lemma process_record_folders_first seen root data st :
  path_inv False seen root st -> well_formed data = true -> all_named st ->
  reached st root (PyStr.rsplit1_head "/" (record_path data)) ->
  tidy st (snd (process_record data st)) /\
  (forall q, reached st root q -> reached (snd (process_record data st)) root q) /\
  (fst (process_record data st) = Ok tt ->
   (is_folder data || is_document data) = true ->
   reached (snd (process_record data st)) root (record_path data)).
Proof.
  intros Hi Hwf Hall Hr.
  pose proof (process_record_reached root data st (path_inv_root _ _ _ _ Hi) Hwf Hr)
    as Hrun.
  destruct (well_formed_parts data Hwf)
    as (path & segs & name & Epath & Ename & Hsplit & Hprop & Hns & Hslash).
  assert (Hrec : record_path data = path).
  { unfold record_path. rewrite Epath. reflexivity. }
  rewrite Hrec in *.
  assert (Hprop' : forallb proper_name segs = true) by exact (forallb_app_l _ _ _ Hprop).
  assert (Hns' : Forall (fun x => no_slash x = true) segs).
  { apply Forall_app in Hns as [H _]. exact H. }
  assert (Hnn : no_slash name = true).
  { apply Forall_app in Hns as [_ Hn]. apply Forall_cons in Hn as [Hn _]. exact Hn. }
  assert (Hhead : PyStr.rsplit1_head "/" path = PyStr.join ("Document" :: segs)).
  { rewrite Hslash. apply rsplit1_head_slash. exact Hnn. }
  assert (Hfull : path = PyStr.join ("Document" :: segs ++ [name])).
  { rewrite Hslash. change ("Document" :: segs ++ [name])
      with (("Document" :: segs) ++ [name]).
    symmetry. apply join_snoc. discriminate. }
  rewrite Hhead in Hr. destruct (reached_descend st root segs Hns' Hr) as [p Hd].
  assert (Hl : lookup st path = Ok (find_child (heap st) p name)).
  { rewrite Hfull, (inv_lookup _ _ _ _ _ Hi Hprop Hns), descend_snoc, Hd.
    reflexivity. }
  rewrite Hrun, _create_update_node_run, Epath, Hhead,
    (inv_lookup _ _ _ _ _ Hi Hprop' Hns'), Hd.
  unfold is_folder, is_document.
  destruct (data !! "entry_type") as [ty|] eqn:Ety.
  2:{ simpl. split; [apply tidy_refl|]. split; [auto | discriminate]. }
  assert (Hcreate : forall o nm st',
    st' = push o st -> data !! "entry_name" = Some nm ->
    ob_parent o = Some p -> ob_dict o !! "entry_name" = Some (of_json nm) ->
    tidy st st' /\ (forall q, reached st root q -> reached st' root q) /\
    reached st' root path).
  { intros o nm st' -> En Hop Hon.
    assert (nm = Some name) as -> by congruence. simpl in Hon.
    split; [exact (tidy_push st o p name Hop Hon)|].
    split; [intros q; apply tidy_push_reached|].
    rewrite Hfull. exact (push_reached root st o p segs name Hd Hprop Hns Hop Hon). }
  destruct (str_is ty "folder") eqn:Hf.
  - rewrite Hl. destruct (find_child (heap st) p name) as [a|] eqn:Ec.
    + destruct (update_node_updated data a st) as (f & Hfu & E).
      pose proof Ec as Ec'.
      apply find_child_Some in Ec' as [Hap Han]; [|apply exact_named; exact Hall].
      destruct (update_node a data st) as [out st']. simpl in E. subst st'.
      cbn [fst snd].
      assert (Hlen : length (alter f a (heap st)) = length (heap st))
        by apply length_alter.
      assert (Hpar : forall b, parent_of (alter f a (heap st)) b = parent_of (heap st) b).
      { intros b. apply parent_of_alter_same. intros o. apply (Hfu o). }
      assert (Hnm : forall b, getattr (alter f a (heap st)) b "entry_name"
                              = getattr (heap st) b "entry_name").
      { intros b. rewrite getattr_alter. unfold getattr.
        destruct (heap st !! b) as [o|] eqn:Eb; [|reflexivity].
        destruct (decide (a = b)) as [->|_]; [|reflexivity].
        destruct (Hfu o) as (_ & _ & _ & [E | (nm & E1 & E2)]).
        - rewrite E. reflexivity.
        - rewrite E2. assert (nm = Some name) as -> by congruence.
          unfold getattr in Han. rewrite Eb in Han. rewrite Han. reflexivity. }
      split; [apply tidy_same; assumption|].
      split; [intros q; apply tidy_same_reached; assumption|].
      intros _ _. exists (segs ++ [name]), a. repeat split; try assumption.
      cbn [heap]. rewrite (descend_same _ _ _ Hlen Hpar Hnm), descend_snoc, Hd.
      exact Ec.
    + destruct (create_folder_cases (Some p) data st)
        as [E | (o & nm & E & En & Hop & Hon)].
      * rewrite E. simpl. split; [apply tidy_refl|]. split; [auto | discriminate].
      * destruct (Hcreate o nm _ E En Hop Hon) as (H1 & H2 & H3). auto.
  - destruct (str_is ty "document") eqn:Hdoc.
    + destruct (create_document_cases (Some p) data st)
        as [E | (o & nm & E & En & Hop & Hon)].
      * rewrite E. simpl. split; [apply tidy_refl|]. split; [auto | discriminate].
      * destruct (Hcreate o nm _ E En Hop Hon) as (H1 & H2 & H3). auto.
    + simpl. split; [apply tidy_refl|]. split; [auto | discriminate].
Qed.

(** Nodes that are added with a name leave every node with a name. *)
Lemma tidy_all_named st st' : tidy st st' -> all_named st -> all_named st'.
Proof.
  intros (_ & Hold & Hnew) Hall a Ha.
  destruct (decide (a < length (heap st))%nat) as [Hlt|Hge].
  - destruct (Hold a Hlt) as [E _]. rewrite E. exact (Hall a Hlt).
  - destruct (Hnew a) as (n & _ & E & _); [lia | eauto].
Qed.

Lemma rebuild_loop_folders_first root jsondata :
  forall seen st known,
    path_inv False seen root st -> all_named st ->
    (forall q, In q known -> reached st root q) ->
    forallb well_formed jsondata = true ->
    folders_first known jsondata = true ->
    tidy st (snd (rebuild_loop jsondata st)) /\
    (forall q, reached st root q ->
       reached (snd (rebuild_loop jsondata st)) root q) /\
    (fst (rebuild_loop jsondata st) = Ok tt ->
     forall data, In data jsondata ->
       (is_folder data || is_document data) = true ->
       reached (snd (rebuild_loop jsondata st)) root (record_path data)) /\
    exists seen', path_inv False seen' root (snd (rebuild_loop jsondata st)).
Proof.
  induction jsondata as [|data rest IH]; intros seen st known Hi Hall HK Hwf Hff.
  { simpl. split; [apply tidy_refl|]. split; [auto|].
    split; [intros _ data [] | eauto]. }
  simpl in Hwf, Hff.
  apply andb_true_iff in Hwf as [Hwf1 Hwf2].
  apply andb_true_iff in Hff as [Hff1 Hff2].
  apply existsb_exists in Hff1 as (q0 & Hq0 & Heq). apply String.eqb_eq in Heq.
  assert (Hr : reached st root (PyStr.rsplit1_head "/" (record_path data))).
  { rewrite Heq. apply HK. exact Hq0. }
  destruct (process_record_folders_first seen root data st Hi Hwf1 Hall Hr)
    as (T1 & R1 & F1).
  pose proof (process_record_named_inv seen root data st Hi Hwf1 Hall Hr) as Hi1.
  pose proof (tidy_all_named _ _ T1 Hall) as Hall1.
  simpl rebuild_loop. unfold bind.
  destruct (process_record data st) as [[[]|e] st1]; cbn [fst snd] in *.
  - destruct (IH (record_path data :: seen) st1
                (if is_folder data then record_path data :: known else known)
                Hi1 Hall1) as (T2 & R2 & F2 & I2); [|exact Hwf2|exact Hff2|].
    { intros q Hq. destruct (is_folder data) eqn:Efd.
      - destruct Hq as [<- | Hq]; [apply F1; reflexivity | apply R1, HK, Hq].
      - apply R1, HK, Hq. }
    split; [exact (tidy_trans _ _ _ T1 T2)|].
    split; [intros q Hq; apply R2, R1, Hq|].
    split; [|exact I2].
    intros Hok d [<- | Hin] Hc; [apply R2, F1; auto | apply F2; auto].
  - split; [exact T1|]. split; [exact R1|]. split; [discriminate | eauto].
Qed.

Lemma all_named_start : all_named (fresh_tree []).
Proof.
  intros [|a] Ha; [exists "Document"; reflexivity | simpl in Ha; lia].
Qed.

Lemma reached_start : reached (fresh_tree []) 0 "Document".
Proof.
  exists [], 0%nat. split; [reflexivity|]. split; [reflexivity|].
  split; [constructor | reflexivity].
Qed.

(** X14.  When a well-formed listing gives every folder before the records
    that it holds, and [rebuild_tree] returns, every folder and document
    record of the listing is found again: [get_node_by_path] at the
    [entry_path] of the record returns a node of the tree that has the
    path and the name of the record. *)
Theorem listed_records_are_found
    (jsondata : list (gmap string (option string))) (t : RemoteTree)
    (data : gmap string (option string)) :
  closed (heap t) ->
  forallb well_formed jsondata = true ->
  folders_first ["Document"] jsondata = true ->
  fst (rebuild_tree jsondata t) = Ok tt ->
  In data jsondata ->
  (is_folder data || is_document data) = true ->
  let t' := snd (rebuild_tree jsondata t) in
  exists a,
    lookup t' (record_path data) = Ok (Some a) /\
    in_tree t' a = true /\
    attr t' a "entry_path" = VStr (record_path data) /\
    attr t' a "entry_name" = of_json (get_or_None data "entry_name").
Proof.
  intros Hc Hwf Hff Hok Hin Hkind t'. subst t'.
  rewrite (rebuild_tree_relocate jsondata t Hc) in *. cbn [fst snd] in *.
  destruct (rebuild_loop_folders_first 0%nat jsondata [] (fresh_tree [])
              ["Document"] (path_inv_fresh_tree False) all_named_start)
    as (T & _ & F & seen & Hi); [|exact Hwf|exact Hff|].
  { intros q [<- | []]. exact reached_start. }
  destruct (F Hok data Hin Hkind) as (segs & a & E & Hprop & Hns & Hd).
  set (ts := snd (rebuild_loop jsondata (fresh_tree []))) in *.
  pose proof (pi_sound _ _ _ _ Hi) as Hs.
  pose proof (tidy_all_named _ _ T all_named_start) as Hall.
  assert (Hl : lookup ts (record_path data) = Ok (Some a)).
  { rewrite E, (inv_lookup _ _ _ _ _ Hi Hprop Hns), Hd. reflexivity. }
  exists (length (heap t) + a)%nat.
  rewrite (lookup_relocated _ _ _ Hc (proj2 Hs)), Hl.
  rewrite (in_tree_relocate _ _ _ (proj1 Hs)), !attr_relocate.
  split; [reflexivity|]. split; [exact (lookup_in_tree ts _ a Hs Hl)|].
  split.
  { rewrite E. exact (descend_path _ _ _ _ _ Hi (named_guard ts segs Hall) a Hd). }
  assert (Hwfd : well_formed data = true).
  { rewrite forallb_forall in Hwf. apply Hwf. exact Hin. }
  destruct (well_formed_parts data Hwfd)
    as (path & segs0 & name & Epath & Ename & Hsplit & _ & Hns0 & Hslash).
  unfold get_or_None. rewrite Ename. simpl.
  assert (Hfull : record_path data = PyStr.join ("Document" :: segs0 ++ [name])).
  { unfold record_path. rewrite Epath, Hslash.
    change ("Document" :: segs0 ++ [name]) with (("Document" :: segs0) ++ [name]).
    symmetry. apply join_snoc. discriminate. }
  rewrite Hfull in E. apply join_segs_inj in E; [|assumption|assumption].
  subst segs. exact (descend_name _ _ _ _ _ (exact_named ts name Hall) Hd).
Qed.

Lemma listed_records_are_found_witness :
  let jsondata := [folder_record "Document/Reader" "Reader" (Some "false");
                   sample_document "Document/Reader/book.pdf" "book.pdf"] in
  let t' := snd (rebuild_tree jsondata RemoteTree_init) in
  exists a,
    lookup t' "Document/Reader/book.pdf" = Ok (Some a) /\
    in_tree t' a = true /\
    attr t' a "entry_path" = VStr "Document/Reader/book.pdf" /\
    attr t' a "entry_name" = VStr "book.pdf".
Proof.
  intros jsondata t'.
  apply (listed_records_are_found jsondata RemoteTree_init
           (sample_document "Document/Reader/book.pdf" "book.pdf") closed_nil).
  - vm_compute. reflexivity.
  - vm_compute. reflexivity.
  - vm_compute. reflexivity.
  - right. left. reflexivity.
  - vm_compute. reflexivity.
Defined.

Lemma all_attached st :
  sound st -> _tree st = Some 0%nat ->
  (forall a, (0 < a < length (heap st))%nat ->
     exists p, parent_of (heap st) a = Some p) ->
  forall k a, (a < k)%nat -> (a < length (heap st))%nat -> in_tree st a = true.
Proof.
  intros Hs Ht Hp. induction k as [|k IH]; intros a Hk Ha; [lia|].
  destruct (decide (a = 0%nat)) as [->|Hne].
  { apply in_tree_root; [exact (proj2 Hs) | exact Ht]. }
  destruct (Hp a) as [p Hpa]; [lia|].
  destruct (sound_parent_lt st a p Hs Hpa) as [Hlt _].
  apply (in_tree_child st p a Hs); [|exact Hpa].
  apply IH; lia.
Qed.

(** X15.  When a well-formed listing gives every folder before the records
    that it holds, the build makes no placeholder and leaves no node
    detached, whether [rebuild_tree] returns or raises: every node
    allocated behind the new root belongs to the tree and has a name. *)
Theorem folders_first_leaves_no_placeholder
    (jsondata : list (gmap string (option string))) (t : RemoteTree) (a : nat) :
  closed (heap t) ->
  forallb well_formed jsondata = true ->
  folders_first ["Document"] jsondata = true ->
  let t' := snd (rebuild_tree jsondata t) in
  (length (heap t) < a < length (heap t'))%nat ->
  in_tree t' a = true /\ exists n, attr t' a "entry_name" = VStr n.
Proof.
  intros Hc Hwf Hff t'. subst t'.
  rewrite (rebuild_tree_relocate jsondata t Hc). cbn [snd].
  destruct (rebuild_loop_folders_first 0%nat jsondata [] (fresh_tree [])
              ["Document"] (path_inv_fresh_tree False) all_named_start)
    as ((_ & _ & N) & _ & _ & seen & Hi); [|exact Hwf|exact Hff|].
  { intros q [<- | []]. exact reached_start. }
  set (ts := snd (rebuild_loop jsondata (fresh_tree []))) in *.
  pose proof (pi_sound _ _ _ _ Hi) as Hs.
  simpl heap at 2. rewrite length_relocate. intros Ha.
  assert (Ea : a = (length (heap t) + (a - length (heap t)))%nat) by lia.
  rewrite Ea. set (a0 := (a - length (heap t))%nat) in *.
  rewrite (in_tree_relocate _ _ _ (proj1 Hs)), attr_relocate.
  change (length (heap (fresh_tree []))) with 1%nat in N.
  split.
  - apply (all_attached ts Hs (pi_tree _ _ _ _ Hi)) with (k := S a0); [|lia|lia].
    intros b Hb. destruct (N b) as (n & p & _ & Hp); [lia | eauto].
  - destruct (N a0) as (n & p & Hn & _); [lia | eauto].
Qed.

Lemma folders_first_leaves_no_placeholder_witness :
  let jsondata := [folder_record "Document/Reader" "Reader" (Some "false");
                   sample_document "Document/Reader/book.pdf" "book.pdf"] in
  let t' := snd (rebuild_tree jsondata RemoteTree_init) in
  in_tree t' 2 = true /\ exists n, attr t' 2 "entry_name" = VStr n.
Proof.
  intros jsondata t'.
  apply (folders_first_leaves_no_placeholder jsondata RemoteTree_init 2%nat
           closed_nil).
  - vm_compute. reflexivity.
  - vm_compute. reflexivity.
  - vm_compute. lia.
Defined.

(* ===================================================================== *)
(** ** When a rebuild returns *)
(* ===================================================================== *)

(** On a well-formed record [_create_path] returns, and the states that it
    goes through keep the invariant. *)
Lemma _create_path_loop_returns root data path :
  data !! "entry_path" = Some (Some path) -> well_formed data = true ->
  forall ds pre post st,
    PyStr.split "/" path = ("Document" :: pre) ++ ds ++ post -> post <> [] ->
    forallb proper_name (pre ++ ds) = true ->
    Forall (fun x => no_slash x = true) (pre ++ ds) ->
    root_inv root st ->
    fst (_create_path_loop (PyStr.join ("Document" :: pre)) ds st) = Ok tt.
Proof.
  intros Epath Hwf.
  induction ds as [|d ds IH]; intros pre post st Hsplit Hpost Hprop Hns Hi;
    [reflexivity|].
  remember (PyStr.join ("Document" :: pre)) as lp eqn:Elp.
  simpl _create_path_loop. subst lp.
  rewrite <- (join_snoc ("Document" :: pre) d) by discriminate.
  change (("Document" :: pre) ++ [d]) with ("Document" :: (pre ++ [d])).
  replace (pre ++ d :: ds) with ((pre ++ [d]) ++ ds) in *
    by (rewrite <- app_assoc; reflexivity).
  assert (Hprop1 : forallb proper_name (pre ++ [d]) = true)
    by exact (forallb_app_l _ _ _ Hprop).
  assert (Hns1 : Forall (fun x => no_slash x = true) (pre ++ [d])).
  { apply Forall_app in Hns as [H _]. exact H. }
  assert (Hprop0 : forallb proper_name pre = true)
    by exact (forallb_app_l _ _ _ Hprop1).
  assert (Hns0 : Forall (fun x => no_slash x = true) pre).
  { apply Forall_app in Hns1 as [H _]. exact H. }
  assert (Hsplit' : PyStr.split "/" path
                    = ("Document" :: pre ++ [d]) ++ ds ++ post).
  { rewrite Hsplit. simpl. rewrite <- !app_assoc. reflexivity. }
  rewrite bind_lookup.
  pose proof (root_lookup _ _ (pre ++ [d]) Hi Hprop1 Hns1) as Hcur.
  rewrite Hcur.
  destruct (descend (heap st) root (pre ++ [d])) as [b|] eqn:Hd.
  { unfold bind at 1. cbn [ret]. apply (IH (pre ++ [d]) post); assumption. }
  cbv iota. unfold bind at 1. rewrite bind_lookup.
  pose proof (root_lookup _ _ pre Hi Hprop0 Hns0) as Hpar. rewrite Hpar.
  unfold bind. rewrite placeholder_new. cbn [ret].
  apply (IH (pre ++ [d]) post); try assumption.
  apply (place_root_inv root data st _ Hi).
  change ("Document" :: pre ++ [d]) with (("Document" :: pre) ++ [d]).
  apply (place_placeholder data st path ("Document" :: pre) d (ds ++ post));
    try assumption.
  - discriminate.
  - destruct ds; simpl; [exact Hpost | discriminate].
Qed.

Lemma process_record_run_wf root data st :
  root_inv root st -> well_formed data = true ->
  exists st1,
    root_inv root st1 /\
    process_record data st = _create_update_node data st1.
Proof.
  intros Hi Hwf.
  destruct (well_formed_parts data Hwf)
    as (path & segs & name & Epath & Ename & Hsplit & Hprop & Hns & Hslash).
  pose proof (_create_path_steps data path Epath st) as Hsteps.
  assert (Hret : fst (_create_path (Some path) st) = Ok tt).
  { unfold _create_path. cbn [lift_option]. unfold bind at 1. cbn [ret].
    rewrite Hsplit. cbn [hd tail]. rewrite removelast_last.
    apply (_create_path_loop_returns root data path Epath Hwf
             segs [] [name]); try assumption.
    - discriminate.
    - exact (forallb_app_l _ _ _ Hprop).
    - apply Forall_app in Hns as [H _]. exact H. }
  unfold process_record. rewrite bind_item, Epath. unfold bind at 1.
  destruct (_create_path (Some path) st) as [[[]|e] st1]; [|discriminate].
  exists st1. split; [|reflexivity].
  exact (places_root_inv _ _ _ _ Hi Hsteps).
Qed.

(** The two lookups of [_create_update_node] on a well-formed record. *)
Lemma lookups_wf root data st :
  root_inv root st -> well_formed data = true ->
  exists path name,
    data !! "entry_path" = Some (Some path) /\
    data !! "entry_name" = Some (Some name) /\
    (exists parent, lookup st (PyStr.rsplit1_head "/" path) = Ok parent) /\
    (exists node, lookup st path = Ok node).
Proof.
  intros Hi Hwf.
  destruct (well_formed_parts data Hwf)
    as (path & segs & name & Epath & Ename & Hsplit & Hprop & Hns & Hslash).
  exists path, name. split; [exact Epath|]. split; [exact Ename|].
  assert (Hnn : no_slash name = true).
  { apply Forall_app in Hns as [_ Hn]. apply Forall_cons in Hn as [Hn _]. exact Hn. }
  split.
  - rewrite Hslash, (rsplit1_head_slash _ _ Hnn).
    rewrite (root_lookup _ _ segs Hi (forallb_app_l _ _ _ Hprop)); [eauto|].
    apply Forall_app in Hns as [H _]. exact H.
  - assert (Hfull : path = PyStr.join ("Document" :: segs ++ [name])).
    { rewrite Hslash. change ("Document" :: segs ++ [name])
        with (("Document" :: segs) ++ [name]).
      symmetry. apply join_snoc. discriminate. }
    rewrite Hfull, (root_lookup _ _ _ Hi Hprop Hns). eauto.
Qed.

Lemma process_record_raises_wf root data st e :
  root_inv root st -> well_formed data = true ->
  fst (process_record data st) = Raise e -> e = KeyError \/ e = ValueError.
Proof.
  intros Hi Hwf.
  destruct (process_record_run_wf root data st Hi Hwf) as (st1 & Hi1 & ->).
  destruct (lookups_wf root data st1 Hi1 Hwf)
    as (path & name & Epath & _ & [parent Hp] & [node Hn]).
  rewrite _create_update_node_run, Epath, Hp.
  destruct (data !! "entry_type") as [ty|]; [|simpl; intros [= <-]; auto].
  set (S := fun e => e = KeyError \/ e = ValueError).
  assert (SK : S KeyError) by (left; reflexivity).
  assert (SV : S ValueError) by (right; reflexivity).
  destruct (str_is ty "folder").
  - rewrite Hn. destruct node as [a|].
    + apply (raises_update_node S SK SV a data st1 e).
    + apply (raises_create_folder S SK SV parent data st1 e).
  - destruct (str_is ty "document").
    + apply (raises_create_document S SK SV parent data st1 e).
    + discriminate.
Qed.

Lemma rebuild_loop_raises_wf root jsondata e :
  forall st,
    root_inv root st -> forallb well_formed jsondata = true ->
    fst (rebuild_loop jsondata st) = Raise e -> e = KeyError \/ e = ValueError.
Proof.
  induction jsondata as [|data rest IH]; intros st Hi Hwf; [discriminate|].
  simpl in Hwf. apply andb_true_iff in Hwf as [Hwf1 Hwf2].
  pose proof (process_record_raises_wf root data st e Hi Hwf1) as Hr.
  pose proof (process_record_root_inv root data st Hi Hwf1) as Hi1.
  simpl rebuild_loop. unfold bind.
  destruct (process_record data st) as [[[]|e'] st2]; cbn [fst snd] in *.
  - apply (IH st2 Hi1 Hwf2).
  - intros [= <-]. apply Hr. reflexivity.
Qed.

(** X16.  On a well-formed listing the lookups of a rebuild never raise:
    when [rebuild_tree] does not return, the exception is [KeyError] (a
    record lacks a field) or [ValueError] (a date or a number is not
    accepted), never [ResolverError] or [AttributeError]. *)
Theorem rebuild_tree_raises_on_well_formed
    (jsondata : list (gmap string (option string))) (t : RemoteTree) (e : exn) :
  closed (heap t) ->
  forallb well_formed jsondata = true ->
  fst (rebuild_tree jsondata t) = Raise e ->
  e = KeyError \/ e = ValueError.
Proof.
  intros Hc Hwf. rewrite (rebuild_tree_relocate jsondata t Hc). cbn [fst].
  exact (rebuild_loop_raises_wf 0%nat jsondata e (fresh_tree [])
           root_inv_fresh_tree Hwf).
Qed.

Lemma rebuild_tree_raises_on_well_formed_witness :
  let jsondata := [delete "title" (sample_document "Document/book.pdf" "book.pdf")] in
  fst (rebuild_tree jsondata RemoteTree_init) = Raise KeyError /\
  (KeyError = KeyError \/ KeyError = ValueError).
Proof.
  intros jsondata.
  assert (H : fst (rebuild_tree jsondata RemoteTree_init) = Raise KeyError)
    by (vm_compute; reflexivity).
  split; [exact H|].
  apply (rebuild_tree_raises_on_well_formed jsondata RemoteTree_init KeyError
           closed_nil); [vm_compute; reflexivity | exact H].
Defined.

(** Evaluate [has_fields] and the fields of a record that are known. *)
Ltac fields :=
  unfold has_fields, folder_fields, document_fields, get_or_None;
  cbn [forallb];
  repeat match goal with
         | H : ?d !! ?k = _ |- _ => rewrite H; clear H
         end;
  cbn [from_option id accepted andb].

Ltac items_iff :=
  repeat (rewrite bind_item;
          match goal with
          | |- context [match ?d !! ?k with _ => _ end] =>
              destruct (d !! k) eqn:?;
              [|split; [discriminate | fields; discriminate]]
          end).

Lemma create_folder_returns parent data st :
  fst (create_folder parent data st) = Ok tt <->
  has_fields data folder_fields
  && accepted (parse_date (get_or_None data "created_date")) = true.
Proof.
  unfold create_folder. items_iff.
  unfold bind. rewrite DPFolderNode_new_run, DPFolderNode_init_last. cbv zeta.
  fields.
  match goal with |- context [parse_date ?x] => destruct (parse_date x) end;
    simpl; split; auto; discriminate.
Qed.

Lemma create_document_returns parent data st :
  fst (create_document parent data st) = Ok tt <->
  has_fields data document_fields
  && accepted (parse_date (get_or_None data "created_date"))
  && accepted (parse_date (get_or_None data "modified_date"))
  && accepted (parse_int (get_or_None data "current_page"))
  && accepted (parse_int (get_or_None data "file_size"))
  && accepted (parse_int (get_or_None data "total_page")) = true.
Proof.
  unfold create_document. items_iff.
  unfold bind. rewrite DPDocumentNode_new_run, DPDocumentNode_init_last. cbv zeta.
  fields.
  repeat match goal with
         | |- context [match parse_date ?x with _ => _ end] =>
             destruct (parse_date x); simpl; [|split; discriminate]
         | |- context [match parse_int ?x with _ => _ end] =>
             destruct (parse_int x); simpl; [|split; discriminate]
         end.
  split; reflexivity.
Qed.

Lemma update_node_returns a data st x :
  data !! "entry_path" = Some x ->
  fst (update_node a data st) = Ok tt <->
  has_fields data folder_fields
  && accepted (parse_date (get_or_None data "created_date")) = true.
Proof.
  intros Epath. unfold update_node.
  rewrite bind_item. destruct (data !! "entry_name") eqn:?;
    [|split; [discriminate | fields; discriminate]].
  rewrite bind_setattr, bind_item. destruct (data !! "entry_type") eqn:?;
    [|split; [discriminate | fields; discriminate]].
  rewrite bind_setattr, bind_item. destruct (data !! "entry_id") eqn:?;
    [|split; [discriminate | fields; discriminate]].
  rewrite bind_setattr, bind_item. destruct (data !! "created_date") eqn:?;
    [|split; [discriminate | fields; discriminate]].
  rewrite bind_todatetime.
  match goal with |- context [parse_date ?x] => destruct (parse_date x) eqn:? end.
  2:{ split; [discriminate|]. fields.
      repeat match goal with H : parse_date _ = _ |- _ => rewrite H end.
      rewrite !andb_false_r. discriminate. }
  rewrite bind_setattr, bind_item. destruct (data !! "is_new") eqn:?;
    [|split; [discriminate | fields; discriminate]].
  rewrite !bind_setattr, bind_item. destruct (data !! "parent_folder_id") eqn:?;
    [|split; [discriminate | fields; rewrite ?andb_false_r; discriminate]].
  fields. repeat match goal with H : parse_date _ = _ |- _ => rewrite H end.
  split; reflexivity.
Qed.

Lemma _create_update_node_returns root data st :
  root_inv root st -> well_formed data = true ->
  fst (_create_update_node data st) = Ok tt <-> valid_record data = true.
Proof.
  intros Hi Hwf.
  destruct (lookups_wf root data st Hi Hwf)
    as (path & name & Epath & _ & [parent Hp] & [node Hn]).
  rewrite _create_update_node_run, Epath, Hp. unfold valid_record.
  destruct (data !! "entry_type") as [ty|]; [|split; discriminate].
  destruct (str_is ty "folder").
  - rewrite Hn. destruct node as [a|].
    + exact (update_node_returns a data st _ Epath).
    + apply create_folder_returns.
  - destruct (str_is ty "document").
    + apply create_document_returns.
    + split; reflexivity.
Qed.

Lemma rebuild_loop_returns root jsondata :
  forall st,
    root_inv root st -> forallb well_formed jsondata = true ->
    fst (rebuild_loop jsondata st) = Ok tt <->
    forallb valid_record jsondata = true.
Proof.
  induction jsondata as [|data rest IH]; intros st Hi Hwf;
    [split; reflexivity|].
  simpl in Hwf. apply andb_true_iff in Hwf as [Hwf1 Hwf2].
  destruct (process_record_run_wf root data st Hi Hwf1)
    as (st1 & Hi1 & Hrun).
  pose proof (_create_update_node_returns root data st1 Hi1 Hwf1) as Hv.
  rewrite <- Hrun in Hv.
  pose proof (process_record_root_inv root data st Hi Hwf1) as Hi2.
  simpl rebuild_loop. simpl forallb. unfold bind.
  destruct (process_record data st) as [[[]|e'] st2]; cbn [fst snd] in *.
  - rewrite (proj1 Hv eq_refl). simpl. apply (IH st2 Hi2 Hwf2).
  - destruct (valid_record data); [|split; discriminate].
    destruct Hv as [_ Hv]. discriminate (Hv eq_refl).
Qed.

(** X17.  On a well-formed listing [rebuild_tree] returns exactly when
    every record is valid: it has an [entry_type]; a folder record has the
    seven fields of a folder and a [created_date] that is [null] or in the
    format of the device; a document record has the fifteen fields of a
    document, two such dates, and page numbers and a size that are [null]
    or integers.  On any other well-formed listing it raises. *)
Theorem rebuild_tree_returns_iff_valid
    (jsondata : list (gmap string (option string))) (t : RemoteTree) :
  closed (heap t) ->
  forallb well_formed jsondata = true ->
  fst (rebuild_tree jsondata t) = Ok tt <->
  forallb valid_record jsondata = true.
Proof.
  intros Hc Hwf. rewrite (rebuild_tree_relocate jsondata t Hc). cbn [fst].
  exact (rebuild_loop_returns 0%nat jsondata (fresh_tree [])
           root_inv_fresh_tree Hwf).
Qed.

Lemma rebuild_tree_returns_iff_valid_witness :
  let jsondata := [folder_record "Document/Reader" "Reader" (Some "false");
                   sample_document "Document/Reader/book.pdf" "book.pdf"] in
  fst (rebuild_tree jsondata RemoteTree_init) = Ok tt.
Proof.
  intros jsondata.
  apply (rebuild_tree_returns_iff_valid jsondata RemoteTree_init closed_nil);
    vm_compute; reflexivity.
Defined.

(* ===================================================================== *)
(** ** The texts that [int] accepts *)
(* ===================================================================== *)

Lemma space_not_digit c :
  PyStr.is_space c = true ->
  PyStr.is_digit c = false /\ Ascii.eqb c "_" = false.
Proof.
  destruct c as [[] [] [] [] [] [] [] []]; try discriminate; intros _;
    split; reflexivity.
Qed.

Lemma digit_not_space c :
  PyStr.is_digit c = true ->
  PyStr.is_space c = false /\
  PyStr.split_sign (String c "") = (false, String c "").
Proof.
  destruct c as [[] [] [] [] [] [] [] []]; try discriminate; intros _;
    split; reflexivity.
Qed.

Lemma split_sign_digit c r :
  PyStr.is_digit c = true -> PyStr.split_sign (String c r) = (false, String c r).
Proof.
  destruct c as [[] [] [] [] [] [] [] []]; try discriminate; intros _;
    reflexivity.
Qed.

Lemma lstrip_app pre r :
  PyStr.all_space pre = true -> PyStr.lstrip (pre +:+ r) = PyStr.lstrip r.
Proof.
  induction pre as [|c pre IH]; [reflexivity|]. simpl.
  intros [Hc Hp]%andb_true_iff.
  change (String c pre +:+ r) with (String c (pre +:+ r)). simpl.
  rewrite Hc. apply IH. exact Hp.
Qed.

Lemma scan_digits_space post acc :
  PyStr.all_space post = true ->
  PyStr.scan_digits post acc false = Some (acc, post).
Proof.
  destruct post as [|c r]; [reflexivity|]. simpl.
  intros [Hc _]%andb_true_iff.
  destruct (space_not_digit c Hc) as [-> ->]. reflexivity.
Qed.

Lemma scan_digits_accepts run :
  digit_run run ->
  forall post acc b,
    PyStr.all_space post = true ->
    exists n, PyStr.scan_digits (run +:+ post) acc b = Some (n, post).
Proof.
  induction 1 as [c Hc | c r Hc Hr IH | c r Hc Hr IH]; intros post acc b Hpost.
  - change (String c "" +:+ post) with (String c post). simpl. rewrite Hc.
    rewrite (scan_digits_space post _ Hpost). eauto.
  - change (String c r +:+ post) with (String c (r +:+ post)). simpl. rewrite Hc.
    apply IH. exact Hpost.
  - change (String c (String "_" r) +:+ post)
      with (String c (String "_" (r +:+ post))).
    simpl PyStr.scan_digits. rewrite Hc.
    change (PyStr.is_digit "_") with false. cbv iota.
    change (Ascii.eqb "_" "_") with true. cbv iota.
    apply IH. exact Hpost.
Qed.

Lemma count_digits_space post :
  PyStr.all_space post = true -> PyStr.count_digits post = 0%nat.
Proof.
  destruct post as [|c r]; [reflexivity|]. simpl.
  intros [Hc _]%andb_true_iff.
  destruct (space_not_digit c Hc) as [-> ->]. reflexivity.
Qed.

(** The digits of a run are those that [int] counts. *)
Lemma count_digits_run run :
  digit_run run ->
  forall post, PyStr.all_space post = true ->
    PyStr.count_digits (run +:+ post) = PyStr.count_digits run.
Proof.
  induction 1 as [c Hc | c r Hc Hr IH | c r Hc Hr IH]; intros post Hpost.
  - change (String c "" +:+ post) with (String c post). simpl. rewrite Hc.
    rewrite (count_digits_space post Hpost). reflexivity.
  - change (String c r +:+ post) with (String c (r +:+ post)). simpl. rewrite Hc.
    rewrite (IH post Hpost). reflexivity.
  - change (String c (String "_" r) +:+ post)
      with (String c (String "_" (r +:+ post))).
    simpl PyStr.count_digits. rewrite Hc.
    change (PyStr.is_digit "_") with false. cbv iota.
    change (Ascii.eqb "_" "_") with true. cbv iota.
    rewrite (IH post Hpost). reflexivity.
Qed.

Lemma int_digits_accepts run post neg :
  digit_run run ->
  (PyStr.count_digits run <= PyStr.max_str_digits)%nat ->
  PyStr.all_space post = true ->
  exists z, PyStr.int_digits neg (run +:+ post) = Some z.
Proof.
  intros Hrun Hmax Hpost.
  assert (Hcount : (PyStr.count_digits (run +:+ post)
                    <=? PyStr.max_str_digits)%nat = true).
  { rewrite (count_digits_run run Hrun post Hpost). apply Nat.leb_le. exact Hmax. }
  assert (Htail : exists c r, run = String c r /\ PyStr.is_digit c = true /\
            exists n, PyStr.scan_digits (r +:+ post) (PyStr.digit_val c) false
                      = Some (n, post)).
  { inversion Hrun as [c Hc | c r Hc Hr | c r Hc Hr]; subst.
    - exists c, "". split; [reflexivity|]. split; [exact Hc|].
      change ("" +:+ post) with post. rewrite (scan_digits_space post _ Hpost). eauto.
    - exists c, r. split; [reflexivity|]. split; [exact Hc|].
      apply scan_digits_accepts; assumption.
    - exists c, (String "_" r). split; [reflexivity|]. split; [exact Hc|].
      change (String "_" r +:+ post) with (String "_" (r +:+ post)).
      simpl PyStr.scan_digits.
      change (PyStr.is_digit "_") with false. cbv iota.
      change (Ascii.eqb "_" "_") with true. cbv iota.
      apply scan_digits_accepts; assumption. }
  destruct Htail as (c & r & -> & Hc & n & Hn).
  change (String c r +:+ post) with (String c (r +:+ post)) in *.
  unfold PyStr.int_digits. rewrite Hc, Hn, Hcount, Hpost. eauto.
Qed.

(** [int] accepts every text of an integer of at most [max_str_digits]
    digits. *)
Lemma int_text_Some pre sign run post :
  PyStr.all_space pre = true ->
  sign = "" \/ sign = "+" \/ sign = "-" ->
  digit_run run ->
  (PyStr.count_digits run <= PyStr.max_str_digits)%nat ->
  PyStr.all_space post = true ->
  exists z, PyStr.int (pre +:+ sign +:+ run +:+ post) = Some z.
Proof.
  intros Hpre Hsign Hrun Hmax Hpost.
  unfold PyStr.int. rewrite (lstrip_app pre _ Hpre).
  assert (Hfirst : exists c r, run = String c r /\ PyStr.is_digit c = true).
  { inversion Hrun; subst; eauto. }
  destruct Hfirst as (c & r & Erun & Hc).
  destruct (digit_not_space c Hc) as [Hsp _].
  destruct Hsign as [-> | [-> | ->]].
  - change ("" +:+ run +:+ post) with (run +:+ post).
    rewrite Erun. change (String c r +:+ post) with (String c (r +:+ post)).
    simpl PyStr.lstrip. rewrite Hsp. rewrite (split_sign_digit c _ Hc).
    change (String c (r +:+ post)) with (String c r +:+ post). rewrite <- Erun.
    apply int_digits_accepts; assumption.
  - change ("+" +:+ run +:+ post) with (String "+" (run +:+ post)).
    change (PyStr.lstrip (String "+" (run +:+ post)))
      with (String "+" (run +:+ post)).
    change (PyStr.split_sign (String "+" (run +:+ post)))
      with (false, run +:+ post).
    apply int_digits_accepts; assumption.
  - change ("-" +:+ run +:+ post) with (String "-" (run +:+ post)).
    change (PyStr.lstrip (String "-" (run +:+ post)))
      with (String "-" (run +:+ post)).
    change (PyStr.split_sign (String "-" (run +:+ post)))
      with (true, run +:+ post).
    apply int_digits_accepts; assumption.
Qed.

Lemma parse_int_accepted x : accepted (parse_int x) = true <-> int_ok x.
Proof.
  unfold int_ok. destruct x as [s|]; simpl.
  - destruct (PyStr.int s) as [z|] eqn:E; simpl.
    + split; [|reflexivity]. intros _ s' [= <-]. congruence.
    + split; [discriminate|]. intros H. exfalso. exact (H s eq_refl E).
  - split; [discriminate | reflexivity].
Qed.

Lemma parse_date_accepted x : accepted (parse_date x) = true <-> date_ok x.
Proof.
  unfold date_ok. destruct x as [s|]; simpl.
  - destruct (Strptime.strptime s) as [d|] eqn:E; simpl.
    + split; [|reflexivity]. intros _ s' [= <-]. congruence.
    + split; [discriminate|]. intros H. exfalso. exact (H s eq_refl E).
  - split; [discriminate | reflexivity].
Qed.

(** X18.  [DPDocumentNode(...)] returns the new node exactly when
    [todatetime] accepts its two dates and [int] its three numbers ([None]
    is taken as it is); otherwise it raises [ValueError], and nothing
    else.  Either way one node has been allocated: it was attached to
    [parent] and given its path and its name before any field was parsed,
    so that a date or a number that is refused leaves the node in place. *)
Theorem DPDocumentNode_returns_iff
    (st : RemoteTree) (parent : option nat)
    (entry_path entry_name entry_type entry_id : value)
    (created_date : option string) (is_new author : value)
    (current_page : option string) (document_type file_revision : value)
    (file_size : option string) (mime_type : value)
    (modified_date : option string) (title : value)
    (total_page : option string) :
  let m := DPDocumentNode_new parent entry_path entry_name entry_type
             entry_id created_date is_new author current_page
             document_type file_revision file_size mime_type
             modified_date title total_page st in
  let self := length (heap st) in
  (fst m = Ok self \/ fst m = Raise ValueError) /\
  (fst m = Ok self <->
   date_ok created_date /\ date_ok modified_date /\
   int_ok current_page /\ int_ok file_size /\ int_ok total_page) /\
  length (heap (snd m)) = S (length (heap st)) /\
  parent_of (heap (snd m)) self = parent /\
  attr (snd m) self "entry_path" = entry_path /\
  attr (snd m) self "entry_name" = entry_name.
Proof.
  intros m self. subst m self.
  assert (H : forall A B C : Prop, A /\ B -> C -> A /\ B /\ C) by tauto.
  apply H; clear H.
  - rewrite <- !parse_int_accepted, <- !parse_date_accepted.
    rewrite DPDocumentNode_new_run, DPDocumentNode_init_last. cbv zeta.
    destruct (parse_date created_date); simpl.
    2:{ split; [auto|]. split; [discriminate | intros [H _]; discriminate]. }
    destruct (parse_date modified_date); simpl.
    2:{ split; [auto|]. split; [discriminate | intros (_ & H & _); discriminate]. }
    destruct (parse_int current_page); simpl.
    2:{ split; [auto|]. split; [discriminate | intros (_ & _ & H & _); discriminate]. }
    destruct (parse_int file_size); simpl.
    2:{ split; [auto|].
        split; [discriminate | intros (_ & _ & _ & H & _); discriminate]. }
    destruct (parse_int total_page); simpl.
    2:{ split; [auto|].
        split; [discriminate | intros (_ & _ & _ & _ & H); discriminate]. }
    split; [auto|]. split; auto.
  - destruct (DPDocumentNode_new_push parent entry_path entry_name entry_type
                entry_id created_date is_new author current_page document_type
                file_revision file_size mime_type modified_date title
                total_page st) as (o & -> & _ & Hp & Hpath & Hname).
    unfold attr. simpl heap.
    rewrite length_app, parent_of_last, !getattr_last, Hpath, Hname. simpl.
    split; [lia | auto].
Qed.

(* ===================================================================== *)
(** ** The dates that [todatetime] returns *)
(* ===================================================================== *)

Lemma digit_val_range lo hi c :
  Strptime.in_range lo hi c = true ->
  (Z.of_nat lo - 48 <= PyStr.digit_val c <= Z.of_nat hi - 48)%Z.
Proof.
  unfold Strptime.in_range, PyStr.digit_val.
  intros [H1 H2]%andb_true_iff. apply Nat.leb_le in H1, H2. lia.
Qed.

Lemma digit_val_digit c :
  PyStr.is_digit c = true -> (0 <= PyStr.digit_val c <= 9)%Z.
Proof. intros H. apply (digit_val_range 48 57 c H). Qed.

Lemma yields_weaken lo hi lo' hi' m :
  yields lo hi m -> (lo' <= lo)%Z -> (hi <= hi')%Z -> yields lo' hi' m.
Proof.
  intros H Hlo Hhi R k s r E. destruct (H R k s r E) as (v & rest & Hv & Hk).
  exists v, rest. split; [lia | exact Hk].
Qed.

Lemma yields_alt lo hi p q :
  yields lo hi p -> yields lo hi q -> yields lo hi (Strptime.alt p q).
Proof.
  intros Hp Hq R k s r. unfold Strptime.alt.
  destruct (p R k s) as [r'|] eqn:E.
  - intros [= <-]. exact (Hp R k s r' E).
  - apply Hq.
Qed.

Lemma yields_one lo hi :
  yields (Z.of_nat lo - 48) (Z.of_nat hi - 48) (Strptime.one lo hi).
Proof.
  intros R k s r. unfold Strptime.one. destruct s as [|c rest]; [discriminate|].
  destruct (Strptime.in_range lo hi c) eqn:E; [|discriminate].
  intros H. exists (PyStr.digit_val c), rest.
  split; [exact (digit_val_range lo hi c E) | exact H].
Qed.

Lemma yields_two a b c d :
  yields (10 * (Z.of_nat a - 48) + (Z.of_nat c - 48))
         (10 * (Z.of_nat b - 48) + (Z.of_nat d - 48)) (Strptime.two a b c d).
Proof.
  intros R k s r. unfold Strptime.two.
  destruct s as [|x [|y rest]]; try discriminate.
  destruct (Strptime.in_range a b x) eqn:E1; [|discriminate].
  destruct (Strptime.in_range c d y) eqn:E2; [|discriminate].
  simpl. intros H. eexists _, rest. split; [|exact H].
  pose proof (digit_val_range a b x E1). pose proof (digit_val_range c d y E2).
  lia.
Qed.

Lemma yields_space_digit : yields 1 9 Strptime.space_digit.
Proof.
  intros R k s r. unfold Strptime.space_digit.
  destruct s as [|x [|y rest]]; try (destruct x as [[] [] [] [] [] [] [] []]; discriminate);
    [discriminate|].
  destruct (Ascii.eqb_spec x " ") as [->|Hne].
  - destruct (Strptime.in_range 49 57 y) eqn:E; [|discriminate].
    intros H. exists (PyStr.digit_val y), rest. split; [|exact H].
    pose proof (digit_val_range 49 57 y E). lia.
  - destruct x as [[] [] [] [] [] [] [] []]; try discriminate.
    exfalso. apply Hne. reflexivity.
Qed.

Lemma yields_re_Y : yields 0 9999 Strptime.re_Y.
Proof.
  intros R k s r. unfold Strptime.re_Y.
  destruct s as [|a [|b [|c [|d rest]]]]; try discriminate.
  destruct (PyStr.is_digit a) eqn:Ea; [|discriminate].
  destruct (PyStr.is_digit b) eqn:Eb; [|discriminate].
  destruct (PyStr.is_digit c) eqn:Ec; [|discriminate].
  destruct (PyStr.is_digit d) eqn:Ed; [|discriminate].
  simpl. intros H. eexists _, rest. split; [|exact H].
  pose proof (digit_val_digit a Ea). pose proof (digit_val_digit b Eb).
  pose proof (digit_val_digit c Ec). pose proof (digit_val_digit d Ed). lia.
Qed.

Ltac yield :=
  repeat first
    [ apply yields_alt
    | eapply yields_weaken; [apply yields_two | simpl; lia | simpl; lia]
    | eapply yields_weaken; [apply yields_one | simpl; lia | simpl; lia]
    | eapply yields_weaken; [apply yields_space_digit | lia | lia] ].

Lemma yields_re_m : yields 1 12 Strptime.re_m.
Proof. unfold Strptime.re_m. yield. Qed.

Lemma yields_re_d : yields 1 31 Strptime.re_d.
Proof. unfold Strptime.re_d. yield. Qed.

Lemma yields_re_H : yields 0 23 Strptime.re_H.
Proof. unfold Strptime.re_H. yield. Qed.

Lemma yields_re_M : yields 0 59 Strptime.re_M.
Proof. unfold Strptime.re_M. yield. Qed.

Lemma yields_re_S : yields 0 61 Strptime.re_S.
Proof. unfold Strptime.re_S. yield. Qed.

Lemma lit_Some lower upper {R} (k : string -> option R) s r :
  Strptime.lit lower upper k s = Some r -> exists rest, k rest = Some r.
Proof.
  unfold Strptime.lit. destruct s as [|c rest]; [discriminate|].
  destruct (Ascii.eqb c lower || Ascii.eqb c upper); [eauto | discriminate].
Qed.

Lemma parse_range s d :
  Strptime.parse s = Some d ->
  (0 <= dt_year d <= 9999 /\ 1 <= dt_month d <= 12 /\ 1 <= dt_day d <= 31 /\
   0 <= dt_hour d <= 23 /\ 0 <= dt_minute d <= 59 /\ 0 <= dt_second d <= 61)%Z.
Proof.
  unfold Strptime.parse. intros H.
  apply yields_re_Y in H as (Y & s1 & HY & H). apply lit_Some in H as (s2 & H).
  apply yields_re_m in H as (m & s3 & Hm & H). apply lit_Some in H as (s4 & H).
  apply yields_re_d in H as (dd & s5 & Hd & H). apply lit_Some in H as (s6 & H).
  apply yields_re_H in H as (hh & s7 & HH & H). apply lit_Some in H as (s8 & H).
  apply yields_re_M in H as (mi & s9 & HM & H). apply lit_Some in H as (s10 & H).
  apply yields_re_S in H as (ss & s11 & HS & H). apply lit_Some in H as (s12 & H).
  destruct s12; [|discriminate]. injection H as <-. simpl. repeat split; lia.
Qed.

Lemma strptime_calendar_date s d :
  Strptime.strptime s = Some d -> calendar_date d.
Proof.
  unfold Strptime.strptime.
  destruct (Strptime.parse s) as [d'|] eqn:E; [|discriminate].
  destruct (Strptime.valid d') eqn:V; [|discriminate]. intros [= <-].
  apply parse_range in E. unfold Strptime.valid in V.
  apply andb_true_iff in V as [[V1 V2]%andb_true_iff V3].
  apply Z.leb_le in V1, V2, V3. unfold calendar_date. lia.
Qed.

(** X19.  [DPNode.todatetime] gives [None] for [None], and for a text
    either raises [ValueError] or returns a date whose fields are those of
    a calendar date: a year from 1 to 9999, a month from 1 to 12, a day of
    that month, an hour below 24, minutes and seconds below 60.  It never
    changes the instance. *)
Theorem todatetime_returns_calendar_date
    (x : option string) (st : RemoteTree) :
  snd (todatetime x st) = st /\
  (x = None -> fst (todatetime x st) = Ok VNone) /\
  (forall s, x = Some s ->
     fst (todatetime x st) = Raise ValueError \/
     exists d, fst (todatetime x st) = Ok (VDate d) /\ calendar_date d).
Proof.
  rewrite todatetime_run. destruct x as [s|].
  - destruct (Strptime.strptime s) as [d|] eqn:E; simpl.
    + split; [reflexivity|]. split; [discriminate|]. intros s' _. right.
      exists d. split; [reflexivity | exact (strptime_calendar_date s d E)].
    + split; [reflexivity|]. split; [discriminate|]. intros s' _. left. reflexivity.
  - simpl. split; [reflexivity|]. split; [reflexivity | discriminate].
Qed.

(* ===================================================================== *)
(** ** Nodes stay where they are *)
(* ===================================================================== *)

Lemma keeps_refl st : keeps st st.
Proof. split; [lia | auto]. Qed.

Lemma keeps_trans st1 st2 st3 : keeps st1 st2 -> keeps st2 st3 -> keeps st1 st3.
Proof.
  intros [L1 K1] [L2 K2]. split; [lia|]. intros a Ha.
  destruct (K1 a Ha) as (A1 & A2 & A3).
  destruct (K2 a) as (B1 & B2 & B3); [lia|].
  repeat split; congruence.
Qed.

Lemma keeps_push st o : keeps st (push o st).
Proof.
  split; [simpl; rewrite length_app; lia|]. intros a Ha. unfold attr. simpl.
  rewrite lookup_app_l, parent_of_old, getattr_old by exact Ha. auto.
Qed.

Lemma keeps_update data st a f :
  attr_update data f ->
  keeps st (mk_RemoteTree (alter f a (heap st)) (_tree st) (_resolver st)).
Proof.
  intros Hf. split; [simpl; rewrite length_alter; lia|]. intros b Hb.
  unfold attr. simpl. split; [|split].
  - rewrite list_lookup_alter.
    destruct (decide (a = b)) as [->|]; [|reflexivity].
    destruct (heap st !! b) as [o|]; [|reflexivity]. simpl.
    f_equal. apply (Hf o).
  - apply parent_of_alter_same. intros o. apply (Hf o).
  - rewrite getattr_alter. unfold getattr.
    destruct (heap st !! b) as [o|]; [|reflexivity].
    destruct (decide (a = b)); [|reflexivity].
    destruct (Hf o) as (_ & _ & E & _). rewrite E. reflexivity.
Qed.

Lemma place_keeps data st st' : place data st st' -> keeps st st'.
Proof. intros []. apply keeps_push. Qed.

Lemma settle_keeps data st st' : settle data st st' -> keeps st st'.
Proof.
  intros [|]; [apply keeps_push | eapply keeps_update; eassumption].
Qed.

Lemma process_record_keeps data st : keeps st (snd (process_record data st)).
Proof.
  destruct (process_record_steps data st) as (st1 & H1 & H2).
  apply (keeps_trans st st1).
  - clear H2. induction H1 as [|x y z Hxy _ IH]; [apply keeps_refl|].
    exact (keeps_trans _ _ _ (place_keeps _ _ _ Hxy) IH).
  - destruct H2 as [-> | H2]; [apply keeps_refl | exact (settle_keeps _ _ _ H2)].
Qed.

Lemma rebuild_loop_keeps jsondata :
  forall st, keeps st (snd (rebuild_loop jsondata st)).
Proof.
  induction jsondata as [|data rest IH]; intros st; [apply keeps_refl|].
  simpl. unfold bind. pose proof (process_record_keeps data st) as H.
  destruct (process_record data st) as [[u|e] st1]; simpl in *.
  - exact (keeps_trans _ _ _ H (IH st1)).
  - exact H.
Qed.

(** X20.  The records that come later in a listing never move a node made
    for an earlier one: when the rebuild of [pre] returns, the rebuild of
    [pre ++ post] leaves every node of the first in the heap at its
    address, with its class, its parent and its [entry_path].  An update in
    place changes other fields only. *)
Theorem later_records_never_move_a_node
    (pre post : list (gmap string (option string))) (t : RemoteTree) (a : nat) :
  let t1 := snd (rebuild_tree pre t) in
  let t2 := snd (rebuild_tree (pre ++ post) t) in
  fst (rebuild_tree pre t) = Ok tt ->
  (a < length (heap t1))%nat ->
  (length (heap t1) <= length (heap t2))%nat /\
  ob_class <$> heap t2 !! a = ob_class <$> heap t1 !! a /\
  parent_of (heap t2) a = parent_of (heap t1) a /\
  attr t2 a "entry_path" = attr t1 a "entry_path".
Proof.
  intros t1 t2 Hok Ha. subst t1 t2.
  rewrite !rebuild_tree_start in *. rewrite rebuild_loop_app.
  destruct (rebuild_loop pre (fresh_tree (heap t))) as [[[]|e] st1];
    [|discriminate].
  cbn [snd] in *. destruct (rebuild_loop_keeps post st1) as [L K].
  split; [exact L | exact (K a Ha)].
Qed.

Lemma later_records_never_move_a_node_witness :
  let pre := [folder_record "Document/A" "A" (Some "true")] in
  let post := [folder_record "Document/A" "B" None;
               sample_document "Document/A/x.pdf" "x.pdf"] in
  let t1 := snd (rebuild_tree pre RemoteTree_init) in
  let t2 := snd (rebuild_tree (pre ++ post) RemoteTree_init) in
  parent_of (heap t2) 1 = parent_of (heap t1) 1 /\
  attr t2 1 "entry_path" = attr t1 1 "entry_path".
Proof.
  intros pre post t1 t2.
  destruct (later_records_never_move_a_node pre post RemoteTree_init 1%nat)
    as (_ & _ & H1 & H2).
  - vm_compute. reflexivity.
  - vm_compute. lia.
  - split; [exact H1 | exact H2].
Defined.

(* ===================================================================== *)
(** ** The root of a well-formed listing *)
(* ===================================================================== *)

Lemma root_valid root st :
  root_inv root st ->
  (root < length (heap st))%nat /\ parent_of (heap st) root = None.
Proof.
  intros Hi. destruct (ri_sound _ _ Hi) as [_ Hok].
  exact (Hok root (ri_tree _ _ Hi)).
Qed.

Lemma place_root root data st st' :
  root_inv root st -> place data st st' ->
  heap st' !! root = heap st !! root.
Proof.
  intros Hi []. simpl. apply lookup_app_l. apply (root_valid _ _ Hi).
Qed.

Lemma settle_root root data st st' :
  root_inv root st -> well_formed data = true ->
  settle data st st' -> heap st' !! root = heap st !! root.
Proof.
  intros Hi Hwf Hstep. destruct (root_valid _ _ Hi) as [Hlt Hnone].
  destruct Hstep as [| path a f Epath Hfound Hf].
  { simpl. apply lookup_app_l. exact Hlt. }
  pose proof (found_below_root root data st path a Hi Hwf Epath Hfound) as Hne.
  simpl. apply list_lookup_alter_ne. exact Hne.
Qed.

Lemma process_record_root root data st :
  root_inv root st -> well_formed data = true ->
  heap (snd (process_record data st)) !! root = heap st !! root.
Proof.
  intros Hi Hwf.
  destruct (process_record_steps data st) as (st1 & H1 & H2).
  assert (H : root_inv root st1 /\ heap st1 !! root = heap st !! root).
  { clear H2. induction H1 as [|x y z Hxy _ IH]; [auto|].
    pose proof (place_root_inv _ _ _ _ Hi Hxy) as Hy.
    destruct (IH Hy) as [Hz E]. split; [exact Hz|].
    rewrite E. exact (place_root _ _ _ _ Hi Hxy). }
  destruct H as [Hi1 E1].
  destruct H2 as [-> | H2]; [exact E1|].
  rewrite (settle_root _ _ _ _ Hi1 Hwf H2). exact E1.
Qed.

Lemma rebuild_loop_root root jsondata :
  forall st,
    root_inv root st -> forallb well_formed jsondata = true ->
    heap (snd (rebuild_loop jsondata st)) !! root = heap st !! root.
Proof.
  induction jsondata as [|data rest IH]; intros st Hi Hwf; [reflexivity|].
  simpl in Hwf. apply andb_true_iff in Hwf as [Hwf1 Hwf2].
  pose proof (process_record_root root data st Hi Hwf1) as E.
  pose proof (process_record_root_inv root data st Hi Hwf1) as Hi1.
  simpl rebuild_loop. unfold bind.
  destruct (process_record data st) as [[u|e] st1]; cbn [fst snd] in *.
  - rewrite (IH st1 Hi1 Hwf2). exact E.
  - exact E.
Qed.

(** X21.  A well-formed listing leaves the root as [_create_tree_root]
    made it: after the rebuild, whether it returned or raised, the root
    node has the fields it was given (entry_id ["root"], type ["folder"],
    the date of 2017-12-12) and [get_node_by_path("Document")] returns it.
    No record of such a listing updates the root. *)
Theorem well_formed_listing_keeps_the_root
    (jsondata : list (gmap string (option string))) (t : RemoteTree) :
  closed (heap t) ->
  forallb well_formed jsondata = true ->
  let t' := snd (rebuild_tree jsondata t) in
  heap t' !! length (heap t) = Some root_obj /\
  lookup t' "Document" = Ok (Some (length (heap t))).
Proof.
  intros Hc Hwf t'. subst t'.
  pose proof (built_root_inv jsondata Hwf) as Hi.
  rewrite (rebuild_tree_relocate jsondata t Hc). cbn [snd].
  set (ts := snd (rebuild_loop jsondata (fresh_tree []))) in *.
  split.
  - simpl heap.
    rewrite <- (Nat.add_0_r (length (heap t))) at 1.
    rewrite lookup_relocate. unfold ts.
    rewrite (rebuild_loop_root 0%nat jsondata (fresh_tree [])
               root_inv_fresh_tree Hwf).
    reflexivity.
  - rewrite (lookup_relocated _ _ _ Hc (proj2 (ri_sound _ _ Hi))).
    change "Document" with (PyStr.join ("Document" :: [])) at 1.
    rewrite (root_lookup _ _ [] Hi eq_refl (List.Forall_nil _)).
    simpl. rewrite Nat.add_0_r. reflexivity.
Qed.

Lemma well_formed_listing_keeps_the_root_witness :
  let jsondata := [folder_record "Document/Reader" "Reader" (Some "false");
                   folder_record "Document/Reader" "Reader" (Some "true")] in
  let t' := snd (rebuild_tree jsondata RemoteTree_init) in
  heap t' !! 0%nat = Some root_obj /\ lookup t' "Document" = Ok (Some 0%nat).
Proof.
  intros jsondata t'.
  apply (well_formed_listing_keeps_the_root jsondata RemoteTree_init closed_nil).
  vm_compute. reflexivity.
Defined.

(* ===================================================================== *)
(** ** Records outside the root *)
(* ===================================================================== *)

Lemma lookup_other_root st root n path first rest :
  _resolver st = Some (mk_Resolver "entry_name") -> _tree st = Some root ->
  parent_of (heap st) root = None ->
  attr st root "entry_name" = VStr n ->
  PyStr.split "/" path = first :: rest -> first <> n ->
  lookup st path = Raise ResolverError.
Proof.
  intros Hr Ht Hp Hn Hsplit Hne.
  rewrite (lookup_run st _ root path Hr Ht Hp), Hsplit.
  destruct (String.eqb first ""); [reflexivity|].
  unfold attr in Hn. unfold _getattr. simpl pathattr. rewrite Hn. simpl.
  destruct (String.eqb_spec n first) as [->|_]; [contradiction | reflexivity].
Qed.

(** The parts of the parent path are the parts of the path without the
    last one. *)
Lemma split_rsplit1_head path first rest :
  PyStr.split "/" path = first :: rest ->
  exists rest', PyStr.split "/" (PyStr.rsplit1_head "/" path) = first :: rest'.
Proof.
  intros Hsplit.
  pose proof (split_no_slash path) as Hns. rewrite Hsplit in Hns.
  pose proof (join_split path) as Hj. rewrite Hsplit in Hj.
  destruct rest as [|x rest].
  - simpl in Hj. subst path. apply Forall_cons in Hns as [Hf _].
    unfold PyStr.rsplit1_head. rewrite (before_last_no_slash _ Hf).
    rewrite (split_single _ Hf). eauto.
  - destruct (exists_last (l := x :: rest)) as (l & z & E); [discriminate|].
    rewrite E in *.
    change (first :: l ++ [z]) with ((first :: l) ++ [z]) in Hj, Hns.
    rewrite join_snoc in Hj by discriminate. subst path.
    apply Forall_app in Hns as [Hl Hz]. apply Forall_cons in Hz as [Hz _].
    rewrite (rsplit1_head_slash _ _ Hz).
    rewrite split_join; [eauto | discriminate | exact Hl].
Qed.

(** X22.  A record whose path does not start with the name of the root
    stops the rebuild at once: whatever its other fields, the processing
    of the record raises [ResolverError] at its first lookup and builds
    nothing. *)
Theorem record_outside_the_root_raises
    (data : gmap string (option string)) (st : RemoteTree) (root : nat)
    (n path first : string) (rest : list string) :
  _resolver st = Some (mk_Resolver "entry_name") -> _tree st = Some root ->
  parent_of (heap st) root = None ->
  attr st root "entry_name" = VStr n ->
  data !! "entry_path" = Some (Some path) ->
  PyStr.split "/" path = first :: rest -> first <> n ->
  process_record data st = (Raise ResolverError, st).
Proof.
  intros Hr Ht Hp Hn Epath Hsplit Hne.
  unfold process_record. rewrite bind_item, Epath. unfold bind at 1.
  unfold _create_path. cbn [lift_option]. unfold bind at 1. cbn [ret].
  rewrite Hsplit. cbn [hd tail].
  destruct (removelast rest) as [|d ds].
  - cbn [_create_path_loop ret].
    rewrite _create_update_node_run, Epath.
    destruct (split_rsplit1_head path first rest Hsplit) as [rest' Hs].
    rewrite (lookup_other_root st root n _ first rest' Hr Ht Hp Hn Hs Hne).
    reflexivity.
  - simpl _create_path_loop. rewrite bind_lookup.
    pose proof (split_no_slash path) as Hns. rewrite Hsplit in Hns.
    apply Forall_cons in Hns as [Hf _].
    rewrite (lookup_other_root st root n _ first (PyStr.split "/" d) Hr Ht Hp Hn
               (split_slash first d Hf) Hne).
    reflexivity.
Qed.

Lemma record_outside_the_root_raises_witness :
  let st := snd (rebuild_tree [] RemoteTree_init) in
  let data := sample_document "Reader/a/x.pdf" "x.pdf" in
  process_record data st = (Raise ResolverError, st).
Proof.
  intros st data.
  apply (record_outside_the_root_raises data st 0%nat "Document"
           "Reader/a/x.pdf" "Reader" ["a"; "x.pdf"]);
    try reflexivity.
  discriminate.
Defined.
